(** * Query generators for the clients-daily aggregate datasets

    A shallow embedding of [sql/clients_daily_scalar_aggregates.sql.py] and
    [sql/clients_daily_histogram_aggregates.sql.py]: the probe classifiers,
    the SQL fragment composers, the master templates and the drivers.

    Conventions of the embedding.
    - Text is [string] (a sequence of bytes); every Python string method the
      generators call is modelled below, next to its Python meaning.
    - A raised exception is the [Raise] case of [result]; [bind] threads it.
    - A Python [set] of names is a [gset string]; a [dict] from names to
      names is a [gmap string string].  A [for] loop over a set receives the
      elements as a list without repetition, in whatever order the
      interpreter yields them: the composers take that list.
    - The two external reads (the table schema printed by [bq show --schema]
      and the keys of the probe-info document) are arguments. *)

From Stdlib Require Import Ascii.
From stdpp Require Import gmap strings list.

(** ** Exceptions *)

Inductive exn : Type :=
| KeyError (key : string)
| IndexError
| TypeError (msg : string)
| ValueError (msg : string).

Inductive result (A : Type) : Type :=
| Ok (a : A)
| Raise (e : exn).
Arguments Ok {A} a.
Arguments Raise {A} e.

#[global] Instance exn_eq_dec : EqDecision exn.
Proof. solve_decision. Defined.

#[global] Instance result_eq_dec {A : Type} `{EqDecision A} : EqDecision (result A).
Proof. solve_decision. Defined.

(** Sequencing: an exception of [r] ends the computation. *)
Definition bind {A B : Type} (r : result A) (f : A → result B) : result B :=
  match r with
  | Ok a => f a
  | Raise e => Raise e
  end.

Notation "'let!' x ':=' r 'in' k" := (bind r (λ x, k))
  (at level 10, x name, r at level 200, k at level 200, only parsing).

(** [a and b], where evaluating [b] may raise: [b] is evaluated only when
    [a] is true. *)
Definition and_then (a : bool) (b : result bool) : result bool :=
  if a then b else Ok false.

(** A [for] loop whose body may raise, over the loop's state. *)
Fixpoint for_each {A St : Type} (body : St → A → result St) (l : list A) (st : St)
  : result St :=
  match l with
  | [] => Ok st
  | x :: l' => let! st' := body st x in for_each body l' st'
  end.

(** [l[i]] on a Python list. *)
Definition index {A : Type} (l : list A) (i : nat) : result A :=
  match l !! i with
  | Some x => Ok x
  | None => Raise IndexError
  end.

(** ** Characters and strings *)

Definition nl_char : ascii := ascii_of_nat 10.
Definition tab_char : ascii := ascii_of_nat 9.
Definition nl : string := String nl_char EmptyString.
Definition tab : string := String tab_char EmptyString.
(** The double quote character, as a string. *)
Definition dq : string := String (ascii_of_nat 34) EmptyString.

(** [s.startswith(p)] *)
Fixpoint startswith (s p : string) : bool :=
  match p, s with
  | EmptyString, _ => true
  | String a p', String b s' => if Ascii.eqb a b then startswith s' p' else false
  | String _ _, EmptyString => false
  end.

(** [s[n:]] *)
Fixpoint drop_chars (n : nat) (s : string) : string :=
  match n, s with
  | O, _ => s
  | S n', String _ s' => drop_chars n' s'
  | S _, EmptyString => EmptyString
  end.

(** The scan of [s.replace(old, new)] for a non-empty [old]: left to right,
    occurrences do not overlap.  [skip] counts the characters of a matched
    occurrence that are still to be passed over. *)
Fixpoint replace_scan (old new : string) (skip : nat) (s : string) : string :=
  match s with
  | EmptyString => EmptyString
  | String c s' =>
      match skip with
      | S k => replace_scan old new k s'
      | O =>
          if startswith s old
          then new +:+ replace_scan old new (String.length old - 1) s'
          else String c (replace_scan old new 0 s')
      end
  end.

(** [new] before every character and at the end: what Python does for an
    empty [old]. *)
Fixpoint intersperse_all (new s : string) : string :=
  match s with
  | EmptyString => new
  | String c s' => new +:+ String c (intersperse_all new s')
  end.

(** [s.replace(old, new)] *)
Definition replace (s old new : string) : string :=
  match old with
  | EmptyString => intersperse_all new s
  | String _ _ => replace_scan old new 0 s
  end.

(** Lower case of one byte: [A]-[Z] move to [a]-[z].  Bytes outside ASCII
    are left as they are (the registry's and the schema's names are ASCII). *)
Definition lower_char (c : ascii) : ascii :=
  let n := nat_of_ascii c in
  if (65 <=? n) && (n <=? 90) then ascii_of_nat (n + 32) else c.

Fixpoint map_chars (f : ascii → ascii) (s : string) : string :=
  match s with
  | EmptyString => EmptyString
  | String c s' => String (f c) (map_chars f s')
  end.

(** [s.lower()], on ASCII text.  Python lowers letters outside ASCII too;
    here their bytes are left as they are, so a statement on the value of a
    normalizer is made for ASCII text ([is_ascii]). *)
Definition lower (s : string) : string := map_chars lower_char s.

(** The text is made of ASCII characters: on such text [lower] is Python's
    [str.lower]. *)
Fixpoint is_ascii (s : string) : bool :=
  match s with
  | EmptyString => true
  | String c s' => (nat_of_ascii c <? 128) && is_ascii s'
  end.

(** [sep.join(l)] *)
Fixpoint join (sep : string) (l : list string) : string :=
  match l with
  | [] => EmptyString
  | [x] => x
  | x :: l' => x +:+ sep +:+ join sep l'
  end.

(** A multi-line string literal, one element per source line. *)
Definition text_of_lines (l : list string) : string := join nl l.

(** [s.split(nl)] *)
Fixpoint split_lines (s : string) : list string :=
  match s with
  | EmptyString => [EmptyString]
  | String c s' =>
      if Ascii.eqb c nl_char then EmptyString :: split_lines s'
      else match split_lines s' with
           | l :: ls => String c l :: ls
           | [] => [String c EmptyString]
           end
  end.

(** ** [textwrap.dedent]

    The library function works with two regular expressions, both in
    multi-line mode.  The first matches a line made of blanks (space, tab)
    only; such a line is replaced by the empty line.  The second captures
    the leading blanks of every line that has a character other than a blank.
    The margin is the longest common prefix of these indentations; it is
    removed from the start of every line
    that has it. *)

Definition is_blank (c : ascii) : bool :=
  Ascii.eqb c " " || Ascii.eqb c tab_char.

Fixpoint all_blank (s : string) : bool :=
  match s with
  | EmptyString => true
  | String c s' => is_blank c && all_blank s'
  end.

Definition is_empty (s : string) : bool :=
  match s with EmptyString => true | String _ _ => false end.

(** The substitution by [_whitespace_only_re], on one line. *)
Definition blank_line (l : string) : string :=
  if all_blank l then EmptyString else l.

(** The captured group of [_leading_whitespace_re], on one line. *)
Fixpoint leading_whitespace (l : string) : string :=
  match l with
  | EmptyString => EmptyString
  | String c l' => if is_blank c then String c (leading_whitespace l') else EmptyString
  end.

Fixpoint common_prefix (a b : string) : string :=
  match a, b with
  | String x a', String y b' =>
      if Ascii.eqb x y then String x (common_prefix a' b') else EmptyString
  | _, _ => EmptyString
  end.

(** One turn of the loop [for indent in indents]. *)
Definition update_margin (margin : option string) (indent : string) : option string :=
  match margin with
  | None => Some indent
  | Some m =>
      if startswith indent m then Some m
      else if startswith m indent then Some indent
      else Some (common_prefix m indent)
  end.

Definition find_margin (lines : list string) : option string :=
  foldl update_margin None
        (leading_whitespace <$> List.filter (λ l, negb (is_empty l)) lines).

(** The final substitution that removes the margin, on one line. *)
Definition remove_margin (margin l : string) : string :=
  if startswith l margin then drop_chars (String.length margin) l else l.

Definition dedent (text : string) : string :=
  let lines := blank_line <$> split_lines text in
  match find_margin lines with
  | Some (String c m) => join nl (remove_margin (String c m) <$> lines)
  | _ => join nl lines
  end.

(** ** Positions in a text *)

(** [w] stands in [s] at offset [k]: [s[k:k+len(w)] == w]. *)
Definition occurs_at (w s : string) (k : nat) : bool :=
  startswith (drop_chars k s) w.

(** [s.find(w)], with [None] for [-1]. *)
Fixpoint find_from (w s : string) (k : nat) : option nat :=
  if startswith s w then Some k
  else match s with
       | EmptyString => None
       | String _ s' => find_from w s' (S k)
       end.

Definition str_find (s w : string) : option nat := find_from w s 0.

(** [w in s] *)
Definition contains (s w : string) : bool :=
  match str_find s w with Some _ => true | None => false end.

(** ** The table schema and the probe registry *)

(** One field of the schema that [bq show --schema --format=json] prints:
    [name] and [type] are always there, [fields] for a [RECORD]. *)
#[warnings="-register-all"]
Inductive SchemaField : Type :=
  mkField { f_name : string; f_type : string; f_fields : option (list SchemaField) }.

(** [field["fields"]] *)
Definition item_fields (field : SchemaField) : result (list SchemaField) :=
  match f_fields field with
  | Some l => Ok l
  | None => Raise (KeyError "fields")
  end.

(** [field.get("fields", [])] *)
Definition get_fields (field : SchemaField) : list SchemaField :=
  default [] (f_fields field).

(** The three buckets [get_scalar_probes] returns (a dict with the keys
    [scalars], [booleans] and [keyed]). *)
Record buckets (A : Type) : Type :=
  mkBuckets { scalars : A; booleans : A; keyed : A }.
Arguments mkBuckets {A} _ _ _.
Arguments scalars {A} _.
Arguments booleans {A} _.
Arguments keyed {A} _.

#[global] Instance buckets_eq_dec {A : Type} `{EqDecision A} : EqDecision (buckets A).
Proof. solve_decision. Defined.

(** The dict of SQL strings a composer returns, keyed by slot name. *)
Abbreviation sql_strings := (gmap string string).

(** [d[key]] *)
Definition item (d : sql_strings) (key : string) : result string :=
  match d !! key with
  | Some v => Ok v
  | None => Raise (KeyError key)
  end.

(** [d.get(key, dflt)] *)
Definition get (d : sql_strings) (key dflt : string) : string :=
  default dflt (d !! key).

(** [l] is a sequence in which a loop may receive the elements of the set
    [X]: each element once, in any order. *)
Definition iterates (X : gset string) (l : list string) : Prop :=
  NoDup l ∧ ∀ x, x ∈ l ↔ x ∈ X.

(** [x in (a, b, ...)] *)
Definition in_tuple (x : string) (l : list string) : bool :=
  existsb (String.eqb x) l.

(** ** sql/clients_daily_scalar_aggregates.sql.py *)

Module Scalar.

(** The lines of the template of [generate_sql] that stand before its first
    slot (source lines 34 to 83). *)
Definition template_head : list string :=
    [ "-- Query generated by: sql/clients_daily_scalar_aggregates.sql.py";
      "        CREATE TEMP FUNCTION";
      "          udf_aggregate_map_sum(maps ANY TYPE) AS (STRUCT(ARRAY(";
      "              SELECT";
      "                AS STRUCT key,";
      "                SUM(value) AS value";
      "              FROM";
      "                UNNEST(maps),";
      "                UNNEST(key_value)";
      "              GROUP BY";
      "        key) AS key_value));";
      EmptyString;
      "        CREATE TEMP FUNCTION";
      "          udf_aggregate_keyed_map_sum(maps ANY TYPE) AS (STRUCT(ARRAY(";
      "              SELECT";
      "                AS STRUCT key,";
      "                udf_aggregate_map_sum(ARRAY_AGG(value)) AS value";
      "              FROM";
      "                UNNEST(maps),";
      "                UNNEST(key_value)";
      "              GROUP BY";
      "        key) AS key_value));";
      EmptyString;
      "        WITH";
      "            -- normalize client_id and rank by document_id";
      "            numbered_duplicates AS (";
      "                SELECT";
      "                    ROW_NUMBER() OVER (";
      "                        PARTITION BY";
      "                            client_id,";
      "                            submission_date_s3,";
      "                            document_id";
      "                        ORDER BY `timestamp`";
      "                        ASC";
      "                    ) AS _n,";
      "                    * REPLACE(LOWER(client_id) AS client_id)";
      "                FROM main_summary_v4";
      "                WHERE submission_date_s3 = @submission_date";
      "                AND channel in (" +:+ dq +:+ "release" +:+ dq +:+ ", " +:+ dq +:+ "esr" +:+ dq +:+ ", " +:+ dq +:+ "beta" +:+ dq +:+ ", " +:+ dq +:+ "aurora" +:+ dq +:+ ", " +:+ dq +:+ "default" +:+ dq +:+ ", " +:+ dq +:+ "nightly" +:+ dq +:+ ")";
      "                AND client_id IS NOT NULL";
      "            ),";
      EmptyString;
      EmptyString;
      "            -- Deduplicating on document_id is necessary to get valid SUM values.";
      "            deduplicated AS (";
      "                SELECT * EXCEPT (_n)";
      "                FROM numbered_duplicates";
      "                WHERE _n = 1";
      "            ),";
      EmptyString ].

(** [generate_sql]: the template from its first slot on follows the head. *)
Definition generate_sql (opts aggregates additional_queries additional_partitions
                         select_clause querying_table : string) : string :=
  dedent
    (text_of_lines
       (template_head ++
    [ "            " +:+ additional_queries;
      EmptyString;
      "            -- Aggregate by client_id using windows";
      "            windowed AS (";
      "                SELECT";
      "                    ROW_NUMBER() OVER w1_unframed AS _n,";
      "                    submission_date_s3 as submission_date,";
      "                    client_id,";
      "                    os,";
      "                    SPLIT(app_version, '.')[OFFSET(0)] AS app_version,";
      "                    app_build_id,";
      "                    channel,";
      "                    " +:+ aggregates;
      "                FROM " +:+ querying_table;
      "                WINDOW";
      "                    -- Aggregations require a framed window";
      "                    w1 AS (";
      "                        PARTITION BY";
      "                            client_id,";
      "                            submission_date_s3,";
      "                            os,";
      "                            app_version,";
      "                            app_build_id,";
      "                            channel";
      "                            " +:+ additional_partitions;
      "                        ORDER BY `timestamp` ASC ROWS BETWEEN UNBOUNDED PRECEDING";
      "                        AND UNBOUNDED FOLLOWING";
      "                    ),";
      EmptyString;
      "                    -- ROW_NUMBER does not work on a framed window";
      "                    w1_unframed AS (";
      "                        PARTITION BY";
      "                            client_id,";
      "                            submission_date_s3,";
      "                            os,";
      "                            app_version,";
      "                            app_build_id,";
      "                            channel";
      "                            " +:+ additional_partitions;
      "                        ORDER BY `timestamp` ASC";
      "                    )";
      "            )";
      "            " +:+ select_clause;
      "        " ])).

(** The loop of [get_histogram_probes_sql_strings] that fills [probe_structs]. *)
Definition histogram_probe_structs (probes : list string) : list string :=
  foldl (λ probe_structs metric,
           probe_structs ++
           [ "('" +:+ metric +:+ "', 'summed-histogram', ARRAY_AGG(" +:+ metric +:+ ") OVER w1)" ])
        [] probes.

(** The separator of the fragments: a comma, a newline and three tabs. *)
Definition fragment_separator : string := "," +:+ nl +:+ tab +:+ tab +:+ tab.

Definition get_histogram_probes_sql_strings (probes : list string) (histogram_type : string)
  : sql_strings :=
  let probe_structs := histogram_probe_structs probes in
  let probes_arr := join fragment_separator probe_structs in
  let value_arr :=
    if String.eqb histogram_type "string-histogram" then
      "value ARRAY<STRUCT<key_value ARRAY<STRUCT<key STRING, value INT64>>>>"
    else if String.eqb histogram_type "keyed-histogram" then
      "value ARRAY<STRUCT<key_value ARRAY<STRUCT<key STRING, " +:+
      "value STRUCT<key_value ARRAY<STRUCT<key INT64, value INT64>>>>>>>"
    else "value ARRAY<STRUCT<key_value ARRAY<STRUCT<key INT64, value INT64>>>>" in
  let probes_string :=
    text_of_lines
      [ EmptyString;
        "            ARRAY<STRUCT<";
        "                metric STRING,";
        "                agg_type STRING,";
        "                " +:+ value_arr;
        "            >> [";
        "            " +:+ probes_arr;
        "        ] AS histogram_aggregates";
        "    " ] in
  let agg_function :=
    if String.eqb histogram_type "keyed-histogram"
    then "udf_aggregate_keyed_map_sum" else "udf_aggregate_map_sum" in
  let select_clause :=
    text_of_lines
      [ EmptyString;
        "        SELECT";
        "            * EXCEPT (_n) REPLACE (";
        "                ARRAY(";
        "                SELECT AS STRUCT";
        "                    * REPLACE (";
        "                        CASE";
        "                        WHEN agg_type = 'summed-histogram' THEN";
        "                            " +:+ agg_function +:+ "(value)";
        "                        ELSE";
        "                            error(CONCAT('Unhandled agg_type: ', agg_type))";
        "                        END AS value";
        "                    )";
        "                FROM";
        "                    UNNEST(histogram_aggregates)";
        "                ) AS histogram_aggregates";
        "            )";
        "        FROM";
        "            windowed";
        "        WHERE";
        "            _n = 1";
        "    " ] in
  {[ "probes_string" := probes_string; "select_clause" := select_clause ]}.

(** [x[i].get("type", None) == t] *)
Definition type_at_is (x : list SchemaField) (i : nat) (t : string) : result bool :=
  let! field := index x i in Ok (String.eqb (f_type field) t).

(** [get_histogram_type]: [None] is the result of falling off the end. *)
Definition get_histogram_type (keyval_fields : list SchemaField) : result (option string) :=
  let! c1 := and_then (length keyval_fields =? 2)
         (let! c := type_at_is keyval_fields 0 "INTEGER" in
          and_then c (type_at_is keyval_fields 1 "INTEGER")) in
  if c1 then Ok (Some "histogram") else
  let! c2 := and_then (length keyval_fields =? 2)
         (let! c := type_at_is keyval_fields 0 "STRING" in
          and_then c (type_at_is keyval_fields 1 "INTEGER")) in
  if c2 then Ok (Some "string-histogram") else
  let! c3 := and_then (length keyval_fields =? 2)
         (let! c := type_at_is keyval_fields 0 "STRING" in
          and_then c
            (let! c' := type_at_is keyval_fields 1 "RECORD" in
             and_then c'
               (let! value := index keyval_fields 1 in
                let! value_fields := item_fields value in
                let! inner := index value_fields 0 in
                let! inner_fields := item_fields inner in
                let! inner_key := index inner_fields 0 in
                Ok (String.eqb (f_type inner_key) "INTEGER")))) in
  if c3 then Ok (Some "keyed-histogram") else Ok None.

(** The name under which a histogram field is compared with the registry. *)
Definition histogram_field_name (name : string) : string :=
  replace (replace name "histogram_content_" EmptyString) "histogram_parent_" EmptyString.

(** [keyval_fields] of the loop of [get_histogram_probes]: the fields of the
    first subfield of [field], the empty list without one. *)
Definition keyval_fields_of (field : SchemaField) : list SchemaField :=
  let subfields := get_fields field in
  match subfields with
  | first :: _ => get_fields first
  | [] => []
  end.

(** The body of the loop [for field in main_summary_schema] of
    [get_histogram_probes], over the pair of [main_summary_histograms] and
    [main_summary_original_probes]. *)
Definition histogram_field_step (histogram_type : string)
    (st : gset string * gmap string string) (field : SchemaField)
  : result (gset string * gmap string string) :=
  if negb (startswith (f_name field) "histogram") then Ok st else
  let keyval_fields := keyval_fields_of field in
  let! t := get_histogram_type keyval_fields in
  if negb (bool_decide (t = Some histogram_type)) then Ok st else
  let field_name := histogram_field_name (f_name field) in
  Ok ({[ field_name ]} ∪ st.1, <[ field_name := f_name field ]> st.2).

(** The registry name of a histogram, as the schema spells it. *)
Definition histogram_probe_name (x : string) : string :=
  lower (replace (replace x "histogram/" EmptyString) "." "_").

Definition histogram_probes_of (data_keys : list string) : gset string :=
  list_to_set (histogram_probe_name <$>
               List.filter (λ x, startswith x "histogram/") data_keys).

(** [main_summary_original_probes[probe]] for every probe of a list (the
    list comprehension of the [return]; its result is made a set, so the
    order of the probes does not show). *)
Fixpoint original_names (main_summary_original_probes : gmap string string)
    (probes : list string) : result (list string) :=
  match probes with
  | [] => Ok []
  | probe :: rest =>
      match main_summary_original_probes !! probe with
      | Some original => let! names := original_names main_summary_original_probes rest in
                         Ok (original :: names)
      | None => Raise (KeyError probe)
      end
  end.

Definition get_histogram_probes (main_summary_schema : list SchemaField)
    (data_keys : list string) (histogram_type : string) : result (gset string) :=
  let! st := for_each (histogram_field_step histogram_type) main_summary_schema (∅, ∅) in
  let main_summary_histograms := st.1 in
  let main_summary_original_probes := st.2 in
  let histogram_probes := histogram_probes_of data_keys in
  let relevant_probes := histogram_probes ∩ main_summary_histograms in
  let! names := original_names main_summary_original_probes (elements relevant_probes) in
  Ok (list_to_set names).

(** The loop of [get_keyed_scalar_probes_sql_string] that fills
    [probes_struct]. *)
Definition keyed_scalar_probes_struct (probes : list string) : list string :=
  foldl (λ probes_struct probe,
           probes_struct ++ [ "('" +:+ probe +:+ "', " +:+ probe +:+ ")" ])
        [] probes.

Definition get_keyed_scalar_probes_sql_string (probes : list string) : sql_strings :=
  let probes_struct := keyed_scalar_probes_struct probes in
  let probes_arr := join fragment_separator probes_struct in
  let additional_queries :=
    text_of_lines
      [ EmptyString;
        "        grouped_metrics AS";
        "          (select";
        "            timestamp,";
        "            client_id,";
        "            submission_date_s3,";
        "            os,";
        "            app_version,";
        "            app_build_id,";
        "            channel,";
        "            ARRAY<STRUCT<";
        "                name STRING,";
        "                value STRUCT<key_value ARRAY<STRUCT<key STRING, value INT64>>>";
        "            >>[";
        "              " +:+ probes_arr;
        "            ] as metrics";
        "          FROM deduplicated),";
        EmptyString;
        "          flattened_metrics AS";
        "            (SELECT";
        "              timestamp,";
        "              client_id,";
        "              submission_date_s3,";
        "              os,";
        "              app_version,";
        "              app_build_id,";
        "              channel,";
        "              metrics.name AS metric,";
        "              value.key AS key,";
        "              value.value AS value";
        "            FROM grouped_metrics";
        "            CROSS JOIN unnest(metrics) AS metrics,";
        "            unnest(metrics.value.key_value) AS value),";
        "    " ] in
  let probes_string :=
    text_of_lines
      [ EmptyString;
        "                metric,";
        "                key,";
        "                MAX(value) OVER w1 as max,";
        "                MIN(value) OVER w1 as min,";
        "                AVG(value) OVER w1 as avg,";
        "                SUM(value) OVER w1 as sum";
        "    " ] in
  let select_clause :=
    text_of_lines
      [ EmptyString;
        "        select";
        "              client_id,";
        "              submission_date,";
        "              os,";
        "              app_version,";
        "              app_build_id,";
        "              channel,";
        "              ARRAY_CONCAT_AGG(";
        "                [(metric, key, 'max', max),";
        "                (metric, key, 'min', min),";
        "                (metric, key,  'avg', avg),";
        "                (metric, key, 'sum', sum)";
        "              ]) AS scalar_aggregates";
        "        from windowed";
        "        where _n = 1";
        "        group by 1,2,3,4,5,6";
        "    " ] in
  let querying_table := "flattened_metrics" in
  let additional_partitions :=
    text_of_lines
      [ ",";
        "                            metric,";
        "                            key";
        "    " ] in
  {[ "probes_string" := probes_string;
     "additional_queries" := additional_queries;
     "additional_partitions" := additional_partitions;
     "select_clause" := select_clause;
     "querying_table" := querying_table ]}.

(** The four fragments the first loop of [get_scalar_probes_sql_strings]
    appends for one probe. *)
Definition scalar_fragments (probe : string) : list string :=
  [ "('" +:+ probe +:+ "', 'max', max(CAST(" +:+ probe +:+ " AS INT64)) OVER w1, 0, 1000, 50)";
    "('" +:+ probe +:+ "', 'avg', avg(CAST(" +:+ probe +:+ " AS INT64)) OVER w1, 0, 1000, 50)";
    "('" +:+ probe +:+ "', 'min', min(CAST(" +:+ probe +:+ " AS INT64)) OVER w1, 0, 1000, 50)";
    "('" +:+ probe +:+ "', 'sum', sum(CAST(" +:+ probe +:+ " AS INT64)) OVER w1, 0, 1000, 50)" ].

(** The two fragments the second loop appends for one probe. *)
Definition boolean_fragments (probe : string) : list string :=
  [ "('" +:+ probe +:+ "', 'false', sum(case when " +:+ probe +:+ " = False " +:+
    "then 1 else 0 end) OVER w1, 0, 2, 2)";
    "('" +:+ probe +:+ "', 'true', sum(case when " +:+ probe +:+ " = True then 1 else 0 end) " +:+
    "OVER w1, 0, 2, 2)" ].

(** The two loops of [get_scalar_probes_sql_strings], one after the other
    on the same list [probe_structs]. *)
Definition scalar_probe_structs (probes : buckets (list string)) : list string :=
  let probe_structs :=
    foldl (λ probe_structs probe, probe_structs ++ scalar_fragments probe)
          [] (scalars probes) in
  foldl (λ probe_structs probe, probe_structs ++ boolean_fragments probe)
        probe_structs (booleans probes).

Definition get_scalar_probes_sql_strings (probes : buckets (list string)) (scalar_type : string)
  : sql_strings :=
  if String.eqb scalar_type "keyed-scalar"
  then get_keyed_scalar_probes_sql_string (keyed probes)
  else
    let probe_structs := scalar_probe_structs probes in
    let probes_arr := join fragment_separator probe_structs in
    let probes_string :=
      text_of_lines
        [ EmptyString;
          "            ARRAY<STRUCT<";
          "                metric STRING,";
          "                agg_type STRING,";
          "                value FLOAT64,";
          "                min_bucket INT64,";
          "                max_bucket INT64,";
          "                num_buckets INT64";
          "            >> [";
          "                " +:+ probes_arr;
          "            ] AS scalar_aggregates";
          "    " ] in
    let select_clause :=
      text_of_lines
        [ EmptyString;
          "        SELECT";
          "            * EXCEPT(_n)";
          "        FROM";
          "            windowed";
          "        WHERE";
          "            _n = 1";
          "    " ] in
    {[ "probes_string" := probes_string; "select_clause" := select_clause ]}.

(** The four sets the loop of [get_scalar_probes] fills. *)
Record scalar_sets : Type :=
  mkScalarSets {
    main_summary_scalars : gset string;
    main_summary_record_scalars : gset string;
    main_summary_boolean_record_scalars : gset string;
    main_summary_boolean_scalars : gset string }.

(** The body of the loop [for field in main_summary_schema] of
    [get_scalar_probes]. *)
Definition scalar_field_step (st : scalar_sets) (field : SchemaField) : result scalar_sets :=
  if startswith (f_name field) "scalar_parent" && String.eqb (f_type field) "INTEGER" then
    Ok (mkScalarSets ({[ f_name field ]} ∪ main_summary_scalars st)
                     (main_summary_record_scalars st)
                     (main_summary_boolean_record_scalars st)
                     (main_summary_boolean_scalars st))
  else if startswith (f_name field) "scalar_parent" && String.eqb (f_type field) "BOOLEAN" then
    Ok (mkScalarSets (main_summary_scalars st)
                     (main_summary_record_scalars st)
                     (main_summary_boolean_record_scalars st)
                     ({[ f_name field ]} ∪ main_summary_boolean_scalars st))
  else if startswith (f_name field) "scalar_parent" && String.eqb (f_type field) "RECORD" then
    let! key_value_fields := item_fields field in
    let! key_value := index key_value_fields 0 in
    let! pair := item_fields key_value in
    let! value := index pair 1 in
    if String.eqb (f_type value) "BOOLEAN" then
      Ok (mkScalarSets (main_summary_scalars st)
                       (main_summary_record_scalars st)
                       ({[ f_name field ]} ∪ main_summary_boolean_record_scalars st)
                       (main_summary_boolean_scalars st))
    else
      Ok (mkScalarSets (main_summary_scalars st)
                       ({[ f_name field ]} ∪ main_summary_record_scalars st)
                       (main_summary_boolean_record_scalars st)
                       (main_summary_boolean_scalars st))
  else Ok st.

(** The registry name of a scalar, as the schema spells it. *)
Definition scalar_probe_name (x : string) : string :=
  replace (replace x "scalar/" "scalar_parent_") "." "_".

Definition scalar_probes_of (data_keys : list string) : gset string :=
  list_to_set (scalar_probe_name <$>
               List.filter (λ x, startswith x "scalar/") data_keys).

Definition get_scalar_probes (main_summary_schema : list SchemaField)
    (data_keys : list string) : result (buckets (gset string)) :=
  let! st := for_each scalar_field_step main_summary_schema (mkScalarSets ∅ ∅ ∅ ∅) in
  let scalar_probes := scalar_probes_of data_keys in
  Ok (mkBuckets (scalar_probes ∩ main_summary_scalars st)
                (scalar_probes ∩ main_summary_boolean_scalars st)
                (scalar_probes ∩ main_summary_record_scalars st)).

(** The call [out(generate_sql(...))] of [main], on the dict of a composer. *)
Definition render (opts : string) (sql_string : sql_strings) : result string :=
  let! probes_string := item sql_string "probes_string" in
  let! select_clause := item sql_string "select_clause" in
  Ok (generate_sql opts
        probes_string
        (get sql_string "additional_queries" EmptyString)
        (get sql_string "additional_partitions" EmptyString)
        select_clause
        (get sql_string "querying_table" "deduplicated")).

(** [main]: [agg_type] is the value of [--agg-type]; [set_order] is the
    order in which this run iterates a set; the result is the text given to
    [out]. *)
Definition main (set_order : gset string → list string) (agg_type : string)
    (main_summary_schema : list SchemaField) (data_keys : list string) : result string :=
  let! sql_string :=
    (if in_tuple agg_type ["scalar"; "keyed-scalar"] then
       let! scalar_probes := get_scalar_probes main_summary_schema data_keys in
       Ok (get_scalar_probes_sql_strings
             (mkBuckets (set_order (scalars scalar_probes))
                        (set_order (booleans scalar_probes))
                        (set_order (keyed scalar_probes)))
             agg_type)
     else if in_tuple agg_type ["histogram"; "keyed-histogram"; "string-histogram"] then
       let! histogram_probes := get_histogram_probes main_summary_schema data_keys agg_type in
       Ok (get_histogram_probes_sql_strings (set_order histogram_probes) agg_type)
     else Raise (ValueError "agg-type must be one of scalar/histogram")) in
  render agg_type sql_string.

End Scalar.

(** ** sql/clients_daily_histogram_aggregates.sql.py *)

Module Histogram.

(** The two local strings of [generate_sql]. *)
Definition get_keyval_pairs : string :=
  text_of_lines
    [ EmptyString;
      "        CREATE TEMPORARY FUNCTION get_keyval_pairs(y STRING)";
      "        RETURNS ARRAY<STRING>";
      "        LANGUAGE js AS";
      "        '''";
      "          var z = new Array();";
      "          node = JSON.parse(y);";
      "          Object.keys(node).map(function(key) {";
      "            value = node[key].toString();";
      "            z.push(key + " +:+ dq +:+ ":" +:+ dq +:+ " + value);";
      "          });";
      "          return z";
      "        ''';";
      "    " ].

Definition string_to_arr : string :=
  text_of_lines
    [ EmptyString;
      "        -- convert a string like '[5, 6, 7]' to an array struct";
      "        CREATE TEMPORARY FUNCTION string_to_arr(y STRING)";
      "        RETURNS ARRAY<STRING>";
      "        LANGUAGE js AS";
      "        '''";
      "          return JSON.parse(y);";
      "        ''';";
      "    " ].

(** The lines of the template of [generate_sql] that stand before the slot
    [additional_queries] (source lines 53 to 130). *)
Definition template_head : list string :=
    [ "-- Query generated by: sql/clients_daily_histogram_aggregates.sql.py";
      "        " +:+ get_keyval_pairs;
      EmptyString;
      "        " +:+ string_to_arr;
      EmptyString;
      "        CREATE TEMP FUNCTION udf_get_bucket_range(histograms ARRAY<STRING>) AS ((";
      "          WITH buckets AS (";
      "            SELECT";
      "              string_to_arr(JSON_EXTRACT(histogram, " +:+ dq +:+ "$.range" +:+ dq +:+ ")) AS bucket_range,";
      "              CAST(JSON_EXTRACT(histogram, " +:+ dq +:+ "$.bucket_count" +:+ dq +:+ ") AS INT64) AS num_buckets";
      "            FROM UNNEST(histograms) AS histogram";
      "            WHERE histogram IS NOT NULL";
      "            LIMIT 1";
      "          )";
      EmptyString;
      "          SELECT AS STRUCT";
      "            CAST(bucket_range[OFFSET(0)] AS INT64) AS first_bucket,";
      "            CAST(bucket_range[OFFSET(1)] AS INT64) AS last_bucket,";
      "            num_buckets";
      "          FROM";
      "            buckets));";
      EmptyString;
      EmptyString;
      "        CREATE TEMP FUNCTION udf_get_histogram_type(histograms ARRAY<STRING>) AS ((";
      "            SELECT";
      "              CASE CAST(JSON_EXTRACT(histogram, " +:+ dq +:+ "$.histogram_type" +:+ dq +:+ ") AS INT64)";
      "                WHEN 0 THEN 'histogram-exponential'";
      "                WHEN 1 THEN 'histogram-linear'";
      "                WHEN 2 THEN 'histogram-boolean'";
      "                WHEN 3 THEN 'histogram-flag'";
      "                WHEN 4 THEN 'histogram-count'";
      "                WHEN 5 THEN 'histogram-categorical'";
      "              END AS histogram_type";
      "            FROM UNNEST(histograms) AS histogram";
      "            WHERE histogram IS NOT NULL";
      "            LIMIT 1";
      "        ));";
      EmptyString;
      "        CREATE TEMP FUNCTION";
      "          udf_aggregate_json_sum(histograms ARRAY<STRING>) AS (ARRAY(";
      "              SELECT";
      "                AS STRUCT SPLIT(keyval, ':')[OFFSET(0)] AS key,";
      "                SUM(CAST(SPLIT(keyval, ':')[OFFSET(1)] AS INT64)) AS value";
      "              FROM";
      "                UNNEST(histograms) AS histogram,";
      "                UNNEST(get_keyval_pairs(JSON_EXTRACT(histogram, " +:+ dq +:+ "$.values" +:+ dq +:+ "))) AS keyval";
      "              WHERE histogram IS NOT NULL";
      "              GROUP BY key));";
      EmptyString;
      "        WITH";
      "          -- normalize client_id and rank by document_id";
      "          numbered_duplicates AS (";
      "            SELECT";
      "                ROW_NUMBER() OVER (";
      "                    PARTITION BY";
      "                        client_id,";
      "                        submission_timestamp,";
      "                        document_id";
      "                    ORDER BY submission_timestamp";
      "                    ASC";
      "                ) AS _n,";
      "                * REPLACE(LOWER(client_id) AS client_id)";
      "            FROM `moz-fx-data-shar-nonprod-efed.telemetry_live.main_v4`";
      "            WHERE DATE(submission_timestamp) = '2019-07-17'";
      "            AND application.channel in (";
      "                " +:+ dq +:+ "release" +:+ dq +:+ ", " +:+ dq +:+ "esr" +:+ dq +:+ ", " +:+ dq +:+ "beta" +:+ dq +:+ ", " +:+ dq +:+ "aurora" +:+ dq +:+ ", " +:+ dq +:+ "default" +:+ dq +:+ ", " +:+ dq +:+ "nightly" +:+ dq;
      "            )";
      "            AND client_id IS NOT NULL";
      "          ),";
      EmptyString;
      EmptyString;
      "        -- Deduplicating on document_id is necessary to get valid SUM values.";
      "        deduplicated AS (";
      "            SELECT * EXCEPT (_n)";
      "            FROM numbered_duplicates";
      "            WHERE _n = 1";
      "        ),";
      EmptyString ].

(** [generate_sql]: the template from the slot [additional_queries] on
    follows the head. *)
Definition generate_sql (opts additional_queries windowed_clause select_clause : string)
  : string :=
  dedent
    (text_of_lines
       (template_head ++
        [ "        " +:+ additional_queries;
          EmptyString;
          "        -- Aggregate by client_id using windows";
          "        windowed AS (";
          "            " +:+ windowed_clause;
          "        )";
          "        " +:+ select_clause;
          "        " ])).

(** [for probe in probes]: the value is [None] or a set, given in the order
    of its iteration. *)
Definition iterate (probes : option (list string)) : result (list string) :=
  match probes with
  | Some l => Ok l
  | None => Raise (TypeError "'NoneType' object is not iterable")
  end.

(** The separator of the fragments: a comma, a newline and three tabs. *)
Definition fragment_separator : string := "," +:+ nl +:+ tab +:+ tab +:+ tab.

(** The loop of [_get_keyed_histogram_sql] that fills [probes_struct]. *)
Definition keyed_histogram_probes_struct (probes : list string) : list string :=
  foldl (λ probes_struct probe,
           probes_struct ++
           [ "('" +:+ probe +:+ "', payload.keyed_histograms." +:+ probe +:+ ")" ])
        [] probes.

Definition _get_keyed_histogram_sql (probes : option (list string)) : result sql_strings :=
  let! probes := iterate probes in
  let probes_struct := keyed_histogram_probes_struct probes in
  let probes_arr := join fragment_separator probes_struct in
  let probes_string :=
    text_of_lines
      [ EmptyString;
        "        metric,";
        "        key,";
        "        ARRAY_AGG(value) OVER w1 as bucket_range,";
        "        ARRAY_AGG(value) OVER w1 as value";
        "    " ] in
  let additional_queries :=
    text_of_lines
      [ EmptyString;
        "        grouped_metrics AS";
        "          (select";
        "            submission_timestamp,";
        "            DATE(submission_timestamp) as submission_date,";
        "            client_id,";
        "            normalized_os as os,";
        "            SPLIT(application.version, '.')[OFFSET(0)] AS app_version,";
        "            application.build_id AS app_build_id,";
        "            normalized_channel AS channel,";
        "            ARRAY<STRUCT<";
        "                name STRING,";
        "                value ARRAY<STRUCT<key STRING, value STRING>>";
        "            >>[";
        "              " +:+ probes_arr;
        "            ] as metrics";
        "          FROM deduplicated),";
        EmptyString;
        "          flattened_metrics AS";
        "            (SELECT";
        "              submission_timestamp,";
        "              submission_date,";
        "              client_id,";
        "              os,";
        "              app_version,";
        "              app_build_id,";
        "              channel,";
        "              metrics.name AS metric,";
        "              value.key AS key,";
        "              value.value AS value";
        "            FROM grouped_metrics";
        "            CROSS JOIN UNNEST(metrics) AS metrics";
        "            CROSS JOIN unnest(metrics.value) AS value),";
        "    " ] in
  let windowed_clause :=
    text_of_lines
      [ EmptyString;
        "        SELECT";
        "            ROW_NUMBER() OVER w1_unframed AS _n,";
        "            submission_date,";
        "            client_id,";
        "            os,";
        "            app_version,";
        "            app_build_id,";
        "            channel,";
        "            " +:+ probes_string;
        "            FROM flattened_metrics";
        "            WINDOW";
        "                -- Aggregations require a framed window";
        "                w1 AS (";
        "                    PARTITION BY";
        "                        client_id,";
        "                        submission_date,";
        "                        os,";
        "                        app_version,";
        "                        app_build_id,";
        "                        channel,";
        "                        metric,";
        "                        key";
        "                    ORDER BY `submission_timestamp` ASC ROWS BETWEEN UNBOUNDED PRECEDING";
        "                    AND UNBOUNDED FOLLOWING";
        "                ),";
        EmptyString;
        "                -- ROW_NUMBER does not work on a framed window";
        "                w1_unframed AS (";
        "                    PARTITION BY";
        "                        client_id,";
        "                        submission_date,";
        "                        os,";
        "                        app_version,";
        "                        app_build_id,";
        "                        channel,";
        "                        metric,";
        "                        key";
        "                    ORDER BY `submission_timestamp` ASC)";
        "    " ] in
  let select_clause :=
    text_of_lines
      [ EmptyString;
        "        select";
        "            client_id,";
        "            submission_date,";
        "            os,";
        "            app_version,";
        "            app_build_id,";
        "            channel,";
        "            ARRAY_AGG(STRUCT<";
        "                metric STRING,";
        "                metric_type STRING,";
        "                key STRING,";
        "                agg_type STRING,";
        "                bucket_range STRUCT<";
        "                    first_bucket INT64,";
        "                    last_bucket INT64,";
        "                    num_buckets INT64";
        "                >,";
        "                value ARRAY<STRUCT<key STRING, value INT64>>";
        "            >(";
        "                metric,";
        "                udf_get_histogram_type(bucket_range),";
        "                key,";
        "                '',";
        "                udf_get_bucket_range(bucket_range),";
        "                udf_aggregate_json_sum(value)";
        "            )) AS histogram_aggregates";
        "        from windowed";
        "        where _n = 1";
        "        group by 1,2,3,4,5,6";
        "    " ] in
  Ok {[ "additional_queries" := additional_queries;
        "select_clause" := select_clause;
        "windowed_clause" := windowed_clause ]}.

(** The loop of [get_histogram_probes_sql_strings] that fills [probe_structs]. *)
Definition histogram_probe_structs (probes : list string) : list string :=
  foldl (λ probe_structs metric,
           probe_structs ++
           [ "('" +:+ metric +:+ "', " +:+
             "'histogram', '', " +:+
             "'summed-histogram', " +:+
             "ARRAY_AGG(payload.histograms." +:+ metric +:+ ") OVER w1, " +:+
             "ARRAY_AGG(payload.histograms." +:+ metric +:+ ") OVER w1)" ])
        [] probes.

Definition get_histogram_probes_sql_strings (probes : option (list string))
    (histogram_type : string) : result sql_strings :=
  if String.eqb histogram_type "keyed_histograms" then _get_keyed_histogram_sql probes else
  let! probes := iterate probes in
  let probe_structs := histogram_probe_structs probes in
  let probes_arr := join fragment_separator probe_structs in
  let probes_string :=
    text_of_lines
      [ EmptyString;
        "            ARRAY<STRUCT<";
        "                metric STRING,";
        "                metric_type STRING,";
        "                key STRING,";
        "                agg_type STRING,";
        "                bucket_range ARRAY<STRING>,";
        "                value ARRAY<STRING>";
        "            >> [";
        "            " +:+ probes_arr;
        "        ] AS histogram_aggregates";
        "    " ] in
  let select_clause :=
    text_of_lines
      [ EmptyString;
        "        SELECT";
        "            * EXCEPT (_n) REPLACE (";
        "                ARRAY(";
        "                SELECT AS STRUCT";
        "                    * REPLACE (";
        "                      udf_aggregate_json_sum(value) AS value,";
        "                      udf_get_bucket_range(bucket_range) AS bucket_range,";
        "                      udf_get_histogram_type(bucket_range) AS metric_type";
        "                    )";
        "                FROM";
        "                    UNNEST(histogram_aggregates)";
        "                ) AS histogram_aggregates";
        "            )";
        "        FROM";
        "            windowed";
        "        WHERE";
        "            _n = 1";
        "    " ] in
  let windowed_clause :=
    text_of_lines
      [ EmptyString;
        "        SELECT";
        "            ROW_NUMBER() OVER w1_unframed AS _n,";
        "            DATE(submission_timestamp) as submission_date,";
        "            client_id,";
        "            normalized_os as os,";
        "            SPLIT(application.version, '.')[OFFSET(0)] AS app_version,";
        "            application.build_id AS app_build_id,";
        "            normalized_channel AS channel,";
        "                " +:+ probes_string;
        "            FROM deduplicated";
        "            WINDOW";
        "                -- Aggregations require a framed window";
        "                w1 AS (";
        "                    PARTITION BY";
        "                        client_id,";
        "                        DATE(submission_timestamp),";
        "                        normalized_os,";
        "                        SPLIT(application.version, '.')[OFFSET(0)],";
        "                        application.build_id,";
        "                        normalized_channel";
        "                    ORDER BY `submission_timestamp` ASC ROWS BETWEEN UNBOUNDED PRECEDING";
        "                    AND UNBOUNDED FOLLOWING";
        "                ),";
        EmptyString;
        "                -- ROW_NUMBER does not work on a framed window";
        "                w1_unframed AS (";
        "                    PARTITION BY";
        "                        client_id,";
        "                        DATE(submission_timestamp),";
        "                        normalized_os,";
        "                        SPLIT(application.version, '.')[OFFSET(0)],";
        "                        application.build_id,";
        "                        normalized_channel";
        "                    ORDER BY `submission_timestamp` ASC";
        "                )";
        "    " ] in
  Ok {[ "select_clause" := select_clause; "windowed_clause" := windowed_clause ]}.

(** The inner loop [for payload_field in field["fields"]], left at the
    first field named [histogram_type]. *)
Fixpoint find_payload_field (histogram_type : string) (payload_fields : list SchemaField)
    (histograms_field : option SchemaField) : option SchemaField :=
  match payload_fields with
  | [] => histograms_field
  | payload_field :: rest =>
      if String.eqb (f_name payload_field) histogram_type then Some payload_field
      else find_payload_field histogram_type rest histograms_field
  end.

(** The body of the loop [for field in main_summary_schema]. *)
Definition payload_step (histogram_type : string) (histograms_field : option SchemaField)
    (field : SchemaField) : result (option SchemaField) :=
  if negb (String.eqb (f_name field) "payload") then Ok histograms_field else
  let! payload_fields := item_fields field in
  Ok (find_payload_field histogram_type payload_fields histograms_field).

(** The registry name of a histogram, as the schema spells it. *)
Definition histogram_probe_name (x : string) : string :=
  lower (replace (replace x "histogram/" EmptyString) "." "_").

Definition histogram_probes_of (data_keys : list string) : gset string :=
  list_to_set (histogram_probe_name <$>
               List.filter (λ x, startswith x "histogram/") data_keys).

(** [get_histogram_probes]: the result [None] is the value of the bare
    [return]. *)
Definition get_histogram_probes (main_summary_schema : list SchemaField)
    (data_keys : list string) (histogram_type : string) : result (option (gset string)) :=
  let! histograms_field := for_each (payload_step histogram_type) main_summary_schema None in
  match histograms_field with
  | None => Ok None
  | Some histograms_field =>
      let main_summary_histograms : gset string :=
        foldl (λ acc histogram, {[ f_name histogram ]} ∪ acc) ∅ (get_fields histograms_field) in
      let histogram_probes := histogram_probes_of data_keys in
      let relevant_probes := histogram_probes ∩ main_summary_histograms in
      Ok (Some relevant_probes)
  end.

(** The call [out(generate_sql(...))] of [main], on the dict of a composer. *)
Definition render (opts : string) (sql_string : sql_strings) : result string :=
  let! windowed_clause := item sql_string "windowed_clause" in
  let! select_clause := item sql_string "select_clause" in
  Ok (generate_sql opts
        (get sql_string "additional_queries" EmptyString)
        windowed_clause
        select_clause).

(** [main]: [agg_type] is the value of [--agg-type]; [set_order] is the
    order in which this run iterates a set; the result is the text given to
    [out]. *)
Definition main (set_order : gset string → list string) (agg_type : string)
    (main_summary_schema : list SchemaField) (data_keys : list string) : result string :=
  let! sql_string :=
    (if in_tuple agg_type ["histograms"; "keyed_histograms"] then
       let! histogram_probes := get_histogram_probes main_summary_schema data_keys agg_type in
       get_histogram_probes_sql_strings (set_order <$> histogram_probes) agg_type
     else Raise (ValueError "agg-type must be one of histograms, keyed_histograms")) in
  render agg_type sql_string.

End Histogram.

(** ** Vocabulary of the statements *)

(** The lines [dedent] works on, for a text given line by line: every line
    of blanks emptied. *)
Definition dedented_lines (ls : list string) : list string :=
  blank_line <$> concat (split_lines <$> ls).

(** No occurrence of [w] starts in [s] before offset [limit], whatever
    follows [s]: neither inside [s] nor running over its end. *)
Definition clear_before (w s : string) (limit : nat) : bool :=
  forallb (λ k, negb (startswith (drop_chars k s) w) && negb (startswith w (drop_chars k s)))
          (seq 0 limit).

(** The text of the head of each template, as [dedent] leaves it. *)
Definition scalar_head_text : string := join nl (dedented_lines Scalar.template_head).
Definition histogram_head_text : string := join nl (dedented_lines Histogram.template_head).

(** The deduplication clause of the scalar generator as it stands in a
    query: the rows are numbered within each (client, date, document) group
    in order of arrival, and the first of each group is kept. *)
Definition scalar_dedup_clause : string :=
  text_of_lines
    [ "            numbered_duplicates AS (";
      "                SELECT";
      "                    ROW_NUMBER() OVER (";
      "                        PARTITION BY";
      "                            client_id,";
      "                            submission_date_s3,";
      "                            document_id";
      "                        ORDER BY `timestamp`";
      "                        ASC";
      "                    ) AS _n,";
      "                    * REPLACE(LOWER(client_id) AS client_id)";
      "                FROM main_summary_v4";
      "                WHERE submission_date_s3 = @submission_date";
      "                AND channel in (" +:+ dq +:+ "release" +:+ dq +:+ ", " +:+ dq +:+ "esr" +:+ dq +:+ ", " +:+ dq +:+ "beta" +:+ dq +:+ ", " +:+ dq +:+ "aurora" +:+ dq +:+ ", " +:+ dq +:+ "default" +:+ dq +:+ ", " +:+ dq +:+ "nightly" +:+ dq +:+ ")";
      "                AND client_id IS NOT NULL";
      "            ),";
      EmptyString;
      EmptyString;
      "            -- Deduplicating on document_id is necessary to get valid SUM values.";
      "            deduplicated AS (";
      "                SELECT * EXCEPT (_n)";
      "                FROM numbered_duplicates";
      "                WHERE _n = 1";
      "            )," ].

(** The deduplication clause of the histogram generator. *)
Definition histogram_dedup_clause : string :=
  text_of_lines
    [ "          numbered_duplicates AS (";
      "            SELECT";
      "                ROW_NUMBER() OVER (";
      "                    PARTITION BY";
      "                        client_id,";
      "                        submission_timestamp,";
      "                        document_id";
      "                    ORDER BY submission_timestamp";
      "                    ASC";
      "                ) AS _n,";
      "                * REPLACE(LOWER(client_id) AS client_id)";
      "            FROM `moz-fx-data-shar-nonprod-efed.telemetry_live.main_v4`";
      "            WHERE DATE(submission_timestamp) = '2019-07-17'";
      "            AND application.channel in (";
      "                " +:+ dq +:+ "release" +:+ dq +:+ ", " +:+ dq +:+ "esr" +:+ dq +:+ ", " +:+ dq +:+ "beta" +:+ dq +:+ ", " +:+ dq +:+ "aurora" +:+ dq +:+ ", " +:+ dq +:+ "default" +:+ dq +:+ ", " +:+ dq +:+ "nightly" +:+ dq;
      "            )";
      "            AND client_id IS NOT NULL";
      "          ),";
      EmptyString;
      EmptyString;
      "        -- Deduplicating on document_id is necessary to get valid SUM values.";
      "        deduplicated AS (";
      "            SELECT * EXCEPT (_n)";
      "            FROM numbered_duplicates";
      "            WHERE _n = 1";
      "        )," ].

(** How the text of a windowed aggregation starts or is named: the header of
    the [windowed] table expression, an aggregate over the window [w1] (or
    the row number over [w1_unframed]), and the [WINDOW] clause. *)
Definition windowed_markers : list string :=
  [ "windowed AS ("; "OVER w1"; "WINDOW" ].

(** The deduplication clause stands in [out], and every windowed-aggregation
    text of [out] starts after its end. *)
Definition dedup_first (dedup_clause out : string) : Prop :=
  ∃ i, occurs_at dedup_clause out i = true ∧
       ∀ w k, w ∈ windowed_markers → occurs_at w out k = true →
              i + String.length dedup_clause ≤ k.

(** The check of [dedup_first] on the head of a text: the clause stands in
    [head], and no windowed-aggregation text starts before the clause's end,
    whatever follows [head]. *)
Definition dedup_clause_leads (dedup_clause head : string) : bool :=
  match str_find head dedup_clause with
  | Some i =>
      (i + String.length dedup_clause <=? String.length head)
      && forallb (λ w, clear_before w head (i + String.length dedup_clause))
                 windowed_markers
  | None => false
  end.

(** The row filters on the date of the two generators. *)
Definition histogram_date_filter : string :=
  "WHERE DATE(submission_timestamp) = '2019-07-17'".
Definition scalar_date_filter : string :=
  "WHERE submission_date_s3 = @submission_date".

(** The query [main] prints for a probe set and a selector, by the path
    [main] takes: the composer's dict rendered by the template. *)
Definition scalar_query (probes : buckets (list string)) (agg_type : string) : result string :=
  Scalar.render agg_type (Scalar.get_scalar_probes_sql_strings probes agg_type).

Definition scalar_histogram_query (probes : list string) (agg_type : string) : result string :=
  Scalar.render agg_type (Scalar.get_histogram_probes_sql_strings probes agg_type).

Definition histogram_query (probes : option (list string)) (agg_type : string) : result string :=
  let! sql_string := Histogram.get_histogram_probes_sql_strings probes agg_type in
  Histogram.render agg_type sql_string.

(** What holds of every text the templates produce. *)
Definition dedup_then_windowed (dedup_clause out : string) : Prop :=
  dedup_first dedup_clause out ∧ ∃ k, occurs_at "windowed AS (" out k = true.

(** Space, tab and newline. *)
Definition is_space (c : ascii) : bool := is_blank c || Ascii.eqb c nl_char.

Fixpoint skip_spaces (s : string) : string :=
  match s with
  | EmptyString => EmptyString
  | String c s' => if is_space c then skip_spaces s' else s
  end.

(** An array literal with no element, named [alias]: an opening bracket,
    nothing but spaces, the closing bracket, and [alias]. *)
Fixpoint empty_array_literal (alias s : string) : bool :=
  match s with
  | EmptyString => false
  | String c s' =>
      (Ascii.eqb c "[" && startswith (skip_spaces s') ("]" +:+ alias))
      || empty_array_literal alias s'
  end.

(** The final selection of a query, in the two spellings of the composers:
    the rows of [windowed] whose row number is one. *)
Definition final_selections : list string :=
  [ text_of_lines [ "FROM"; "            windowed"; "        WHERE"; "            _n = 1" ];
    text_of_lines [ "from windowed"; "        where _n = 1" ] ].

(** The clauses of a complete query stand in [out] in their order (the
    deduplication, then the windowed aggregation, then the final selection),
    and the array of per-probe structs named [alias] is the empty array. *)
Definition complete_with_empty_array (dedup_clause alias out : string) : bool :=
  match str_find out dedup_clause, str_find out "windowed AS (" with
  | Some i, Some j =>
      (i + String.length dedup_clause <=? j)
      && existsb (λ f, match str_find out f with Some k => j <? k | None => false end)
                 final_selections
      && empty_array_literal alias out
  | _, _ => false
  end.

(** The normalization rule in the words of the specification: strip the
    known prefix, replace every dot by an underscore, lower the case. *)
Definition dots_to_underscores (s : string) : string :=
  map_chars (λ c, if Ascii.eqb c "." then "_"%char else c) s.

Definition strip_prefix (prefix s : string) : string :=
  if startswith s prefix then drop_chars (String.length prefix) s else s.

Definition spec_normalize (prefix x : string) : string :=
  lower (dots_to_underscores (strip_prefix prefix x)).

(** ** Vocabulary of the classification *)

(** The name [n] is the normalized form of a key of the registry that has
    the prefix of its metric type. *)
Definition registered (prefix : string) (normalize : string → string)
    (data_keys : list string) (n : string) : Prop :=
  ∃ x, x ∈ data_keys ∧ startswith x prefix = true ∧ normalize x = n.

(** The shapes the loop of [Scalar.get_scalar_probes] tells apart. *)
Definition is_scalar_field (f : SchemaField) : Prop :=
  startswith (f_name f) "scalar_parent" = true ∧ f_type f = "INTEGER".

Definition is_boolean_field (f : SchemaField) : Prop :=
  startswith (f_name f) "scalar_parent" = true ∧ f_type f = "BOOLEAN".

(** A record whose first subfield is a record with a second field (the
    value of the key-value pair) that is no boolean. *)
Definition is_keyed_scalar_field (f : SchemaField) : Prop :=
  startswith (f_name f) "scalar_parent" = true ∧ f_type f = "RECORD" ∧
  ∃ key_value rest pair value,
    f_fields f = Some (key_value :: rest) ∧ f_fields key_value = Some pair ∧
    pair !! 1 = Some value ∧ f_type value ≠ "BOOLEAN".

(** A field of the scalar dataset's schema whose name starts with
    [histogram] and whose key-value shape is that of [histogram_type]. *)
Definition is_histogram_field (histogram_type : string) (f : SchemaField) : Prop :=
  startswith (f_name f) "histogram" = true ∧
  Scalar.get_histogram_type (Scalar.keyval_fields_of f) = Ok (Some histogram_type).

(** A field named [n] under the group [histogram_type] of a [payload] field
    of the histogram dataset's schema. *)
Definition is_payload_histogram (schema : list SchemaField) (histogram_type n : string) : Prop :=
  ∃ payload payload_fields group histogram,
    payload ∈ schema ∧ f_name payload = "payload" ∧
    f_fields payload = Some payload_fields ∧
    group ∈ payload_fields ∧ f_name group = histogram_type ∧
    histogram ∈ get_fields group ∧ f_name histogram = n.

(** The field named [n] that [schema] holds has the shape [shape]. *)
Definition has_field (schema : list SchemaField) (shape : SchemaField → Prop) (n : string) : Prop :=
  ∃ f, f ∈ schema ∧ f_name f = n ∧ shape f.

(** What the four sets of the loop hold, at every turn. *)
Definition scalar_sets_sound (schema : list SchemaField) (st : Scalar.scalar_sets) : Prop :=
  (∀ n, n ∈ Scalar.main_summary_scalars st → has_field schema is_scalar_field n) ∧
  (∀ n, n ∈ Scalar.main_summary_boolean_scalars st → has_field schema is_boolean_field n) ∧
  (∀ n, n ∈ Scalar.main_summary_record_scalars st → has_field schema is_keyed_scalar_field n).

(** What the set and the dict of the loop of [Scalar.get_histogram_probes]
    hold, at every turn: the dict maps each name of the set to a field of
    that normalized name, of the wanted shape. *)
Definition histogram_state_sound (schema : list SchemaField) (histogram_type : string)
    (st : gset string * gmap string string) : Prop :=
  (∀ k, k ∈ st.1 → is_Some (st.2 !! k)) ∧
  (∀ k v, st.2 !! k = Some v →
          Scalar.histogram_field_name v = k ∧
          has_field schema (is_histogram_field histogram_type) v).

(** The loop of [Histogram.get_histogram_probes] ends on a group of a
    payload field, if on any. *)
Definition payload_state_sound (schema : list SchemaField) (histogram_type : string)
    (histograms_field : option SchemaField) : Prop :=
  ∀ group, histograms_field = Some group →
    ∃ payload payload_fields,
      payload ∈ schema ∧ f_name payload = "payload" ∧
      f_fields payload = Some payload_fields ∧
      group ∈ payload_fields ∧ f_name group = histogram_type.

(** ** The scenario of the scalar [telemetry.test] *)

Definition scenario_name : string := "scalar_parent_telemetry_test".
Definition scenario_key : string := "scalar/telemetry.test".
Definition scenario_field : SchemaField := mkField scenario_name "INTEGER" None.

(** The window [w1] of a scalar query, as it stands in the text: the
    partition by client, date, OS, application version, build id and
    channel (the line after [channel] is the empty slot of the additional
    partitions). *)
Definition scalar_window_w1 : string :=
  text_of_lines
    [ "w1 AS (";
      "                        PARTITION BY";
      "                            client_id,";
      "                            submission_date_s3,";
      "                            os,";
      "                            app_version,";
      "                            app_build_id,";
      "                            channel";
      EmptyString;
      "                        ORDER BY `timestamp` ASC ROWS BETWEEN UNBOUNDED PRECEDING";
      "                        AND UNBOUNDED FOLLOWING";
      "                    )," ].

(** The four fragments of the scenario. *)
Definition scenario_fragments : list string :=
  [ "('scalar_parent_telemetry_test', 'max', max(CAST(scalar_parent_telemetry_test AS INT64)) OVER w1, 0, 1000, 50)";
    "('scalar_parent_telemetry_test', 'avg', avg(CAST(scalar_parent_telemetry_test AS INT64)) OVER w1, 0, 1000, 50)";
    "('scalar_parent_telemetry_test', 'min', min(CAST(scalar_parent_telemetry_test AS INT64)) OVER w1, 0, 1000, 50)";
    "('scalar_parent_telemetry_test', 'sum', sum(CAST(scalar_parent_telemetry_test AS INT64)) OVER w1, 0, 1000, 50)" ].

(** A schema and a registry with one probe of each generator's paths. *)
Definition sample_schema : list SchemaField :=
  [ scenario_field;
    mkField "histogram_parent_gc_ms" "RECORD"
      (Some [ mkField "key_value" "RECORD"
                (Some [ mkField "key" "INTEGER" None; mkField "value" "INTEGER" None ]) ]);
    mkField "payload" "RECORD"
      (Some [ mkField "histograms" "RECORD" (Some [ mkField "gc_ms" "STRING" None ]) ]) ].

Definition sample_keys : list string := [ scenario_key; "histogram/GC_MS" ].

(** ** Sample inputs of the statements on defects and corrections *)

(** The key-value shape of a plain histogram. *)
Definition plain_histogram_fields : option (list SchemaField) :=
  Some [ mkField "key_value" "RECORD"
           (Some [ mkField "key" "INTEGER" None; mkField "value" "INTEGER" None ]) ].

(** Two fields of the scalar dataset whose names differ by the process
    prefix only. *)
Definition content_foo : SchemaField :=
  mkField "histogram_content_foo" "RECORD" plain_histogram_fields.
Definition parent_foo : SchemaField :=
  mkField "histogram_parent_foo" "RECORD" plain_histogram_fields.
Definition collision_schema : list SchemaField := [ content_foo; parent_foo ].

(** A map from strings to structs of one integer: a pair of a [STRING] key
    and a [RECORD] value whose first field has no fields of its own. *)
Definition string_to_struct_pair : list SchemaField :=
  [ mkField "key" "STRING" None;
    mkField "value" "RECORD" (Some [ mkField "sum" "INTEGER" None ]) ].

(** A schema of the scalar dataset with a histogram-named field of that shape. *)
Definition struct_map_schema : list SchemaField :=
  [ mkField "client_id" "STRING" None;
    mkField "histogram_parent_sums" "RECORD"
      (Some [ mkField "key_value" "RECORD" (Some string_to_struct_pair) ]) ].

(** A schema of the histogram dataset whose payload has the group
    [histograms] and no group [keyed_histograms]. *)
Definition no_keyed_group_schema : list SchemaField :=
  [ mkField "client_id" "STRING" None;
    mkField "payload" "RECORD"
      (Some [ mkField "histograms" "RECORD" (Some [ mkField "gc_ms" "STRING" None ]) ]) ].

(** ** Vocabulary of the further properties *)

(** [field["fields"][0]["fields"][1]], the value of the key-value pair that
    the loop of [Scalar.get_scalar_probes] reads in a record. *)
Definition keyed_value (field : SchemaField) : result SchemaField :=
  let! key_value_fields := item_fields field in
  let! key_value := index key_value_fields 0 in
  let! pair := item_fields key_value in
  index pair 1.

(** A field the loop of [Scalar.get_scalar_probes] takes for a keyed
    scalar: named as a scalar, of type [RECORD]. *)
Definition is_scalar_record (f : SchemaField) : Prop :=
  startswith (f_name f) "scalar_parent" = true ∧ f_type f = "RECORD".

(** A keyed scalar whose values are booleans. *)
Definition is_keyed_boolean_field (f : SchemaField) : Prop :=
  is_scalar_record f ∧ ∃ value, keyed_value f = Ok value ∧ f_type value = "BOOLEAN".

(** The exceptions of reading nested fields. *)
Definition is_lookup_error (e : exn) : Prop :=
  e = KeyError "fields" ∨ e = IndexError.

(** The first element of [l] on which [body] raises, with its exception:
    the elements before it are passed. *)
Definition first_raise {A : Type} (fails : A → exn → Prop) (passes : A → Prop)
    (l : list A) (e : exn) : Prop :=
  ∃ before x after, l = before ++ x :: after ∧ Forall passes before ∧ fails x e.

(** The six ways through the body of the loop. *)
Inductive scalar_step_case (st : Scalar.scalar_sets) (f : SchemaField)
  : result Scalar.scalar_sets → Prop :=
| step_integer :
    is_scalar_field f →
    scalar_step_case st f
      (Ok (Scalar.mkScalarSets ({[ f_name f ]} ∪ Scalar.main_summary_scalars st)
             (Scalar.main_summary_record_scalars st)
             (Scalar.main_summary_boolean_record_scalars st)
             (Scalar.main_summary_boolean_scalars st)))
| step_boolean :
    is_boolean_field f →
    scalar_step_case st f
      (Ok (Scalar.mkScalarSets (Scalar.main_summary_scalars st)
             (Scalar.main_summary_record_scalars st)
             (Scalar.main_summary_boolean_record_scalars st)
             ({[ f_name f ]} ∪ Scalar.main_summary_boolean_scalars st)))
| step_keyed_boolean :
    is_keyed_boolean_field f →
    scalar_step_case st f
      (Ok (Scalar.mkScalarSets (Scalar.main_summary_scalars st)
             (Scalar.main_summary_record_scalars st)
             ({[ f_name f ]} ∪ Scalar.main_summary_boolean_record_scalars st)
             (Scalar.main_summary_boolean_scalars st)))
| step_keyed :
    is_keyed_scalar_field f →
    scalar_step_case st f
      (Ok (Scalar.mkScalarSets (Scalar.main_summary_scalars st)
             ({[ f_name f ]} ∪ Scalar.main_summary_record_scalars st)
             (Scalar.main_summary_boolean_record_scalars st)
             (Scalar.main_summary_boolean_scalars st)))
| step_raise e :
    is_scalar_record f → keyed_value f = Raise e →
    scalar_step_case st f (Raise e)
| step_skip :
    ¬ is_scalar_field f → ¬ is_boolean_field f → ¬ is_scalar_record f →
    scalar_step_case st f (Ok st).


(** A record of the scalar loop passes when its nested value can be read;
    it fails with the error of the lookup. *)
Definition scalar_record_passes (f : SchemaField) : Prop :=
  is_scalar_record f → ∃ value, keyed_value f = Ok value.

Definition scalar_record_fails (f : SchemaField) (e : exn) : Prop :=
  is_scalar_record f ∧ keyed_value f = Raise e.

(** The three buckets share no name. *)
Definition buckets_disjoint (r : buckets (gset string)) : Prop :=
  scalars r ## booleans r ∧ scalars r ## keyed r ∧ booleans r ## keyed r.

(** No two fields of the schema have the same name. *)
Definition unique_names (schema : list SchemaField) : Prop :=
  NoDup (f_name <$> schema).

(** The two schemas hold the same fields, the two registries the same keys:
    they differ in order and repetition only. *)
Definition same_fields (schema1 schema2 : list SchemaField) : Prop :=
  ∀ f, f ∈ schema1 ↔ f ∈ schema2.

Definition same_keys (data_keys1 data_keys2 : list string) : Prop :=
  ∀ x, x ∈ data_keys1 ↔ x ∈ data_keys2.

(** A key-value record of the scalar dataset with values of type [t]. *)
Definition keyed_record (name t : string) : SchemaField :=
  mkField name "RECORD"
    (Some [ mkField "key_value" "RECORD"
              (Some [ mkField "key" "STRING" None; mkField "value" t None ]) ]).

(** A schema with a field of each shape the scalar loop tells apart, and a
    registry that names them all. *)
Definition mixed_scalar_schema : list SchemaField :=
  [ mkField "client_id" "STRING" None;
    mkField "scalar_parent_a_count" "INTEGER" None;
    mkField "scalar_parent_a_flag" "BOOLEAN" None;
    keyed_record "scalar_parent_a_keyed" "INTEGER";
    keyed_record "scalar_parent_a_keyed_flag" "BOOLEAN";
    mkField "scalar_parent_a_text" "STRING" None ].

Definition mixed_scalar_keys : list string :=
  [ "scalar/a.count"; "scalar/a.flag"; "scalar/a.keyed"; "scalar/a.keyed_flag";
    "scalar/a.text"; "histogram/A_COUNT" ].

Definition mixed_scalar_buckets : buckets (gset string) :=
  mkBuckets {[ "scalar_parent_a_count" ]} {[ "scalar_parent_a_flag" ]}
            {[ "scalar_parent_a_keyed" ]}.

(** [keyval_fields[1]["fields"][0]["fields"][0]["type"]], on the value of
    the pair: what [Scalar.get_histogram_type] reads in its third test. *)
Definition keyed_bin_type (value : SchemaField) : result string :=
  let! value_fields := item_fields value in
  let! inner := index value_fields 0 in
  let! inner_fields := item_fields inner in
  let! inner_key := index inner_fields 0 in
  Ok (f_type inner_key).

(** The list is a pair of fields of the types [key_type] and [value_type]. *)
Definition is_pair_of (key_type value_type : string) (keyval_fields : list SchemaField) : Prop :=
  ∃ key value, keyval_fields = [key; value] ∧
               f_type key = key_type ∧ f_type value = value_type.

(** A pair of a [STRING] and a [RECORD] on which [keyed_bin_type] gives [r]. *)
Definition is_keyed_pair (r : result string) (keyval_fields : list SchemaField) : Prop :=
  ∃ key value, keyval_fields = [key; value] ∧
               f_type key = "STRING" ∧ f_type value = "RECORD" ∧
               keyed_bin_type value = r.

(** A field of the loop of [Scalar.get_histogram_probes] passes when
    [get_histogram_type] returns on it; it fails with the error of that call. *)
Definition histogram_field_passes (f : SchemaField) : Prop :=
  startswith (f_name f) "histogram" = true →
  ∃ tag, Scalar.get_histogram_type (Scalar.keyval_fields_of f) = Ok tag.

Definition histogram_field_fails (f : SchemaField) (e : exn) : Prop :=
  startswith (f_name f) "histogram" = true ∧
  Scalar.get_histogram_type (Scalar.keyval_fields_of f) = Raise e.

(** No two fields of the shape [histogram_type] are compared with the
    registry under the same name. *)
Definition no_collision (schema : list SchemaField) (histogram_type : string) : Prop :=
  ∀ f g, f ∈ schema → g ∈ schema →
         is_histogram_field histogram_type f → is_histogram_field histogram_type g →
         Scalar.histogram_field_name (f_name f) = Scalar.histogram_field_name (f_name g) →
         f_name f = f_name g.

(** A [payload] field of the histogram dataset passes the loop of
    [Histogram.get_histogram_probes] when it has fields. *)
Definition payload_passes (f : SchemaField) : Prop :=
  f_name f = "payload" → is_Some (f_fields f).

Definition payload_fails (f : SchemaField) (e : exn) : Prop :=
  f_name f = "payload" ∧ f_fields f = None ∧ e = KeyError "fields".

(** A [payload] field without fields. *)
Definition is_bare_payload (f : SchemaField) : Prop :=
  f_name f = "payload" ∧ f_fields f = None.

(** Some [payload] field of the schema has a field named [histogram_type]. *)
Definition has_group (schema : list SchemaField) (histogram_type : string) : Prop :=
  ∃ payload group, payload ∈ schema ∧ f_name payload = "payload" ∧
                   group ∈ get_fields payload ∧ f_name group = histogram_type.

(** [group] is the first field named [histogram_type] of the last [payload]
    field of the schema that has one. *)
Definition selects (schema : list SchemaField) (histogram_type : string)
    (group : SchemaField) : Prop :=
  ∃ before payload after earlier later,
    schema = before ++ payload :: after ∧ f_name payload = "payload" ∧
    f_fields payload = Some (earlier ++ group :: later) ∧
    f_name group = histogram_type ∧
    (∀ g, g ∈ earlier → f_name g ≠ histogram_type) ∧
    (∀ p g, p ∈ after → f_name p = "payload" → g ∈ get_fields p →
            f_name g ≠ histogram_type).

(** A schema of the histogram dataset with two [payload] fields, the second
    with two groups of the same name. *)
Definition two_payloads_schema : list SchemaField :=
  [ mkField "payload" "RECORD"
      (Some [ mkField "histograms" "RECORD" (Some [ mkField "old_ms" "STRING" None ]) ]);
    mkField "client_id" "STRING" None;
    mkField "payload" "RECORD"
      (Some [ mkField "info" "RECORD" None;
              mkField "histograms" "RECORD"
                (Some [ mkField "gc_ms" "STRING" None; mkField "cycle_ms" "STRING" None ]);
              mkField "histograms" "RECORD" (Some [ mkField "late_ms" "STRING" None ]) ]) ].

Definition two_payloads_keys : list string :=
  [ "histogram/GC_MS"; "histogram/OLD_MS"; "histogram/LATE_MS"; "scalar/gc_ms" ].

(** The values of [--agg-type] the two drivers know. *)
Definition scalar_selector (agg_type : string) : Prop :=
  in_tuple agg_type ["scalar"; "keyed-scalar"] = true.

Definition scalar_histogram_selector (agg_type : string) : Prop :=
  in_tuple agg_type ["histogram"; "keyed-histogram"; "string-histogram"] = true.

Definition histogram_selector (agg_type : string) : Prop :=
  in_tuple agg_type ["histograms"; "keyed_histograms"] = true.

(** The exceptions of the drivers. *)
Definition scalar_agg_type_error : exn :=
  ValueError "agg-type must be one of scalar/histogram".

Definition histogram_agg_type_error : exn :=
  ValueError "agg-type must be one of histograms, keyed_histograms".

Definition none_not_iterable : exn :=
  TypeError "'NoneType' object is not iterable".

(** ** Vocabulary of the printed fragments *)

(** [w in s] *)
Definition stands_in (w s : string) : Prop := ∃ a b, s = a +:+ w +:+ b.

(** The text has no newline. *)
Fixpoint one_line (s : string) : bool :=
  match s with
  | EmptyString => true
  | String c s' => negb (Ascii.eqb c nl_char) && one_line s'
  end.

(** The fragment of one probe in each of the other loops. *)
Definition keyed_scalar_fragment (probe : string) : string :=
  "('" +:+ probe +:+ "', " +:+ probe +:+ ")".

Definition scalar_histogram_fragment (metric : string) : string :=
  "('" +:+ metric +:+ "', 'summed-histogram', ARRAY_AGG(" +:+ metric +:+ ") OVER w1)".

Definition keyed_histogram_fragment (probe : string) : string :=
  "('" +:+ probe +:+ "', payload.keyed_histograms." +:+ probe +:+ ")".

Definition histogram_fragment (metric : string) : string :=
  "('" +:+ metric +:+ "', " +:+
  "'histogram', '', " +:+
  "'summed-histogram', " +:+
  "ARRAY_AGG(payload.histograms." +:+ metric +:+ ") OVER w1, " +:+
  "ARRAY_AGG(payload.histograms." +:+ metric +:+ ") OVER w1)".

(** Every fragment of the list stands in the text. *)
Definition all_stand_in (fragments : list string) (out : string) : Prop :=
  ∀ fragment, fragment ∈ fragments → stands_in fragment out.

(** A loop over a set receives every element of the set. *)
Definition yields_all (set_order : gset string → list string) : Prop :=
  ∀ (X : gset string) x, x ∈ X → x ∈ set_order X.

(** ** The shapes in the words of the specification *)

(** A keyed scalar: a [RECORD] whose single nested field is itself a
    [RECORD] of pairs of a [STRING] key and an [INTEGER] or [BOOLEAN]
    value. *)
Definition spec_keyed_scalar_shape (f : SchemaField) : Prop :=
  f_type f = "RECORD" ∧
  ∃ key_value key value,
    f_fields f = Some [key_value] ∧ f_type key_value = "RECORD" ∧
    f_fields key_value = Some [key; value] ∧
    f_type key = "STRING" ∧ (f_type value = "INTEGER" ∨ f_type value = "BOOLEAN").

(** A [RECORD] of pairs of [INTEGER]s. *)
Definition spec_integer_pairs (r : SchemaField) : Prop :=
  f_type r = "RECORD" ∧
  ∃ key_value rest key value,
    f_fields r = Some (key_value :: rest) ∧ f_fields key_value = Some [key; value] ∧
    f_type key = "INTEGER" ∧ f_type value = "INTEGER".

(** A histogram of the type [tag]: a [RECORD] whose nested pair is an
    [INTEGER] or [STRING] key with an [INTEGER] value or, for a keyed
    histogram, a [STRING] key with a [RECORD] of pairs of [INTEGER]s. *)
Definition spec_histogram_shape (tag : string) (f : SchemaField) : Prop :=
  f_type f = "RECORD" ∧
  ∃ key_value rest key value,
    f_fields f = Some (key_value :: rest) ∧ f_fields key_value = Some [key; value] ∧
    ((tag = "histogram" ∧ f_type key = "INTEGER" ∧ f_type value = "INTEGER") ∨
     (tag = "string-histogram" ∧ f_type key = "STRING" ∧ f_type value = "INTEGER") ∨
     (tag = "keyed-histogram" ∧ f_type key = "STRING" ∧ spec_integer_pairs value)).

(** A scalar record with [INTEGER] keys and [STRING] values. *)
Definition text_valued_record : SchemaField :=
  mkField "scalar_parent_a_label" "RECORD"
    (Some [ mkField "key_value" "RECORD"
              (Some [ mkField "key" "INTEGER" None; mkField "value" "STRING" None ]) ]).

(** A histogram record with [STRING] keys whose values are records of pairs
    of an [INTEGER] and a [STRING]. *)
Definition text_valued_keyed_histogram : SchemaField :=
  mkField "histogram_parent_a_map" "RECORD"
    (Some [ mkField "key_value" "RECORD"
              (Some [ mkField "key" "STRING" None;
                      mkField "value" "RECORD"
                        (Some [ mkField "key_value" "RECORD"
                                  (Some [ mkField "key" "INTEGER" None;
                                          mkField "value" "STRING" None ]) ]) ]) ]).

(** A [BOOLEAN] column in the group [histograms] of the payload. *)
Definition boolean_column : SchemaField := mkField "a_flag" "BOOLEAN" None.

Definition boolean_payload_schema : list SchemaField :=
  [ mkField "payload" "RECORD"
      (Some [ mkField "histograms" "RECORD" (Some [ boolean_column ]) ]) ].

(** What the keyed composer declares for every probe it is given. *)
Definition keyed_scalar_value_type : string :=
  "value STRUCT<key_value ARRAY<STRUCT<key STRING, value INT64>>>".

(** ** Vocabulary of the order of the fragments *)

(** The slot [slot] of the dict holds [text] between two fixed texts. *)
Definition slot_holds (d : sql_strings) (slot before text after : string) : Prop :=
  d !! slot = Some (before +:+ text +:+ after).

(** What two iterations [l1] and [l2] of one probe set show in the fragment
    list [structs] of a composer: the same fragments, in the same order only
    when the iterations are the same. *)
Definition shows_the_order (structs : list string → list string) (l1 l2 : list string) : Prop :=
  structs l1 ≡ₚ structs l2 ∧ (structs l1 = structs l2 ↔ l1 = l2).

(** * Properties *)

(** ** Strings *)

Section StringFacts.

Implicit Types s t w p : string.

Lemma app_empty_l s : EmptyString +:+ s = s.
Proof. reflexivity. Qed.

Lemma app_cons c s t : String c s +:+ t = String c (s +:+ t).
Proof. reflexivity. Qed.

Lemma app_empty_r s : s +:+ EmptyString = s.
Proof. induction s as [|c s IH]; [done|]. by rewrite app_cons, IH. Qed.

Lemma app_assoc_s s t w : (s +:+ t) +:+ w = s +:+ (t +:+ w).
Proof. induction s as [|c s IH]; [done|]. by rewrite !app_cons, IH. Qed.

Lemma length_app_s s t : String.length (s +:+ t) = String.length s + String.length t.
Proof. induction s as [|c s IH]; [done|]. rewrite app_cons. simpl. by rewrite IH. Qed.

Lemma startswith_empty s : startswith s EmptyString = true.
Proof. by destruct s. Qed.

Lemma startswith_app p s : startswith (p +:+ s) p = true.
Proof.
  induction p as [|c p IH]; [apply startswith_empty|].
  rewrite app_cons. simpl. by rewrite Ascii.eqb_refl.
Qed.

Lemma startswith_app_l s t w : startswith s w = true → startswith (s +:+ t) w = true.
Proof.
  revert s. induction w as [|c w IH]; intros s H; [apply startswith_empty|].
  destruct s as [|d s]; [done|]. rewrite app_cons. simpl in *.
  destruct (Ascii.eqb c d); [by apply IH|done].
Qed.

(** An occurrence that starts inside [s] lies in [s], or runs over its end. *)
Lemma startswith_app_cases s t w :
  startswith (s +:+ t) w = true → startswith s w = true ∨ startswith w s = true.
Proof.
  revert s. induction w as [|c w IH]; intros s H.
  - left. apply startswith_empty.
  - destruct s as [|d s]; [by right|]. rewrite app_cons in H. simpl in *.
    destruct (Ascii.eqb c d) eqn:E; [|done].
    apply Ascii.eqb_eq in E as ->. rewrite Ascii.eqb_refl. by apply IH.
Qed.

Lemma drop_chars_app k s t :
  k ≤ String.length s → drop_chars k (s +:+ t) = drop_chars k s +:+ t.
Proof.
  revert s. induction k as [|k IH]; intros s H; [done|].
  destruct s as [|c s]; simpl in H; [lia|]. rewrite app_cons. simpl. apply IH. lia.
Qed.

Lemma drop_chars_length s t : drop_chars (String.length s) (s +:+ t) = t.
Proof. induction s as [|c s IH]; [done|]. rewrite app_cons. by simpl. Qed.

Lemma occurs_at_app_l w s t k :
  occurs_at w s k = true → occurs_at w (s +:+ t) k = true.
Proof.
  unfold occurs_at. intros H.
  destruct (decide (k ≤ String.length s)) as [Hk|Hk].
  - rewrite drop_chars_app by done. by apply startswith_app_l.
  - assert (drop_chars k s = EmptyString) as E.
    { clear H. revert k Hk. induction s as [|c s IH]; intros [|k] Hk; simpl in *; try done; try lia.
      apply IH. lia. }
    rewrite E in H. destruct w; [|done]. apply startswith_empty.
Qed.

Lemma occurs_at_shift w s t k :
  occurs_at w (s +:+ t) (String.length s + k) = occurs_at w t k.
Proof.
  unfold occurs_at. induction s as [|c s IH]; [done|]. by rewrite app_cons.
Qed.

Lemma clear_before_app w s t limit k :
  clear_before w s limit = true → limit ≤ String.length s →
  occurs_at w (s +:+ t) k = true → limit ≤ k.
Proof.
  intros Hc Hl Ho. destruct (decide (limit ≤ k)) as [|Hk]; [done|]. exfalso.
  unfold clear_before in Hc. rewrite forallb_forall in Hc.
  specialize (Hc k). rewrite in_seq in Hc.
  assert (0 ≤ k < 0 + limit) as Hr by lia. apply Hc in Hr.
  apply andb_true_iff in Hr as [H1 H2].
  unfold occurs_at in Ho. rewrite drop_chars_app in Ho by lia.
  apply startswith_app_cases in Ho as [Ho|Ho]; rewrite Ho in *; done.
Qed.

Lemma find_from_occurs w s k0 i :
  find_from w s k0 = Some i → ∃ j, i = k0 + j ∧ occurs_at w s j = true.
Proof.
  revert k0. induction s as [|c s IH]; intros k0.
  - destruct w as [|d w]; simpl; [|done].
    intros [= <-]. exists 0. split; [lia|done].
  - cbn [find_from]. destruct (startswith (String c s) w) eqn:E.
    + intros [= <-]. exists 0. split; [lia|exact E].
    + intros H. apply IH in H as (j & -> & Hj). exists (S j). split; [lia|exact Hj].
Qed.

Lemma contains_occurs s w : contains s w = true → ∃ j, occurs_at w s j = true.
Proof.
  unfold contains, str_find. destruct (find_from w s 0) as [i|] eqn:E; [|done].
  intros _. apply find_from_occurs in E as (j & _ & Hj). by exists j.
Qed.

End StringFacts.

(** ** [textwrap.dedent] on a template whose first line has no indentation *)

Section DedentFacts.

Lemma split_lines_nonempty s : split_lines s ≠ [].
Proof.
  destruct s as [|c s]; [done|]. simpl.
  destruct (Ascii.eqb c nl_char); [done|]. by destruct (split_lines s).
Qed.

Lemma split_lines_app a b :
  split_lines (a +:+ nl +:+ b) = split_lines a ++ split_lines b.
Proof.
  induction a as [|c a IH].
  - rewrite app_empty_l. unfold nl. by rewrite app_cons, app_empty_l.
  - rewrite app_cons. simpl. rewrite IH.
    destruct (Ascii.eqb c nl_char); [done|].
    pose proof (split_lines_nonempty a). by destruct (split_lines a).
Qed.

Lemma split_lines_join (L : list string) :
  L ≠ [] → split_lines (join nl L) = concat (split_lines <$> L).
Proof.
  induction L as [|x L IH]; [done|]. intros _.
  destruct L as [|y L].
  - simpl. by rewrite app_nil_r.
  - change (join nl (x :: y :: L)) with (x +:+ nl +:+ join nl (y :: L)).
    rewrite split_lines_app, IH by done. done.
Qed.

Lemma join_app sep (A B : list string) :
  A ≠ [] → B ≠ [] → join sep (A ++ B) = join sep A +:+ sep +:+ join sep B.
Proof.
  intros HA HB. induction A as [|x A IH]; [done|].
  destruct A as [|y A].
  - simpl. by destruct B.
  - change (join sep ((x :: y :: A) ++ B)) with (x +:+ sep +:+ join sep ((y :: A) ++ B)).
    rewrite IH by done.
    change (join sep (x :: y :: A)) with (x +:+ sep +:+ join sep (y :: A)).
    by rewrite !app_assoc_s.
Qed.

Lemma dedented_lines_app (A B : list string) :
  dedented_lines (A ++ B) = dedented_lines A ++ dedented_lines B.
Proof. unfold dedented_lines. by rewrite fmap_app, concat_app, fmap_app. Qed.

Lemma dedented_lines_nonempty (A : list string) : A ≠ [] → dedented_lines A ≠ [].
Proof.
  destruct A as [|x A]; [done|]. intros _. unfold dedented_lines. simpl.
  pose proof (split_lines_nonempty x). by destruct (split_lines x).
Qed.

Lemma foldl_update_margin_empty (indents : list string) :
  foldl update_margin (Some EmptyString) indents = Some EmptyString.
Proof.
  induction indents as [|x xs IH]; [done|]. simpl. by rewrite startswith_empty.
Qed.

Lemma find_margin_app (A B : list string) :
  find_margin A = Some EmptyString → find_margin (A ++ B) = Some EmptyString.
Proof.
  unfold find_margin. intros H.
  rewrite List.filter_app, fmap_app, foldl_app, H. apply foldl_update_margin_empty.
Qed.

(** With a head whose margin is empty, [dedent] only empties the lines made
    of blanks: the head's text comes out the same whatever follows it. *)
Lemma dedent_head (head body : list string) :
  find_margin (dedented_lines head) = Some EmptyString →
  head ≠ [] → body ≠ [] →
  dedent (text_of_lines (head ++ body))
  = join nl (dedented_lines head) +:+ nl +:+ join nl (dedented_lines body).
Proof.
  intros Hm Hh Hb. unfold dedent, text_of_lines.
  rewrite split_lines_join by (by destruct head).
  fold (dedented_lines (head ++ body)).
  rewrite dedented_lines_app, find_margin_app by done.
  apply join_app; by apply dedented_lines_nonempty.
Qed.

End DedentFacts.

(** ** The head of the two templates *)

Section TemplateHead.

Lemma scalar_generate_sql_head opts aggregates additional_queries additional_partitions
    select_clause querying_table :
  ∃ rest,
    Scalar.generate_sql opts aggregates additional_queries additional_partitions
                        select_clause querying_table
    = scalar_head_text +:+ nl +:+ rest.
Proof.
  unfold Scalar.generate_sql. eexists.
  rewrite dedent_head; [reflexivity|by vm_compute|done|done].
Qed.

Lemma histogram_generate_sql_head opts additional_queries windowed_clause select_clause :
  ∃ rest,
    Histogram.generate_sql opts additional_queries windowed_clause select_clause
    = histogram_head_text +:+ nl +:+ rest.
Proof.
  unfold Histogram.generate_sql. eexists.
  rewrite dedent_head; [reflexivity|by vm_compute|done|done].
Qed.

(** A text that starts with [head] has the deduplication clause first, when
    [head] has the clause and no windowed-aggregation text starts in [head]
    before the clause's end.  The condition is a computation on [head]. *)
Lemma dedup_first_of_head (dedup_clause head rest : string) :
  dedup_clause_leads dedup_clause head = true →
  dedup_first dedup_clause (head +:+ rest).
Proof.
  unfold dedup_clause_leads.
  destruct (str_find head dedup_clause) as [i|] eqn:Hi; [|done].
  intros H. apply andb_true_iff in H as [Hl Hc].
  apply Nat.leb_le in Hl. rewrite forallb_forall in Hc.
  assert (occurs_at dedup_clause head i = true) as Ho.
  { by apply find_from_occurs in Hi as (j & -> & Hj). }
  exists i. split; [by apply occurs_at_app_l|].
  intros w k Hw Hk.
  apply (clear_before_app w head rest); [|done|done].
  apply Hc. by apply list_elem_of_In.
Qed.

Lemma scalar_head_dedup_first rest :
  dedup_first scalar_dedup_clause (scalar_head_text +:+ rest).
Proof. apply dedup_first_of_head. by vm_compute. Qed.

Lemma histogram_head_dedup_first rest :
  dedup_first histogram_dedup_clause (histogram_head_text +:+ rest).
Proof. apply dedup_first_of_head. by vm_compute. Qed.

End TemplateHead.

(** ** Every composed query is an instance of the template *)

Section Rendering.

Lemma scalar_render_generate opts sql_string out :
  Scalar.render opts sql_string = Ok out →
  ∃ a q p s t, out = Scalar.generate_sql opts a q p s t.
Proof.
  unfold Scalar.render, bind.
  destruct (item sql_string "probes_string"); [|done].
  destruct (item sql_string "select_clause"); [|done].
  intros [= <-]. eauto 6.
Qed.

Lemma histogram_render_generate opts sql_string out :
  Histogram.render opts sql_string = Ok out →
  ∃ q w s, out = Histogram.generate_sql opts q w s.
Proof.
  unfold Histogram.render, bind.
  destruct (item sql_string "windowed_clause"); [|done].
  destruct (item sql_string "select_clause"); [|done].
  intros [= <-]. eauto.
Qed.

Lemma scalar_render_total opts (sql_string : sql_strings) :
  is_Some (sql_string !! "probes_string") → is_Some (sql_string !! "select_clause") →
  ∃ out, Scalar.render opts sql_string = Ok out.
Proof.
  intros [a Ha] [s Hs]. unfold Scalar.render, bind, item. rewrite Ha, Hs. eauto.
Qed.

Lemma histogram_render_total opts (sql_string : sql_strings) :
  is_Some (sql_string !! "windowed_clause") → is_Some (sql_string !! "select_clause") →
  ∃ out, Histogram.render opts sql_string = Ok out.
Proof.
  intros [a Ha] [s Hs]. unfold Histogram.render, bind, item. rewrite Ha, Hs. eauto.
Qed.

Lemma scalar_query_total probes t : ∃ out, scalar_query probes t = Ok out.
Proof.
  unfold scalar_query, Scalar.get_scalar_probes_sql_strings.
  destruct (String.eqb t "keyed-scalar").
  - unfold Scalar.get_keyed_scalar_probes_sql_string.
    apply scalar_render_total; simplify_map_eq; eauto.
  - apply scalar_render_total; simplify_map_eq; eauto.
Qed.

Lemma scalar_histogram_query_total probes t : ∃ out, scalar_histogram_query probes t = Ok out.
Proof.
  unfold scalar_histogram_query, Scalar.get_histogram_probes_sql_strings.
  apply scalar_render_total; simplify_map_eq; eauto.
Qed.

Lemma histogram_query_total probes t : ∃ out, histogram_query (Some probes) t = Ok out.
Proof.
  unfold histogram_query, Histogram.get_histogram_probes_sql_strings.
  destruct (String.eqb t "keyed_histograms").
  - unfold Histogram._get_keyed_histogram_sql, Histogram.iterate, bind.
    apply histogram_render_total; simplify_map_eq; eauto.
  - unfold Histogram.iterate, bind.
    apply histogram_render_total; simplify_map_eq; eauto.
Qed.

End Rendering.

(** ** The windowed table expression stands in every query *)

Section WindowedOccurs.

(** Lines of fixed text between two groups of lines keep their occurrences. *)
Lemma occurs_in_middle (head_text w : string) (A B C : list string) :
  A ≠ [] → B ≠ [] → C ≠ [] →
  contains (join nl B) w = true →
  ∃ k, occurs_at w (head_text +:+ nl +:+ join nl (A ++ B ++ C)) k = true.
Proof.
  intros HA HB HC Hw. apply contains_occurs in Hw as [j Hj].
  rewrite join_app by (done || by destruct B).
  rewrite (join_app nl B C) by done.
  exists (String.length (head_text +:+ nl +:+ join nl A +:+ nl) + j).
  replace (head_text +:+ nl +:+ join nl A +:+ nl +:+ join nl B +:+ nl +:+ join nl C)
    with ((head_text +:+ nl +:+ join nl A +:+ nl) +:+ (join nl B +:+ (nl +:+ join nl C)))
    by (by rewrite !app_assoc_s).
  rewrite occurs_at_shift. by apply occurs_at_app_l.
Qed.

Lemma scalar_windowed_occurs opts a q p s t :
  ∃ k, occurs_at "windowed AS (" (Scalar.generate_sql opts a q p s t) k = true.
Proof.
  unfold Scalar.generate_sql.
  rewrite dedent_head; [|by vm_compute|done|done].
  match goal with
  | |- context [dedented_lines (?x1 :: ?l2 :: ?l3 :: ?l4 :: ?rest)] =>
      change (dedented_lines (x1 :: l2 :: l3 :: l4 :: rest))
        with (dedented_lines ([x1] ++ [l2; l3; l4] ++ rest))
  end.
  rewrite !dedented_lines_app.
  apply occurs_in_middle; try (by apply dedented_lines_nonempty). by vm_compute.
Qed.

Lemma histogram_windowed_occurs opts q w s :
  ∃ k, occurs_at "windowed AS (" (Histogram.generate_sql opts q w s) k = true.
Proof.
  unfold Histogram.generate_sql.
  rewrite dedent_head; [|by vm_compute|done|done].
  match goal with
  | |- context [dedented_lines (?x1 :: ?l2 :: ?l3 :: ?l4 :: ?rest)] =>
      change (dedented_lines (x1 :: l2 :: l3 :: l4 :: rest))
        with (dedented_lines ([x1] ++ [l2; l3; l4] ++ rest))
  end.
  rewrite !dedented_lines_app.
  apply occurs_in_middle; try (by apply dedented_lines_nonempty). by vm_compute.
Qed.

End WindowedOccurs.

(** ** Deduplication comes first *)

Lemma scalar_template_dedup opts a q p s t :
  dedup_then_windowed scalar_dedup_clause (Scalar.generate_sql opts a q p s t).
Proof.
  split; [|apply scalar_windowed_occurs].
  destruct (scalar_generate_sql_head opts a q p s t) as [rest ->].
  apply scalar_head_dedup_first.
Qed.

Lemma histogram_template_dedup opts q w s :
  dedup_then_windowed histogram_dedup_clause (Histogram.generate_sql opts q w s).
Proof.
  split; [|apply histogram_windowed_occurs].
  destruct (histogram_generate_sql_head opts q w s) as [rest ->].
  apply histogram_head_dedup_first.
Qed.

Lemma scalar_main_generate set_order t schema keys out :
  Scalar.main set_order t schema keys = Ok out →
  ∃ a q p s u, out = Scalar.generate_sql t a q p s u.
Proof.
  unfold Scalar.main, bind. intros H.
  repeat match type of H with
         | match ?x with _ => _ end = _ => destruct x eqn:?; try done
         end;
  by eapply scalar_render_generate.
Qed.

Lemma histogram_main_generate set_order t schema keys out :
  Histogram.main set_order t schema keys = Ok out →
  ∃ q w s, out = Histogram.generate_sql t q w s.
Proof.
  unfold Histogram.main, bind. intros H.
  repeat match type of H with
         | match ?x with _ => _ end = _ => destruct x eqn:?; try done
         end;
  by eapply histogram_render_generate.
Qed.

(** C3.  In every query either generator composes, for every probe set and
    every selector value, the deduplication clause (rows numbered within a
    (client, date, document) group, the first kept) stands before every
    windowed-aggregation text; the composers return such a query for every
    probe set, and so does every run of a driver that prints one. *)
Theorem dedup_before_windowed :
  (∀ probes t, ∃ out, scalar_query probes t = Ok out ∧
                      dedup_then_windowed scalar_dedup_clause out) ∧
  (∀ probes t, ∃ out, scalar_histogram_query probes t = Ok out ∧
                      dedup_then_windowed scalar_dedup_clause out) ∧
  (∀ probes t, ∃ out, histogram_query (Some probes) t = Ok out ∧
                      dedup_then_windowed histogram_dedup_clause out) ∧
  (∀ set_order t schema keys out,
     Scalar.main set_order t schema keys = Ok out →
     dedup_then_windowed scalar_dedup_clause out) ∧
  (∀ set_order t schema keys out,
     Histogram.main set_order t schema keys = Ok out →
     dedup_then_windowed histogram_dedup_clause out).
Proof.
  refine (conj _ (conj _ (conj _ (conj _ _)))).
  - intros probes t. destruct (scalar_query_total probes t) as [out H].
    exists out. split; [done|].
    apply scalar_render_generate in H as (a & q & p & s & u & ->).
    apply scalar_template_dedup.
  - intros probes t. destruct (scalar_histogram_query_total probes t) as [out H].
    exists out. split; [done|].
    apply scalar_render_generate in H as (a & q & p & s & u & ->).
    apply scalar_template_dedup.
  - intros probes t. destruct (histogram_query_total probes t) as [out H].
    exists out. split; [done|].
    unfold histogram_query, bind in H.
    destruct (Histogram.get_histogram_probes_sql_strings (Some probes) t); [|done].
    apply histogram_render_generate in H as (q & w & s & ->).
    apply histogram_template_dedup.
  - intros set_order t schema keys out H.
    apply scalar_main_generate in H as (a & q & p & s & u & ->).
    apply scalar_template_dedup.
  - intros set_order t schema keys out H.
    apply histogram_main_generate in H as (q & w & s & ->).
    apply histogram_template_dedup.
Qed.

Lemma dedup_before_windowed_witness :
  ∃ out, Scalar.main elements "scalar" [scenario_field] [scenario_key] = Ok out ∧
         dedup_then_windowed scalar_dedup_clause out.
Proof.
  eexists. split; [vm_compute; reflexivity|].
  apply (proj1 (proj2 (proj2 (proj2 dedup_before_windowed)))
               elements "scalar" [scenario_field] [scenario_key]).
  vm_compute. reflexivity.
Defined.

(** ** The date filters *)

Section DateFilter.

Lemma str_find_occurs s w i : str_find s w = Some i → occurs_at w s i = true.
Proof. intros H. by apply find_from_occurs in H as (j & -> & Hj). Qed.

Lemma histogram_query_head probes t out :
  histogram_query probes t = Ok out → ∃ rest, out = histogram_head_text +:+ nl +:+ rest.
Proof.
  unfold histogram_query, bind.
  destruct (Histogram.get_histogram_probes_sql_strings probes t); [|done].
  intros H. apply histogram_render_generate in H as (q & w & s & ->).
  apply histogram_generate_sql_head.
Qed.

Lemma scalar_render_head t sql_string out :
  Scalar.render t sql_string = Ok out → ∃ rest, out = scalar_head_text +:+ nl +:+ rest.
Proof.
  intros H. apply scalar_render_generate in H as (a & q & p & s & u & ->).
  apply scalar_generate_sql_head.
Qed.

End DateFilter.

(** C10.  Every query of the histogram generator filters its source rows by
    the date literal [2019-07-17], at one offset of the text whatever the
    probe set and the selector, and its template names no query parameter;
    every query of the scalar generator filters by the parameter
    [@submission_date], and its head holds no date literal.  The head of the
    histogram query, with the filter in it, is the same text for all inputs. *)
Theorem date_filter_literal_or_parameter :
  ∃ ih isc : nat,
    (∀ probes t, ∃ out, histogram_query (Some probes) t = Ok out ∧
                        occurs_at histogram_date_filter out ih = true ∧
                        startswith out histogram_head_text = true) ∧
    (∀ set_order t schema keys out,
       Histogram.main set_order t schema keys = Ok out →
       occurs_at histogram_date_filter out ih = true ∧
       startswith out histogram_head_text = true) ∧
    contains histogram_head_text "@" = false ∧
    (∀ t, ∃ out, histogram_query (Some []) t = Ok out ∧ contains out "@" = false) ∧
    contains histogram_dedup_clause histogram_date_filter = true ∧
    (∀ probes t, ∃ out, scalar_query probes t = Ok out ∧
                        occurs_at scalar_date_filter out isc = true) ∧
    (∀ probes t, ∃ out, scalar_histogram_query probes t = Ok out ∧
                        occurs_at scalar_date_filter out isc = true) ∧
    (∀ set_order t schema keys out,
       Scalar.main set_order t schema keys = Ok out →
       occurs_at scalar_date_filter out isc = true) ∧
    contains scalar_dedup_clause scalar_date_filter = true ∧
    contains scalar_head_text "2019-07-17" = false.
Proof.
  destruct (str_find histogram_head_text histogram_date_filter) as [ih|] eqn:Eh;
    [|by vm_compute in Eh].
  destruct (str_find scalar_head_text scalar_date_filter) as [isc|] eqn:Es;
    [|by vm_compute in Es].
  apply str_find_occurs in Eh, Es.
  exists ih, isc.
  refine (conj _ (conj _ (conj _ (conj _ (conj _ (conj _ (conj _ (conj _ (conj _ _))))))))).
  - intros probes t. destruct (histogram_query_total probes t) as [out H].
    exists out. split; [done|].
    apply histogram_query_head in H as [rest ->].
    split; [by apply occurs_at_app_l|apply startswith_app].
  - intros set_order t schema keys out H.
    apply histogram_main_generate in H as (q & w & s & ->).
    destruct (histogram_generate_sql_head t q w s) as [rest ->].
    split; [by apply occurs_at_app_l|apply startswith_app].
  - by vm_compute.
  - intros t. unfold histogram_query, Histogram.get_histogram_probes_sql_strings.
    destruct (String.eqb t "keyed_histograms"); eexists; (split; [vm_compute; reflexivity|]);
      by vm_compute.
  - by vm_compute.
  - intros probes t. destruct (scalar_query_total probes t) as [out H].
    exists out. split; [done|].
    apply scalar_render_head in H as [rest ->]. by apply occurs_at_app_l.
  - intros probes t. destruct (scalar_histogram_query_total probes t) as [out H].
    exists out. split; [done|].
    apply scalar_render_head in H as [rest ->]. by apply occurs_at_app_l.
  - intros set_order t schema keys out H.
    apply scalar_main_generate in H as (a & q & p & s & u & ->).
    destruct (scalar_generate_sql_head t a q p s u) as [rest ->]. by apply occurs_at_app_l.
  - by vm_compute.
  - by vm_compute.
Qed.

Lemma date_filter_literal_or_parameter_witness :
  ∃ i out, Histogram.main elements "histograms" sample_schema sample_keys = Ok out ∧
           occurs_at histogram_date_filter out i = true.
Proof.
  destruct date_filter_literal_or_parameter as (ih & isc & _ & Hm & _).
  exists ih. eexists. split; [vm_compute; reflexivity|].
  apply (Hm elements "histograms" sample_schema sample_keys).
  vm_compute. reflexivity.
Defined.

(** ** The empty probe set *)

(** C5.  For the empty probe set and every selector value, each composer
    still returns a complete query: the deduplication, the windowed
    aggregation and the final selection stand in it in this order, and the
    array of per-probe structs is the empty array literal (its brackets hold
    blanks only). *)
Theorem empty_probe_set_composes :
  (∀ t, ∃ out,
     scalar_query (mkBuckets [] [] []) t = Ok out ∧
     complete_with_empty_array scalar_dedup_clause
       (if String.eqb t "keyed-scalar" then " as metrics" else " AS scalar_aggregates")
       out = true) ∧
  (∀ t, ∃ out,
     scalar_histogram_query [] t = Ok out ∧
     complete_with_empty_array scalar_dedup_clause " AS histogram_aggregates" out = true) ∧
  (∀ t, ∃ out,
     histogram_query (Some []) t = Ok out ∧
     complete_with_empty_array histogram_dedup_clause
       (if String.eqb t "keyed_histograms" then " as metrics" else " AS histogram_aggregates")
       out = true).
Proof.
  refine (conj _ (conj _ _)).
  - intros t. unfold scalar_query, Scalar.get_scalar_probes_sql_strings.
    destruct (String.eqb t "keyed-scalar");
      eexists; (split; [vm_compute; reflexivity|]); by vm_compute.
  - intros t. unfold scalar_histogram_query, Scalar.get_histogram_probes_sql_strings.
    destruct (String.eqb t "string-histogram"), (String.eqb t "keyed-histogram");
      eexists; (split; [vm_compute; reflexivity|]); by vm_compute.
  - intros t. unfold histogram_query, Histogram.get_histogram_probes_sql_strings.
    destruct (String.eqb t "keyed_histograms");
      eexists; (split; [vm_compute; reflexivity|]); by vm_compute.
Qed.

(** ** Names of the registry *)

Section Replace.

Lemma startswith_split s p : startswith s p = true → s = p +:+ drop_chars (String.length p) s.
Proof.
  revert s. induction p as [|c p IH]; intros s H; [done|].
  destruct s as [|d s]; [done|]. simpl in H.
  destruct (Ascii.eqb c d) eqn:E; [|done]. apply Ascii.eqb_eq in E as ->.
  rewrite app_cons. simpl. f_equal. by apply IH.
Qed.

Lemma replace_scan_skip old new k s :
  replace_scan old new k s = replace_scan old new 0 (drop_chars k s).
Proof.
  revert s. induction k as [|k IH]; intros s; [done|].
  destruct s as [|c s]; [done|]. simpl. apply IH.
Qed.

(** An occurrence at the start is replaced, and the scan goes on behind it. *)
Lemma replace_scan_prefix c old new r :
  replace_scan (String c old) new 0 (String c old +:+ r)
  = new +:+ replace_scan (String c old) new 0 r.
Proof.
  rewrite app_cons. cbn [replace_scan].
  rewrite <- (app_cons c old r), startswith_app.
  f_equal. rewrite replace_scan_skip. simpl. by rewrite Nat.sub_0_r, drop_chars_length.
Qed.

Lemma find_from_none_cons w c s k :
  find_from w (String c s) k = None →
  startswith (String c s) w = false ∧ find_from w s (S k) = None.
Proof. cbn [find_from]. by destruct (startswith (String c s) w). Qed.

Lemma find_from_none_shift w s k k' : find_from w s k = None → find_from w s k' = None.
Proof.
  revert k k'. induction s as [|c s IH]; intros k k'.
  - by destruct w.
  - intros H. apply find_from_none_cons in H as [H1 H2].
    cbn [find_from]. rewrite H1. by eapply IH.
Qed.

(** A text without an occurrence of [old] is left as it is. *)
Lemma replace_scan_absent c old new s :
  contains s (String c old) = false → replace_scan (String c old) new 0 s = s.
Proof.
  unfold contains, str_find.
  destruct (find_from (String c old) s 0) eqn:E; [done|]. intros _.
  induction s as [|d s IH]; [done|].
  apply find_from_none_cons in E as [E1 E2].
  cbn [replace_scan]. rewrite E1. f_equal. apply IH. by eapply find_from_none_shift.
Qed.

Lemma startswith_char c d s :
  startswith (String c s) (String d EmptyString) = Ascii.eqb d c.
Proof. cbn [startswith]. rewrite startswith_empty. by destruct (Ascii.eqb d c). Qed.

Lemma replace_dots s : replace s "." "_" = dots_to_underscores s.
Proof.
  unfold replace, dots_to_underscores.
  induction s as [|c s IH]; [done|].
  cbn [replace_scan map_chars]. rewrite startswith_char, Ascii.eqb_sym.
  destruct (Ascii.eqb c ".").
  - change (String.length "." - 1) with 0. by rewrite IH.
  - by rewrite IH.
Qed.

Lemma map_chars_app f s t : map_chars f (s +:+ t) = map_chars f s +:+ map_chars f t.
Proof. induction s as [|c s IH]; [done|]. rewrite app_cons. simpl. by rewrite IH. Qed.

End Replace.

Section Normalization.

Lemma lower_dots_commute s : lower (dots_to_underscores s) = dots_to_underscores (lower s).
Proof.
  unfold lower, dots_to_underscores.
  induction s as [|c s IH]; [done|]. cbn [map_chars]. rewrite IH. f_equal.
  by destruct c as [[] [] [] [] [] [] [] []].
Qed.

Lemma app_inv_head_s p s t : p +:+ s = p +:+ t → s = t.
Proof. induction p as [|c p IH]; [done|]. rewrite !app_cons. intros [= H]. by apply IH. Qed.

End Normalization.

(** C6, the claim as stated fails on the scalar path, and on both paths for
    an identifier that holds its prefix twice.  The scalar path does not
    strip [scalar/]: it rewrites it to [scalar_parent_], the prefix of the
    schema's field names.  [str.replace] rewrites every occurrence of the
    prefix, not only the one at the start.  The scalar path has no
    [lower()]: an identifier with a capital keeps it. *)
Lemma probe_name_differs_from_rule :
  (Scalar.scalar_probe_name "scalar/telemetry.test" = "scalar_parent_telemetry_test" ∧
   spec_normalize "scalar/" "scalar/telemetry.test" = "telemetry_test") ∧
  ¬ (∀ x, startswith x "scalar/" = true →
          Scalar.scalar_probe_name x = spec_normalize "scalar/" x) ∧
  (Scalar.histogram_probe_name "histogram/a.histogram/B" = "a_b" ∧
   Histogram.histogram_probe_name "histogram/a.histogram/B" = "a_b" ∧
   spec_normalize "histogram/" "histogram/a.histogram/B" = "a_histogram/b") ∧
  (Scalar.scalar_probe_name "scalar/a.scalar/b" = "scalar_parent_a_scalar_parent_b" ∧
   "scalar_parent_" +:+ spec_normalize "scalar/" "scalar/a.scalar/b"
   = "scalar_parent_a_scalar/b") ∧
  (Scalar.scalar_probe_name "scalar/telemetry.Test" = "scalar_parent_telemetry_Test" ∧
   "scalar_parent_" +:+ spec_normalize "scalar/" "scalar/telemetry.Test"
   = "scalar_parent_telemetry_test").
Proof.
  split; [by vm_compute|]. split.
  - intros H. specialize (H "scalar/telemetry.test" eq_refl). by vm_compute in H.
  - split; [by vm_compute|]. split; by vm_compute.
Qed.

(** C6, amended.  For an ASCII registry identifier that has its prefix at
    the start only: the histogram path of both generators strips
    [histogram/], replaces every dot by an underscore and lowers the case,
    as the rule says; the scalar path rewrites [scalar/] to the schema's
    field prefix [scalar_parent_] and replaces every dot by an underscore,
    which for an identifier without capitals is the rule's normalized name
    behind that prefix. *)
Theorem probe_name_normalization (x : string) :
  is_ascii x = true →
  (startswith x "histogram/" = true →
   contains (strip_prefix "histogram/" x) "histogram/" = false →
   Scalar.histogram_probe_name x = spec_normalize "histogram/" x ∧
   Histogram.histogram_probe_name x = spec_normalize "histogram/" x) ∧
  (startswith x "scalar/" = true →
   contains (strip_prefix "scalar/" x) "scalar/" = false →
   lower x = x →
   Scalar.scalar_probe_name x = "scalar_parent_" +:+ spec_normalize "scalar/" x).
Proof.
  intros _. split.
  - intros Hp Hc.
    assert (Scalar.histogram_probe_name x = spec_normalize "histogram/" x) as E.
    { unfold Scalar.histogram_probe_name, spec_normalize.
      rewrite replace_dots. do 2 f_equal.
      unfold strip_prefix in *. rewrite Hp in *.
      rewrite (startswith_split _ _ Hp) at 1.
      unfold replace. rewrite replace_scan_prefix, app_empty_l.
      by apply replace_scan_absent. }
    split; [exact E|exact E].
  - intros Hp Hc Hl. unfold Scalar.scalar_probe_name, spec_normalize.
    rewrite replace_dots. unfold strip_prefix in *. rewrite Hp in *.
    rewrite (startswith_split _ _ Hp) at 1.
    unfold replace. rewrite replace_scan_prefix, replace_scan_absent by done.
    unfold dots_to_underscores at 1. rewrite map_chars_app.
    fold (dots_to_underscores (drop_chars (String.length "scalar/") x)).
    rewrite lower_dots_commute.
    assert (lower (drop_chars (String.length "scalar/") x)
            = drop_chars (String.length "scalar/") x) as ->; [|done].
    rewrite (startswith_split _ _ Hp) in Hl at 1 2.
    unfold lower in Hl. rewrite map_chars_app in Hl.
    by apply app_inv_head_s in Hl.
Qed.

Lemma probe_name_normalization_witness :
  (Scalar.histogram_probe_name "histogram/GC.Ms" = spec_normalize "histogram/" "histogram/GC.Ms" ∧
   Histogram.histogram_probe_name "histogram/GC.Ms" = spec_normalize "histogram/" "histogram/GC.Ms") ∧
  Scalar.scalar_probe_name "scalar/telemetry.test"
  = "scalar_parent_" +:+ spec_normalize "scalar/" "scalar/telemetry.test".
Proof.
  split.
  - apply (proj1 (probe_name_normalization "histogram/GC.Ms" eq_refl)); reflexivity.
  - apply (proj2 (probe_name_normalization "scalar/telemetry.test" eq_refl)); reflexivity.
Defined.

(** ** Classification *)

Section Loops.

Context {A St : Type}.

(** A property of the loop's state that every turn keeps holds at the end. *)
Lemma for_each_invariant (body : St → A → result St) (P : St → Prop) (l : list A) :
  (∀ st x st', x ∈ l → P st → body st x = Ok st' → P st') →
  ∀ st st', P st → for_each body l st = Ok st' → P st'.
Proof.
  induction l as [|x l IH]; intros Hbody st st' HP H.
  - by injection H as <-.
  - cbn [for_each] in H. unfold bind in H.
    destruct (body st x) as [st1|] eqn:E; [|done].
    apply (IH (λ st0 y st0' Hy, Hbody st0 y st0' (list_elem_of_further _ _ _ Hy)) st1);
      [|done].
    apply (Hbody st x); [apply list_elem_of_here|done|done].
Qed.

End Loops.

Section Registry.

Lemma elem_of_registry prefix normalize (data_keys : list string) n :
  n ∈ (list_to_set (normalize <$> List.filter (λ x, startswith x prefix) data_keys) : gset string)
  ↔ registered prefix normalize data_keys n.
Proof.
  rewrite elem_of_list_to_set, list_elem_of_fmap. unfold registered.
  split.
  - intros (x & -> & Hx). apply list_elem_of_In, filter_In in Hx as [Hx Hp].
    exists x. by rewrite list_elem_of_In.
  - intros (x & Hx & Hp & <-). exists x. split; [done|].
    apply list_elem_of_In, filter_In. by rewrite <- list_elem_of_In.
Qed.

End Registry.

Section ScalarClassifier.

Variable schema : list SchemaField.

Lemma scalar_field_step_sound st field st' :
  field ∈ schema → scalar_sets_sound schema st →
  Scalar.scalar_field_step st field = Ok st' → scalar_sets_sound schema st'.
Proof.
  intros Hin (Hs & Hb & Hk). unfold Scalar.scalar_field_step.
  destruct (startswith (f_name field) "scalar_parent") eqn:Hp; simpl;
    [|by intros [= <-]].
  destruct (String.eqb (f_type field) "INTEGER") eqn:Hi.
  { intros [= <-]. apply String.eqb_eq in Hi.
    split; [|done]. intros n. simpl. rewrite elem_of_union, elem_of_singleton.
    intros [->|?]; [by exists field|by apply Hs]. }
  destruct (String.eqb (f_type field) "BOOLEAN") eqn:Hbo.
  { intros [= <-]. apply String.eqb_eq in Hbo.
    split; [done|]. split; [|done]. intros n. simpl.
    rewrite elem_of_union, elem_of_singleton.
    intros [->|?]; [by exists field|by apply Hb]. }
  destruct (String.eqb (f_type field) "RECORD") eqn:Hr; [|by intros [= <-]].
  apply String.eqb_eq in Hr. unfold bind, item_fields, index.
  destruct (f_fields field) as [[|key_value rest]|] eqn:Hf; simpl; try done.
  destruct (f_fields key_value) as [pair|] eqn:Hkv; [|done].
  destruct (pair !! 1) as [value|] eqn:Hv; [|done].
  destruct (String.eqb (f_type value) "BOOLEAN") eqn:Hvb; intros [= <-]; [done|].
  apply String.eqb_neq in Hvb.
  split; [done|]. split; [done|]. intros n. simpl.
  rewrite elem_of_union, elem_of_singleton.
  intros [->|?]; [|by apply Hk].
  exists field. split; [done|]. split; [done|].
  split; [done|]. split; [done|]. by exists key_value, rest, pair, value.
Qed.

End ScalarClassifier.

Lemma scalar_loop_sound schema st :
  for_each Scalar.scalar_field_step schema (Scalar.mkScalarSets ∅ ∅ ∅ ∅) = Ok st →
  scalar_sets_sound schema st.
Proof.
  apply (for_each_invariant _ (scalar_sets_sound schema)).
  - intros st0 x st0'. apply scalar_field_step_sound.
  - by split; [|split]; intros n Hn; apply not_elem_of_empty in Hn.
Qed.

(** Every integer field named as a scalar is in the first set at the end,
    and the first set only grows. *)
Lemma scalar_loop_complete schema st st' :
  for_each Scalar.scalar_field_step schema st = Ok st' →
  Scalar.main_summary_scalars st ⊆ Scalar.main_summary_scalars st' ∧
  ∀ f, f ∈ schema → is_scalar_field f → f_name f ∈ Scalar.main_summary_scalars st'.
Proof.
  revert st. induction schema as [|x schema IH]; intros st H.
  - injection H as <-. split; [done|]. intros f Hf. by apply elem_of_nil in Hf.
  - cbn [for_each] in H. unfold bind in H.
    destruct (Scalar.scalar_field_step st x) as [st1|] eqn:E; [|done].
    apply IH in H as [Hsub Hall].
    assert (Scalar.main_summary_scalars st ⊆ Scalar.main_summary_scalars st1 ∧
            (is_scalar_field x → f_name x ∈ Scalar.main_summary_scalars st1)) as [H1 H2].
    { unfold Scalar.scalar_field_step in E.
      destruct (startswith (f_name x) "scalar_parent") eqn:Hp; simpl in E.
      2:{ injection E as <-. split; [done|]. intros [? _]. congruence. }
      destruct (String.eqb (f_type x) "INTEGER") eqn:Hi.
      { injection E as <-. simpl. split; [apply union_subseteq_r|].
        intros _. by apply elem_of_union_l, elem_of_singleton. }
      assert (¬ is_scalar_field x) as Hn.
      { intros [_ Ht]. apply String.eqb_neq in Hi. done. }
      assert (Scalar.main_summary_scalars st1 = Scalar.main_summary_scalars st) as ->; [|done].
      destruct (String.eqb (f_type x) "BOOLEAN"); [by injection E as <-|].
      destruct (String.eqb (f_type x) "RECORD"); [|by injection E as <-].
      unfold bind in E.
      repeat match type of E with
             | match ?r with _ => _ end = _ => destruct r; try done
             | (if ?b then _ else _) = _ => destruct b
             end; by injection E as <-. }
    split; [by etrans|].
    intros f Hf Hshape. apply elem_of_cons in Hf as [->|Hf]; [|by apply Hall].
    apply Hsub. by apply H2.
Qed.

Section HistogramClassifiers.

Variable schema : list SchemaField.
Variable histogram_type : string.

Lemma histogram_field_step_sound st field st' :
  field ∈ schema → histogram_state_sound schema histogram_type st →
  Scalar.histogram_field_step histogram_type st field = Ok st' →
  histogram_state_sound schema histogram_type st'.
Proof.
  intros Hin [Hdom Hmap]. unfold Scalar.histogram_field_step, bind.
  destruct (startswith (f_name field) "histogram") eqn:Hp; simpl; [|by intros [= <-]].
  destruct (Scalar.get_histogram_type (Scalar.keyval_fields_of field)) as [t|] eqn:Ht;
    [|done].
  case_bool_decide as Heq; simpl; [|by intros [= <-]].
  intros [= <-]. subst t. split; simpl.
  - intros k. rewrite elem_of_union, elem_of_singleton. intros [->|Hk].
    + rewrite lookup_insert_eq. eauto.
    + destruct (decide (Scalar.histogram_field_name (f_name field) = k)) as [<-|Hne].
      * rewrite lookup_insert_eq. eauto.
      * rewrite lookup_insert_ne by done. by apply Hdom.
  - intros k v.
    destruct (decide (Scalar.histogram_field_name (f_name field) = k)) as [<-|Hne].
    + rewrite lookup_insert_eq. intros [= <-]. split; [done|]. by exists field.
    + rewrite lookup_insert_ne by done. apply Hmap.
Qed.

Lemma histogram_loop_sound st :
  for_each (Scalar.histogram_field_step histogram_type) schema (∅, ∅) = Ok st →
  histogram_state_sound schema histogram_type st.
Proof.
  apply (for_each_invariant _ (histogram_state_sound schema histogram_type)).
  - intros st0 x st0'. apply histogram_field_step_sound.
  - split; [intros k Hk; by apply not_elem_of_empty in Hk|].
    intros k v. simpl. by rewrite lookup_empty.
Qed.

Lemma original_names_elem (M : gmap string string) (l names : list string) n :
  Scalar.original_names M l = Ok names → n ∈ names → ∃ k, k ∈ l ∧ M !! k = Some n.
Proof.
  revert names. induction l as [|k l IH]; intros names H Hn.
  - injection H as <-. by apply elem_of_nil in Hn.
  - cbn [Scalar.original_names] in H.
    destruct (M !! k) as [v|] eqn:Hk; [|done]. unfold bind in H.
    destruct (Scalar.original_names M l) as [names'|]; [|done].
    injection H as <-. apply elem_of_cons in Hn as [->|Hn].
    + exists k. split; [apply list_elem_of_here|done].
    + destruct (IH names' eq_refl Hn) as (k' & Hk' & Hv).
      exists k'. split; [by apply list_elem_of_further|done].
Qed.

Lemma find_payload_field_elem payload_fields histograms_field group :
  Histogram.find_payload_field histogram_type payload_fields histograms_field = Some group →
  (group ∈ payload_fields ∧ f_name group = histogram_type) ∨ histograms_field = Some group.
Proof.
  induction payload_fields as [|x l IH]; simpl; [by right|].
  destruct (String.eqb (f_name x) histogram_type) eqn:E.
  - intros [= <-]. left. split; [apply list_elem_of_here|by apply String.eqb_eq].
  - intros H. apply IH in H as [[H1 H2]|H]; [left|by right].
    split; [by apply list_elem_of_further|done].
Qed.

Lemma payload_loop_sound histograms_field :
  for_each (Histogram.payload_step histogram_type) schema None = Ok histograms_field →
  payload_state_sound schema histogram_type histograms_field.
Proof.
  apply (for_each_invariant _ (payload_state_sound schema histogram_type)); [|done].
  intros st x st' Hx Hst. unfold Histogram.payload_step, bind, item_fields.
  destruct (String.eqb (f_name x) "payload") eqn:Hp; simpl; [|by intros [= <-]].
  destruct (f_fields x) as [payload_fields|] eqn:Hf; [|done].
  intros [= <-] group Hg.
  apply find_payload_field_elem in Hg as [[H1 H2]|Hg]; [|by apply Hst].
  exists x, payload_fields. by apply String.eqb_eq in Hp.
Qed.

Lemma elem_of_histogram_names (l : list SchemaField) (acc : gset string) n :
  n ∈ foldl (λ acc histogram, {[ f_name histogram ]} ∪ acc) acc l
  ↔ n ∈ acc ∨ ∃ h, h ∈ l ∧ f_name h = n.
Proof.
  revert acc. induction l as [|x l IH]; intros acc; simpl.
  - split; [by left|]. intros [?|(h & Hh & _)]; [done|]. by apply elem_of_nil in Hh.
  - rewrite IH, elem_of_union, elem_of_singleton. split.
    + intros [[->|?]|(h & Hh & Hn)]; [right|by left|right].
      * exists x. split; [apply list_elem_of_here|done].
      * exists h. split; [by apply list_elem_of_further|done].
    + intros [?|(h & Hh & Hn)]; [left; by right|].
      apply elem_of_cons in Hh as [->|Hh]; [left; by left|right; by exists h].
Qed.

End HistogramClassifiers.

(** With the tests the code makes for shapes, classification is sound: a
    name is in a returned probe set only if the schema has a field of that
    name that passes the tests of the set's bucket, and the name's compared
    form is that of a registry key with the type's prefix.  This holds of
    the three buckets of [Scalar.get_scalar_probes], of
    [Scalar.get_histogram_probes] (which returns original field names) and
    of [Histogram.get_histogram_probes] (whose candidates are the fields
    under the payload group of the selector). *)
Lemma classification_sound (schema : list SchemaField) (data_keys : list string)
    (t n : string) :
  (∀ r, Scalar.get_scalar_probes schema data_keys = Ok r →
     (n ∈ scalars r →
        has_field schema is_scalar_field n ∧
        registered "scalar/" Scalar.scalar_probe_name data_keys n) ∧
     (n ∈ booleans r →
        has_field schema is_boolean_field n ∧
        registered "scalar/" Scalar.scalar_probe_name data_keys n) ∧
     (n ∈ keyed r →
        has_field schema is_keyed_scalar_field n ∧
        registered "scalar/" Scalar.scalar_probe_name data_keys n)) ∧
  (∀ X, Scalar.get_histogram_probes schema data_keys t = Ok X → n ∈ X →
     has_field schema (is_histogram_field t) n ∧
     registered "histogram/" Scalar.histogram_probe_name data_keys
                (Scalar.histogram_field_name n)) ∧
  (∀ X, Histogram.get_histogram_probes schema data_keys t = Ok (Some X) → n ∈ X →
     is_payload_histogram schema t n ∧
     registered "histogram/" Histogram.histogram_probe_name data_keys n).
Proof.
  refine (conj _ (conj _ _)).
  - intros r. unfold Scalar.get_scalar_probes, bind.
    destruct (for_each _ _ _) as [st|] eqn:E; [|done]. intros [= <-]. simpl.
    apply scalar_loop_sound in E as (Hs & Hb & Hk).
    unfold Scalar.scalar_probes_of.
    rewrite !elem_of_intersection, !elem_of_registry.
    split; [|split]; intros [Hr Hn]; (split; [|done]); auto.
  - intros X. unfold Scalar.get_histogram_probes, bind.
    destruct (for_each _ _ _) as [st|] eqn:E; [|done].
    destruct (Scalar.original_names _ _) as [names|] eqn:En; [|done].
    intros [= <-] Hn. apply elem_of_list_to_set in Hn.
    destruct (original_names_elem _ _ _ _ En Hn) as (k & Hk & Hv).
    apply elem_of_elements, elem_of_intersection in Hk as [Hreg _].
    apply elem_of_registry in Hreg.
    apply histogram_loop_sound in E as [_ Hmap].
    destruct (Hmap k n Hv) as [-> Hf]. done.
  - intros X. unfold Histogram.get_histogram_probes, bind.
    destruct (for_each _ _ _) as [[group|]|] eqn:E; [|done|done].
    intros [= <-]. rewrite elem_of_intersection.
    unfold Histogram.histogram_probes_of. rewrite elem_of_registry.
    intros [Hreg Hn]. split; [|done].
    apply elem_of_histogram_names in Hn as [Hn|(h & Hh & Hname)];
      [by apply not_elem_of_empty in Hn|].
    apply payload_loop_sound in E.
    destruct (E group eq_refl) as (payload & payload_fields & H1 & H2 & H3 & H4 & H5).
    by exists payload, payload_fields, group, h.
Qed.

Lemma classification_sound_witness :
  (has_field sample_schema is_scalar_field scenario_name ∧
   registered "scalar/" Scalar.scalar_probe_name sample_keys scenario_name) ∧
  (has_field sample_schema (is_histogram_field "histogram") "histogram_parent_gc_ms" ∧
   registered "histogram/" Scalar.histogram_probe_name sample_keys
              (Scalar.histogram_field_name "histogram_parent_gc_ms")) ∧
  (is_payload_histogram sample_schema "histograms" "gc_ms" ∧
   registered "histogram/" Histogram.histogram_probe_name sample_keys "gc_ms").
Proof.
  refine (conj _ (conj _ _)).
  - apply (proj1 (classification_sound sample_schema sample_keys "scalar" scenario_name)
                 (mkBuckets {[ scenario_name ]} ∅ ∅)); compute_done.
  - apply (proj1 (proj2 (classification_sound sample_schema sample_keys
                           "histogram" "histogram_parent_gc_ms"))
                 {[ "histogram_parent_gc_ms" ]}); compute_done.
  - apply (proj2 (proj2 (classification_sound sample_schema sample_keys "histograms" "gc_ms"))
                 {[ "gc_ms" ]}); compute_done.
Defined.

(** ** Shapes the classifiers admit *)

(** C1, on the code.  The classifiers test less than the shape of the
    metric type.  [get_scalar_probes], whose docstring says that non-integer
    scalar probes are not included, takes every [scalar_parent] record whose
    nested value is no [BOOLEAN] for a keyed scalar and never reads the type
    of the key: a record with [INTEGER] keys and [STRING] values is returned
    in [keyed], and the driver prints a query that aggregates it under the
    declared type of a [STRING] key and an [INT64] value.
    [get_histogram_type] reads the type of the first inner field of a keyed
    histogram and not of the second: a record whose inner values are
    [STRING]s is returned as a keyed histogram.  [get_histogram_probes] of
    the histogram generator reads no type at all: a [BOOLEAN] column of the
    group is returned. *)
Theorem classification_admits_other_shapes :
  (Scalar.get_scalar_probes [text_valued_record] ["scalar/a.label"]
   = Ok (mkBuckets ∅ ∅ {[ "scalar_parent_a_label" ]}) ∧
   ¬ spec_keyed_scalar_shape text_valued_record ∧
   ∃ out, Scalar.main elements "keyed-scalar" [text_valued_record] ["scalar/a.label"]
          = Ok out ∧
          contains out (keyed_scalar_fragment "scalar_parent_a_label") = true ∧
          contains out keyed_scalar_value_type = true) ∧
  (Scalar.get_histogram_probes [text_valued_keyed_histogram] ["histogram/A_MAP"]
                               "keyed-histogram"
   = Ok {[ "histogram_parent_a_map" ]} ∧
   ¬ spec_histogram_shape "keyed-histogram" text_valued_keyed_histogram) ∧
  (Histogram.get_histogram_probes boolean_payload_schema ["histogram/A_FLAG"] "histograms"
   = Ok (Some {[ "a_flag" ]}) ∧
   ∀ tag, ¬ spec_histogram_shape tag boolean_column) ∧
  ¬ (∀ schema data_keys r n,
       Scalar.get_scalar_probes schema data_keys = Ok r → n ∈ keyed r →
       ∃ f, f ∈ schema ∧ f_name f = n ∧ spec_keyed_scalar_shape f).
Proof.
  assert (¬ spec_keyed_scalar_shape text_valued_record) as Hk.
  { intros (_ & key_value & key & value & Hf & _ & Hp & Hkey & _).
    injection Hf as <-. injection Hp as <- <-. discriminate Hkey. }
  assert (Scalar.get_scalar_probes [text_valued_record] ["scalar/a.label"]
          = Ok (mkBuckets ∅ ∅ {[ "scalar_parent_a_label" ]})) as Hget by compute_done.
  refine (conj _ (conj _ (conj _ _))).
  - split; [exact Hget|]. split; [exact Hk|].
    eexists. split; [vm_compute; reflexivity|]. split; by vm_compute.
  - split; [compute_done|].
    intros (_ & key_value & rest & key & value & Hf & Hp & H).
    injection Hf as <- <-. injection Hp as <- <-.
    destruct H as [(? & _)|[(? & _)|(_ & _ & _ & kv & rest' & k & v & Hf' & Hp' & _ & Hv)]];
      try done.
    injection Hf' as <- <-. injection Hp' as <- <-. discriminate Hv.
  - split; [compute_done|]. by intros tag (Ht & _).
  - intros H.
    destruct (H [text_valued_record] ["scalar/a.label"] _ "scalar_parent_a_label" Hget)
      as (f & Hf & _ & Hs).
    + cbn [keyed]. by apply elem_of_singleton.
    + apply list_elem_of_singleton in Hf as ->. by apply Hk.
Qed.

(** ** Iteration of a set *)

Section Iteration.

Lemma iterates_empty l : iterates ∅ l → l = [].
Proof.
  intros [_ H]. destruct l as [|x l]; [done|].
  exfalso. apply (not_elem_of_empty (C:=gset string) x), H, list_elem_of_here.
Qed.

Lemma iterates_singleton n l : iterates {[ n ]} l → l = [n].
Proof.
  intros [Hnd H].
  assert (l ≡ₚ [n]) as Hp.
  { apply NoDup_Permutation; [done|apply NoDup_singleton|].
    intros x. rewrite H, elem_of_singleton, list_elem_of_singleton. done. }
  by apply Permutation_singleton_r in Hp.
Qed.

Lemma iterates_permutation X l1 l2 : iterates X l1 → iterates X l2 → l1 ≡ₚ l2.
Proof.
  intros [Hn1 H1] [Hn2 H2]. apply NoDup_Permutation; [done|done|].
  intros x. by rewrite H1, H2.
Qed.

Lemma iterates_list_to_set (l l' : list string) :
  NoDup l → l' ≡ₚ l → iterates (list_to_set l) l'.
Proof.
  intros Hn Hp. split; [by rewrite Hp|].
  intros x. by rewrite elem_of_list_to_set, Hp.
Qed.

Lemma elements_iterates X : iterates X (elements X).
Proof. split; [apply NoDup_elements|]. intros x. apply elem_of_elements. Qed.

End Iteration.

(** ** The scalar scenario *)

Lemma scalar_registered (data_keys : list string) x :
  x ∈ data_keys → startswith x "scalar/" = true →
  Scalar.scalar_probe_name x ∈ Scalar.scalar_probes_of data_keys.
Proof.
  intros Hx Hp. unfold Scalar.scalar_probes_of. apply elem_of_registry. by exists x.
Qed.

(** The classification of the scenario's one-field schema. *)
Lemma scenario_classified :
  Scalar.get_scalar_probes [scenario_field] [scenario_key]
  = Ok (mkBuckets {[ scenario_name ]} ∅ ∅).
Proof. compute_done. Qed.

(** The driver on the scenario prints the query of the one-probe set. *)
Lemma scenario_main_query set_order :
  (∀ X, iterates X (set_order X)) →
  Scalar.main set_order "scalar" [scenario_field] [scenario_key]
  = scalar_query (mkBuckets [scenario_name] [] []) "scalar".
Proof.
  intros Horder. unfold Scalar.main, bind.
  change (in_tuple "scalar" ["scalar"; "keyed-scalar"]) with true. cbv iota.
  rewrite scenario_classified.
  cbn [scalars booleans keyed].
  by rewrite (iterates_singleton _ _ (Horder _)), (iterates_empty _ (Horder _)).
Qed.

(** C9.  A schema field [scalar_parent_telemetry_test] of type [INTEGER]
    with the registry key [scalar/telemetry.test] is placed in the bucket
    [scalars]; for it the composer emits exactly four fragments (max, avg,
    min, sum), each an aggregate over the window [w1], which the query
    partitions by client, date, OS, application version, build id and
    channel. *)
Theorem scalar_scenario :
  (∀ schema data_keys field r,
     field ∈ schema → f_name field = scenario_name → f_type field = "INTEGER" →
     scenario_key ∈ data_keys →
     Scalar.get_scalar_probes schema data_keys = Ok r →
     scenario_name ∈ scalars r) ∧
  Scalar.get_scalar_probes [scenario_field] [scenario_key]
  = Ok (mkBuckets {[ scenario_name ]} ∅ ∅) ∧
  Scalar.scalar_probe_structs (mkBuckets [scenario_name] [] []) = scenario_fragments ∧
  Forall (λ fragment, contains fragment ") OVER w1," = true) scenario_fragments ∧
  (∃ out, scalar_query (mkBuckets [scenario_name] [] []) "scalar" = Ok out ∧
          contains out (join Scalar.fragment_separator scenario_fragments) = true ∧
          contains out scalar_window_w1 = true) ∧
  (∀ set_order, (∀ X, iterates X (set_order X)) →
     Scalar.main set_order "scalar" [scenario_field] [scenario_key]
     = scalar_query (mkBuckets [scenario_name] [] []) "scalar").
Proof.
  refine (conj _ (conj _ (conj _ (conj _ (conj _ _))))).
  - intros schema data_keys field r Hf Hn Ht Hk. unfold Scalar.get_scalar_probes, bind.
    destruct (for_each _ _ _) as [st|] eqn:E; [|done]. intros [= <-]. simpl.
    apply elem_of_intersection. split.
    + by apply (scalar_registered data_keys scenario_key).
    + apply scalar_loop_complete in E as [_ E]. rewrite <- Hn. apply E; [done|].
      split; [by rewrite Hn|done].
  - apply scenario_classified.
  - by vm_compute.
  - repeat constructor.
  - eexists. split; [vm_compute; reflexivity|]. split; by vm_compute.
  - apply scenario_main_query.
Qed.

Lemma scalar_scenario_witness :
  scenario_name ∈ scalars (mkBuckets ({[ scenario_name ]} : gset string) ∅ ∅) ∧
  Scalar.main elements "scalar" [scenario_field] [scenario_key]
  = scalar_query (mkBuckets [scenario_name] [] []) "scalar".
Proof.
  split.
  - apply (proj1 scalar_scenario [scenario_field] [scenario_key] scenario_field).
    + apply list_elem_of_here.
    + reflexivity.
    + reflexivity.
    + apply list_elem_of_here.
    + apply scenario_classified.
  - apply (proj2 (proj2 (proj2 (proj2 (proj2 scalar_scenario))))), elements_iterates.
Defined.

(** ** The reverse mapping of [Scalar.get_histogram_probes] *)

Section ReverseMapping.

Variable t : string.

Lemma for_each_app {A St : Type} (body : St → A → result St) (l1 l2 : list A) st :
  for_each body (l1 ++ l2) st = bind (for_each body l1 st) (for_each body l2).
Proof.
  revert st. induction l1 as [|x l1 IH]; intros st; [done|].
  cbn [for_each app]. unfold bind at 1 3. by destruct (body st x).
Qed.

Lemma histogram_step_candidate st f :
  is_histogram_field t f →
  Scalar.histogram_field_step t st f
  = Ok ({[ Scalar.histogram_field_name (f_name f) ]} ∪ st.1,
        <[ Scalar.histogram_field_name (f_name f) := f_name f ]> st.2).
Proof.
  intros [Hp Ht]. unfold Scalar.histogram_field_step, bind. rewrite Hp, Ht. simpl.
  by rewrite bool_decide_eq_true_2.
Qed.

Lemma histogram_step_lookup st f st' k :
  Scalar.histogram_field_step t st f = Ok st' →
  (is_histogram_field t f → Scalar.histogram_field_name (f_name f) ≠ k) →
  st'.2 !! k = st.2 !! k.
Proof.
  unfold Scalar.histogram_field_step, bind. intros H Hk.
  destruct (startswith (f_name f) "histogram") eqn:Hp; simpl in H; [|by injection H as <-].
  destruct (Scalar.get_histogram_type (Scalar.keyval_fields_of f)) as [ty|] eqn:Ht; [|done].
  case_bool_decide as Heq; simpl in H; [|by injection H as <-].
  injection H as <-. subst ty. simpl. apply lookup_insert_ne. by apply Hk.
Qed.

Lemma histogram_loop_lookup l st st' k :
  for_each (Scalar.histogram_field_step t) l st = Ok st' →
  (∀ g, g ∈ l → is_histogram_field t g → Scalar.histogram_field_name (f_name g) ≠ k) →
  st'.2 !! k = st.2 !! k.
Proof.
  revert st. induction l as [|x l IH]; intros st H Hk; [by injection H as <-|].
  cbn [for_each] in H. unfold bind in H.
  destruct (Scalar.histogram_field_step t st x) as [st1|] eqn:E; [|done].
  rewrite (IH st1 H), (histogram_step_lookup st x st1 k E).
  - done.
  - apply Hk, list_elem_of_here.
  - intros g Hg. by apply Hk, list_elem_of_further.
Qed.

Lemma histogram_loop_keeps l st st' k :
  for_each (Scalar.histogram_field_step t) l st = Ok st' →
  is_Some (st.2 !! k) → is_Some (st'.2 !! k).
Proof.
  intros H Hs. revert H.
  apply (for_each_invariant _ (λ st0, is_Some (st0.2 !! k))); [|done].
  intros st0 x st0' _ Hs0 E.
  destruct (decide (is_histogram_field t x ∧ Scalar.histogram_field_name (f_name x) = k))
    as [[Hc <-]|Hn].
  - rewrite histogram_step_candidate in E by done. injection E as <-. simpl.
    rewrite lookup_insert_eq. eauto.
  - rewrite (histogram_step_lookup st0 x st0' k E); [done|]. intros Hc Hk. by apply Hn.
Qed.

End ReverseMapping.

(** C7, on the code.  [get_histogram_probes] of the scalar generator keeps
    the reverse mapping in a dict keyed by the compared name and assigns it
    in schema order, with nothing for a name that is there already.  On the
    schema that has [histogram_content_foo] before [histogram_parent_foo],
    both plain histograms, with the registry key [histogram/FOO]: both
    fields pass the filter and are compared under [foo], which the registry
    holds; the mapping ends with the parent's name under [foo], so the round
    trip of the content field gives the parent's name, and the returned
    probe set holds the parent field alone.  With the two fields in the
    other order it holds the content field alone: one relevant probe is lost
    either way, and which one depends on the order of the schema. *)
Theorem reverse_mapping_loses_earlier_name :
  (content_foo ∈ collision_schema ∧ parent_foo ∈ collision_schema ∧
   is_histogram_field "histogram" content_foo ∧
   is_histogram_field "histogram" parent_foo) ∧
  (Scalar.histogram_field_name (f_name content_foo) = "foo" ∧
   Scalar.histogram_field_name (f_name parent_foo) = "foo" ∧
   registered "histogram/" Scalar.histogram_probe_name ["histogram/FOO"] "foo") ∧
  (∃ st, for_each (Scalar.histogram_field_step "histogram") collision_schema (∅, ∅) = Ok st ∧
         st.2 !! Scalar.histogram_field_name (f_name content_foo)
         = Some "histogram_parent_foo" ∧
         st.2 !! Scalar.histogram_field_name (f_name content_foo)
         ≠ Some (f_name content_foo)) ∧
  (Scalar.get_histogram_probes collision_schema ["histogram/FOO"] "histogram"
   = Ok {[ "histogram_parent_foo" ]} ∧
   ¬ f_name content_foo ∈ ({[ "histogram_parent_foo" ]} : gset string)) ∧
  Scalar.get_histogram_probes [parent_foo; content_foo] ["histogram/FOO"] "histogram"
  = Ok {[ "histogram_content_foo" ]} ∧
  ¬ (∀ schema t st f,
       for_each (Scalar.histogram_field_step t) schema (∅, ∅) = Ok st →
       f ∈ schema → is_histogram_field t f →
       st.2 !! Scalar.histogram_field_name (f_name f) = Some (f_name f)).
Proof.
  assert (is_histogram_field "histogram" content_foo) as Hc by (by split; vm_compute).
  assert (is_histogram_field "histogram" parent_foo) as Hp by (by split; vm_compute).
  assert (for_each (Scalar.histogram_field_step "histogram") collision_schema (∅, ∅)
          = Ok ({[ "foo" ]} ∪ ({[ "foo" ]} ∪ ∅),
                <[ "foo" := "histogram_parent_foo" ]>
                  (<[ "foo" := "histogram_content_foo" ]> ∅))) as Hst by compute_done.
  refine (conj _ (conj _ (conj _ (conj _ (conj _ _))))).
  - split; [apply list_elem_of_here|]. split; [apply list_elem_of_further, list_elem_of_here|].
    by split.
  - split; [by vm_compute|]. split; [by vm_compute|].
    exists "histogram/FOO". split; [apply list_elem_of_here|]. split; by vm_compute.
  - eexists. split; [exact Hst|]. split; compute_done.
  - split; compute_done.
  - compute_done.
  - intros H. specialize (H collision_schema "histogram" _ content_foo Hst
                            (list_elem_of_here _ _) Hc).
    revert H. compute_done.
Qed.

(** What the loop leaves in the reverse mapping, on every schema: for every
    field that passes the structural filter, one original name under the
    field's compared name, the name of a field of the schema that passes the
    filter and has this compared name; it is the field's own name when no
    later field that passes the filter has the same compared name. *)
Lemma reverse_mapping_last_write_wins (schema : list SchemaField) (t : string)
    (st : gset string * gmap string string) :
  for_each (Scalar.histogram_field_step t) schema (∅, ∅) = Ok st →
  (∀ f, f ∈ schema → is_histogram_field t f →
     ∃ original,
       st.2 !! Scalar.histogram_field_name (f_name f) = Some original ∧
       Scalar.histogram_field_name original = Scalar.histogram_field_name (f_name f) ∧
       has_field schema (is_histogram_field t) original) ∧
  (∀ before f after,
     schema = before ++ f :: after → is_histogram_field t f →
     (∀ g, g ∈ after → is_histogram_field t g →
           Scalar.histogram_field_name (f_name g) ≠ Scalar.histogram_field_name (f_name f)) →
     st.2 !! Scalar.histogram_field_name (f_name f) = Some (f_name f)).
Proof.
  intros H.
  assert (∀ before f after,
            schema = before ++ f :: after → is_histogram_field t f →
            ∃ st1 st2,
              for_each (Scalar.histogram_field_step t) before (∅, ∅) = Ok st1 ∧
              st2 = ({[ Scalar.histogram_field_name (f_name f) ]} ∪ st1.1,
                     <[ Scalar.histogram_field_name (f_name f) := f_name f ]> st1.2) ∧
              for_each (Scalar.histogram_field_step t) after st2 = Ok st) as Hsplit.
  { intros before f after -> Hf. rewrite for_each_app in H. unfold bind in H.
    destruct (for_each _ before _) as [st1|]; [|done].
    cbn [for_each] in H. rewrite histogram_step_candidate in H by done.
    eexists _, _. split; [done|]. split; [done|]. exact H. }
  split.
  - intros f Hf Hshape.
    destruct (list_elem_of_split _ _ Hf) as (before & after & Heq).
    destruct (Hsplit before f after Heq Hshape) as (st1 & st2 & _ & -> & Hafter).
    assert (is_Some (st.2 !! Scalar.histogram_field_name (f_name f))) as [original Ho].
    { apply (histogram_loop_keeps t after _ _ _ Hafter). simpl.
      rewrite lookup_insert_eq. eauto. }
    exists original. split; [done|].
    apply histogram_loop_sound in H as [_ Hmap]. by apply Hmap.
  - intros before f after Heq Hshape Hlater.
    destruct (Hsplit before f after Heq Hshape) as (st1 & st2 & _ & -> & Hafter).
    rewrite (histogram_loop_lookup t after _ _ _ Hafter Hlater). simpl.
    apply lookup_insert_eq.
Qed.

Lemma reverse_mapping_last_write_wins_witness :
  ∃ st : gset string * gmap string string,
    (∀ f, f ∈ collision_schema → is_histogram_field "histogram" f →
       ∃ original,
         st.2 !! Scalar.histogram_field_name (f_name f) = Some original ∧
         Scalar.histogram_field_name original = Scalar.histogram_field_name (f_name f) ∧
         has_field collision_schema (is_histogram_field "histogram") original) ∧
    (∀ before f after,
       collision_schema = before ++ f :: after → is_histogram_field "histogram" f →
       (∀ g, g ∈ after → is_histogram_field "histogram" g →
             Scalar.histogram_field_name (f_name g) ≠ Scalar.histogram_field_name (f_name f)) →
       st.2 !! Scalar.histogram_field_name (f_name f) = Some (f_name f)).
Proof.
  exists ({[ "foo" ]} ∪ ({[ "foo" ]} ∪ ∅),
          <[ "foo" := "histogram_parent_foo" ]> (<[ "foo" := "histogram_content_foo" ]> ∅)).
  apply (reverse_mapping_last_write_wins collision_schema "histogram"). compute_done.
Defined.

(** ** The shape classifier raises on a partial match *)

(** Away from the pair of a [STRING] key and a [RECORD] value the function
    returns: a plain or a string histogram, or no match. *)
Lemma get_histogram_type_returns_elsewhere (keyval_fields : list SchemaField) :
  (∀ key value, keyval_fields = [key; value] →
                ¬ (f_type key = "STRING" ∧ f_type value = "RECORD")) →
  ∃ tag, Scalar.get_histogram_type keyval_fields = Ok tag ∧
         tag ∈ [None; Some "histogram"; Some "string-histogram"].
Proof.
  intros H.
  destruct keyval_fields as [|key [|value [|third rest]]];
    try (exists None; split; [reflexivity|apply list_elem_of_here]).
  specialize (H key value eq_refl).
  unfold Scalar.get_histogram_type, Scalar.type_at_is, index.
  cbn [length Nat.eqb and_then bind lookup list_lookup].
  destruct (String.eqb (f_type key) "INTEGER") eqn:E1;
    destruct (String.eqb (f_type value) "INTEGER") eqn:E2;
    destruct (String.eqb (f_type key) "STRING") eqn:E3;
    destruct (String.eqb (f_type value) "RECORD") eqn:E4;
    cbn [and_then bind];
    try (eexists; split; [reflexivity|]; set_solver).
  all: exfalso; apply H; split; by apply String.eqb_eq.
Qed.

(** C8, on the code.  On a pair of a [STRING] key and a [RECORD] value whose
    first field has no fields of its own (a map from strings to structs),
    [get_histogram_type] raises [KeyError] where the claim has it return
    its no-match result; the error ends the classification, and the run of
    the driver, for every histogram selector.  On every list that is no
    pair of a [STRING] key and a [RECORD] value the function does return. *)
Theorem get_histogram_type_raises_on_partial_match :
  Scalar.get_histogram_type string_to_struct_pair = Raise (KeyError "fields") ∧
  (∀ data_keys t,
     Scalar.get_histogram_probes struct_map_schema data_keys t = Raise (KeyError "fields")) ∧
  (∀ set_order data_keys,
     Scalar.main set_order "histogram" struct_map_schema data_keys
     = Raise (KeyError "fields")) ∧
  (∀ keyval_fields,
     (∀ key value, keyval_fields = [key; value] →
                   ¬ (f_type key = "STRING" ∧ f_type value = "RECORD")) →
     ∃ tag, Scalar.get_histogram_type keyval_fields = Ok tag ∧
            tag ∈ [None; Some "histogram"; Some "string-histogram"]).
Proof.
  split; [reflexivity|]. split; [reflexivity|]. split; [reflexivity|].
  apply get_histogram_type_returns_elsewhere.
Qed.

(** ** The absent payload group *)

(** C4, on the code.  When the payload has no group named for the selector,
    [Histogram.get_histogram_probes] returns [None] (the value of its bare
    [return]), not the empty set; the composer then raises [TypeError] on
    the loop over it, and the driver prints nothing. *)
Theorem absent_group_returns_none_and_driver_raises :
  (∀ data_keys,
     Histogram.get_histogram_probes no_keyed_group_schema data_keys "keyed_histograms"
     = Ok None) ∧
  (∀ set_order data_keys,
     Histogram.main set_order "keyed_histograms" no_keyed_group_schema data_keys
     = Raise (TypeError "'NoneType' object is not iterable")) ∧
  (∀ set_order data_keys,
     Histogram.main set_order "histograms" [] data_keys
     = Raise (TypeError "'NoneType' object is not iterable")).
Proof.
  split; [reflexivity|]. split; [reflexivity|]. reflexivity.
Qed.

(** ** The order of the fragments *)

Section FragmentOrder.

Lemma foldl_append_flat_map {A B : Type} (f : A → list B) (l : list A) (acc : list B) :
  foldl (λ acc x, acc ++ f x) acc l = acc ++ flat_map f l.
Proof.
  revert acc. induction l as [|x l IH]; intros acc; simpl.
  - by rewrite app_nil_r.
  - by rewrite IH, app_assoc.
Qed.

Lemma scalar_probe_structs_flat_map (probes : buckets (list string)) :
  Scalar.scalar_probe_structs probes
  = flat_map Scalar.scalar_fragments (scalars probes)
    ++ flat_map Scalar.boolean_fragments (booleans probes).
Proof. unfold Scalar.scalar_probe_structs. by rewrite !foldl_append_flat_map. Qed.

End FragmentOrder.

(** C2, the claim as stated fails: the composers emit the fragments in the
    order in which the probe set is iterated, so two iterations of one set
    give different texts. *)
Lemma fragment_order_depends_on_iteration :
  iterates (list_to_set ["a"; "b"]) ["a"; "b"] ∧
  iterates (list_to_set ["a"; "b"]) ["b"; "a"] ∧
  scalar_query (mkBuckets ["a"; "b"] [] []) "scalar"
  ≠ scalar_query (mkBuckets ["b"; "a"] [] []) "scalar" ∧
  Histogram._get_keyed_histogram_sql (Some ["a"; "b"])
  ≠ Histogram._get_keyed_histogram_sql (Some ["b"; "a"]) ∧
  ¬ (∀ (X : gset string) l1 l2 t,
       iterates X l1 → iterates X l2 →
       scalar_query (mkBuckets l1 [] []) t = scalar_query (mkBuckets l2 [] []) t).
Proof.
  assert (NoDup ["a"; "b"]) as Hn by compute_done.
  assert (iterates (list_to_set ["a"; "b"]) ["a"; "b"]) as H1
    by (by apply iterates_list_to_set).
  assert (iterates (list_to_set ["a"; "b"]) ["b"; "a"]) as H2
    by (apply iterates_list_to_set; [done|apply Permutation_swap]).
  assert (scalar_query (mkBuckets ["a"; "b"] [] []) "scalar"
          ≠ scalar_query (mkBuckets ["b"; "a"] [] []) "scalar") as H3 by compute_done.
  split; [done|]. split; [done|]. split; [done|]. split; [compute_done|].
  intros H. exact (H3 (H _ _ _ "scalar" H1 H2)).
Qed.


(** * Further properties *)

(** ** The loop of [Scalar.get_scalar_probes] *)

Section ScalarLoop.

Lemma keyed_value_ok f v :
  keyed_value f = Ok v ↔
  ∃ key_value rest pair,
    f_fields f = Some (key_value :: rest) ∧ f_fields key_value = Some pair ∧
    pair !! 1 = Some v.
Proof.
  unfold keyed_value, bind, item_fields, index. split.
  - destruct (f_fields f) as [[|key_value rest]|] eqn:Hf; simpl; try done.
    destruct (f_fields key_value) as [pair|] eqn:Hk; [|done].
    destruct (pair !! 1) as [value|] eqn:E; [|done].
    intros [= <-]. by exists key_value, rest, pair.
  - intros (key_value & rest & pair & -> & Hk & Hv). simpl. by rewrite Hk, Hv.
Qed.

Lemma keyed_value_error f e : keyed_value f = Raise e → is_lookup_error e.
Proof.
  unfold keyed_value, bind, item_fields, index, is_lookup_error.
  destruct (f_fields f) as [[|key_value rest]|]; simpl; [intros [= <-]; by right| |intros [= <-]; by left].
  destruct (f_fields key_value) as [pair|]; [|intros [= <-]; by left].
  destruct (pair !! 1); [done|intros [= <-]; by right].
Qed.

Lemma is_keyed_scalar_field_value f :
  is_keyed_scalar_field f ↔
  is_scalar_record f ∧ ∃ value, keyed_value f = Ok value ∧ f_type value ≠ "BOOLEAN".
Proof.
  unfold is_keyed_scalar_field, is_scalar_record. split.
  - intros (Hp & Ht & key_value & rest & pair & value & H1 & H2 & H3 & H4).
    split; [done|]. exists value. split; [|done]. apply keyed_value_ok.
    by exists key_value, rest, pair.
  - intros ((Hp & Ht) & value & Hv & Hb). split; [done|]. split; [done|].
    apply keyed_value_ok in Hv as (key_value & rest & pair & H1 & H2 & H3).
    by exists key_value, rest, pair, value.
Qed.

Lemma keyed_value_bind {B : Type} f (k : SchemaField → result B) :
  (let! key_value_fields := item_fields f in
   let! key_value := index key_value_fields 0 in
   let! pair := item_fields key_value in
   let! value := index pair 1 in
   k value)
  = bind (keyed_value f) k.
Proof.
  unfold keyed_value, bind.
  destruct (item_fields f) as [l|]; [|done].
  destruct (index l 0) as [key_value|]; [|done].
  by destruct (item_fields key_value).
Qed.

Lemma scalar_field_step_case st f :
  scalar_step_case st f (Scalar.scalar_field_step st f).
Proof.
  unfold Scalar.scalar_field_step.
  destruct (startswith (f_name f) "scalar_parent") eqn:Hp; simpl.
  2:{ apply step_skip; intros [? _]; congruence. }
  destruct (String.eqb (f_type f) "INTEGER") eqn:Hi.
  { apply String.eqb_eq in Hi. by apply step_integer. }
  destruct (String.eqb (f_type f) "BOOLEAN") eqn:Hb.
  { apply String.eqb_eq in Hb. by apply step_boolean. }
  destruct (String.eqb (f_type f) "RECORD") eqn:Hr.
  2:{ apply String.eqb_neq in Hi, Hb, Hr. apply step_skip; by intros [_ ?]. }
  apply String.eqb_eq in Hr.
  rewrite keyed_value_bind.
  destruct (keyed_value f) as [value|e] eqn:Hv; simpl.
  - destruct (String.eqb (f_type value) "BOOLEAN") eqn:Hvb.
    + apply String.eqb_eq in Hvb. apply step_keyed_boolean. split; [done|]. eauto.
    + apply String.eqb_neq in Hvb. apply step_keyed, is_keyed_scalar_field_value.
      split; [done|]. eauto.
  - by apply step_raise.
Qed.

End ScalarLoop.

Section ScalarSets.

#[local] Set Warnings "-clear-no-such-hyp".

Lemma has_field_cons (x : SchemaField) l (P : SchemaField → Prop) n :
  has_field (x :: l) P n ↔ (f_name x = n ∧ P x) ∨ has_field l P n.
Proof.
  unfold has_field. split.
  - intros (f & Hf & Hn & HP). apply elem_of_cons in Hf as [->|Hf]; [by left|right; eauto].
  - intros [[Hn HP]|(f & Hf & Hn & HP)].
    + exists x. split; [apply list_elem_of_here|done].
    + exists f. split; [by apply list_elem_of_further|done].
Qed.

Lemma has_field_nil (P : SchemaField → Prop) n : ¬ has_field [] P n.
Proof. intros (f & Hf & _). by apply elem_of_nil in Hf. Qed.

(** A set of the loop's state grows by the names of the fields of its
    shape, and by nothing else. *)
Lemma scalar_loop_set (proj : Scalar.scalar_sets → gset string) (P : SchemaField → Prop) :
  (∀ st f st1 n, Scalar.scalar_field_step st f = Ok st1 →
                 (n ∈ proj st1 ↔ n ∈ proj st ∨ (f_name f = n ∧ P f))) →
  ∀ l st st' n, for_each Scalar.scalar_field_step l st = Ok st' →
                (n ∈ proj st' ↔ n ∈ proj st ∨ has_field l P n).
Proof.
  intros Hstep l. induction l as [|x l IH]; intros st st' n H.
  - injection H as <-. pose proof (has_field_nil P n). tauto.
  - cbn [for_each] in H. unfold bind in H.
    destruct (Scalar.scalar_field_step st x) as [st1|] eqn:E; [|done].
    rewrite (IH st1 st' n H), (Hstep st x st1 n E), has_field_cons. tauto.
Qed.

Lemma keyed_kinds_exclusive f :
  is_keyed_scalar_field f → is_keyed_boolean_field f → False.
Proof.
  rewrite is_keyed_scalar_field_value.
  intros (_ & v & Hv & Hn) (_ & v' & Hv' & Hb). congruence.
Qed.

(** One turn of the loop, on the four sets at once. *)
Lemma scalar_step_sets st f st1 n :
  Scalar.scalar_field_step st f = Ok st1 →
  (n ∈ Scalar.main_summary_scalars st1
   ↔ n ∈ Scalar.main_summary_scalars st ∨ (f_name f = n ∧ is_scalar_field f)) ∧
  (n ∈ Scalar.main_summary_boolean_scalars st1
   ↔ n ∈ Scalar.main_summary_boolean_scalars st ∨ (f_name f = n ∧ is_boolean_field f)) ∧
  (n ∈ Scalar.main_summary_record_scalars st1
   ↔ n ∈ Scalar.main_summary_record_scalars st ∨ (f_name f = n ∧ is_keyed_scalar_field f)) ∧
  (n ∈ Scalar.main_summary_boolean_record_scalars st1
   ↔ n ∈ Scalar.main_summary_boolean_record_scalars st
     ∨ (f_name f = n ∧ is_keyed_boolean_field f)).
Proof.
  intros E.
  pose proof (scalar_field_step_case st f) as Hc. rewrite E in Hc.
  pose proof (keyed_kinds_exclusive f) as Hx.
  inversion Hc as [Hf|Hf|Hf|Hf| |Hf1 Hf2 Hf3]; subst; simpl;
    rewrite ?elem_of_union, ?elem_of_singleton;
    try (apply is_keyed_scalar_field_value in Hf as Hf');
    unfold is_scalar_field, is_boolean_field, is_keyed_boolean_field, is_scalar_record in *;
    rewrite ?is_keyed_scalar_field_value in *;
    unfold is_scalar_record in *;
    naive_solver congruence.
Qed.

(** The four sets when the loop ends. *)
Lemma scalar_loop_sets l st st' n :
  for_each Scalar.scalar_field_step l st = Ok st' →
  (n ∈ Scalar.main_summary_scalars st'
   ↔ n ∈ Scalar.main_summary_scalars st ∨ has_field l is_scalar_field n) ∧
  (n ∈ Scalar.main_summary_boolean_scalars st'
   ↔ n ∈ Scalar.main_summary_boolean_scalars st ∨ has_field l is_boolean_field n) ∧
  (n ∈ Scalar.main_summary_record_scalars st'
   ↔ n ∈ Scalar.main_summary_record_scalars st ∨ has_field l is_keyed_scalar_field n) ∧
  (n ∈ Scalar.main_summary_boolean_record_scalars st'
   ↔ n ∈ Scalar.main_summary_boolean_record_scalars st
     ∨ has_field l is_keyed_boolean_field n).
Proof.
  intros H. refine (conj _ (conj _ (conj _ _))).
  - revert l st st' n H. apply scalar_loop_set. intros st f st1 n E.
    apply (scalar_step_sets st f st1 n E).
  - revert l st st' n H. apply scalar_loop_set. intros st f st1 n E.
    apply (scalar_step_sets st f st1 n E).
  - revert l st st' n H. apply scalar_loop_set. intros st f st1 n E.
    apply (scalar_step_sets st f st1 n E).
  - revert l st st' n H. apply scalar_loop_set. intros st f st1 n E.
    apply (scalar_step_sets st f st1 n E).
Qed.

End ScalarSets.

(** ** The outcome of a loop *)

Section LoopOutcome.

Context {A St : Type} (body : St → A → result St).
Context (passes : A → Prop) (fails : A → exn → Prop).
Hypothesis body_passes : ∀ st x, passes x → ∃ st', body st x = Ok st'.
Hypothesis body_fails : ∀ st x e, fails x e → body st x = Raise e.
Hypothesis passes_or_fails : ∀ x, passes x ∨ ∃ e, fails x e.

Lemma for_each_passes l st : Forall passes l → ∃ st', for_each body l st = Ok st'.
Proof.
  intros H. revert st. induction H as [|x l Hx _ IH]; intros st; [by exists st|].
  cbn [for_each]. destruct (body_passes st x Hx) as [st1 ->]. apply IH.
Qed.

Lemma for_each_first_raise l st e :
  first_raise fails passes l e → for_each body l st = Raise e.
Proof.
  intros (before & x & after & -> & Hb & Hx).
  rewrite for_each_app.
  destruct (for_each_passes before st Hb) as [st1 ->]. cbn [bind for_each].
  by rewrite (body_fails st1 x e Hx).
Qed.

Lemma passes_or_first_raise l : Forall passes l ∨ ∃ e, first_raise fails passes l e.
Proof.
  induction l as [|x l IH]; [by left|].
  destruct (passes_or_fails x) as [Hx|[e Hx]].
  - destruct IH as [IH|(e & before & y & after & -> & Hb & Hy)].
    + left. by constructor.
    + right. exists e, (x :: before), y, after. split; [done|]. split; [by constructor|done].
  - right. exists e, [], x, l. split; [done|]. split; [constructor|done].
Qed.

Lemma for_each_ok_iff l st :
  (∃ st', for_each body l st = Ok st') ↔ Forall passes l.
Proof.
  split; [|apply for_each_passes].
  intros [st' H]. destruct (passes_or_first_raise l) as [|[e He]]; [done|].
  apply (for_each_first_raise l st) in He. congruence.
Qed.

Lemma for_each_raise_iff l st e :
  for_each body l st = Raise e ↔ first_raise fails passes l e.
Proof.
  split; [|apply for_each_first_raise].
  intros H. destruct (passes_or_first_raise l) as [Hp|[e' He]].
  - destruct (for_each_passes l st Hp) as [st' ?]. congruence.
  - pose proof (for_each_first_raise l st e' He). by replace e with e' by congruence.
Qed.

End LoopOutcome.

(** ** The classification of the scalars *)

Section ScalarClassification.

#[local] Set Warnings "-clear-no-such-hyp".

Lemma scalar_step_passes st f :
  scalar_record_passes f → ∃ st', Scalar.scalar_field_step st f = Ok st'.
Proof.
  intros Hp. destruct (scalar_field_step_case st f) as [| | | |e Hr He|]; eauto.
  destruct (Hp Hr) as [v Hv]. congruence.
Qed.

Lemma scalar_step_fails st f e :
  scalar_record_fails f e → Scalar.scalar_field_step st f = Raise e.
Proof.
  intros [Hr He].
  pose proof (scalar_field_step_case st f) as Hc.
  inversion Hc as [Hf Heq|Hf Heq|Hf Heq|Hf Heq|e' _ He' Heq|Hf1 Hf2 Hf3 Heq];
    try (apply is_keyed_scalar_field_value in Hf);
    unfold is_scalar_field, is_boolean_field, is_keyed_boolean_field, is_scalar_record in *;
    naive_solver congruence.
Qed.

Lemma scalar_passes_or_fails f :
  scalar_record_passes f ∨ ∃ e, scalar_record_fails f e.
Proof.
  destruct (keyed_value f) as [v|e] eqn:E.
  - left. intros _. eauto.
  - destruct (startswith (f_name f) "scalar_parent") eqn:Hp.
    + destruct (String.eqb_spec (f_type f) "RECORD") as [Ht|Ht].
      * right. by exists e.
      * left. by intros [_ ?].
    + left. intros [? _]. congruence.
Qed.

Lemma get_scalar_probes_ok schema data_keys r :
  Scalar.get_scalar_probes schema data_keys = Ok r ↔
  ∃ st, for_each Scalar.scalar_field_step schema (Scalar.mkScalarSets ∅ ∅ ∅ ∅) = Ok st ∧
        r = mkBuckets (Scalar.scalar_probes_of data_keys ∩ Scalar.main_summary_scalars st)
                      (Scalar.scalar_probes_of data_keys ∩ Scalar.main_summary_boolean_scalars st)
                      (Scalar.scalar_probes_of data_keys ∩ Scalar.main_summary_record_scalars st).
Proof.
  unfold Scalar.get_scalar_probes, bind.
  destruct (for_each _ _ _) as [st|e]; split.
  - intros [= <-]. by exists st.
  - by intros (st' & [= <-] & ->).
  - done.
  - by intros (st' & ? & _).
Qed.

Lemma get_scalar_probes_raise schema data_keys e :
  Scalar.get_scalar_probes schema data_keys = Raise e ↔
  for_each Scalar.scalar_field_step schema (Scalar.mkScalarSets ∅ ∅ ∅ ∅) = Raise e.
Proof.
  unfold Scalar.get_scalar_probes, bind.
  destruct (for_each _ _ _) as [st|e']; [|split; intros [= ->]; reflexivity].
  split; intros; discriminate.
Qed.

(** The buckets, name by name. *)
Lemma scalar_buckets_elem schema data_keys r n :
  Scalar.get_scalar_probes schema data_keys = Ok r →
  (n ∈ scalars r ↔
     has_field schema is_scalar_field n ∧
     registered "scalar/" Scalar.scalar_probe_name data_keys n) ∧
  (n ∈ booleans r ↔
     has_field schema is_boolean_field n ∧
     registered "scalar/" Scalar.scalar_probe_name data_keys n) ∧
  (n ∈ keyed r ↔
     has_field schema is_keyed_scalar_field n ∧
     registered "scalar/" Scalar.scalar_probe_name data_keys n).
Proof.
  intros H. apply get_scalar_probes_ok in H as (st & H & ->).
  destruct (scalar_loop_sets _ _ _ n H) as (H1 & H2 & H3 & _). simpl in *.
  unfold Scalar.scalar_probes_of.
  rewrite !elem_of_intersection, !elem_of_registry, H1, H2, H3.
  rewrite !elem_of_empty. tauto.
Qed.

Lemma has_field_unique schema (P Q : SchemaField → Prop) n :
  unique_names schema → has_field schema P n → has_field schema Q n →
  ∃ f, f ∈ schema ∧ f_name f = n ∧ P f ∧ Q f.
Proof.
  intros Hu (f & Hf & Hn & HP) (g & Hg & Hn' & HQ).
  assert (f = g) as ->; [|by exists g].
  apply list_elem_of_lookup in Hf as [i Hi]. apply list_elem_of_lookup in Hg as [j Hj].
  assert (i = j) as ->; [|congruence].
  apply (NoDup_lookup _ i j n Hu); rewrite list_lookup_fmap.
  - by rewrite Hi; simpl; rewrite Hn.
  - by rewrite Hj; simpl; rewrite Hn'.
Qed.

Lemma scalar_kinds_exclusive f :
  (is_scalar_field f → is_boolean_field f → False) ∧
  (is_scalar_field f → is_keyed_scalar_field f → False) ∧
  (is_boolean_field f → is_keyed_scalar_field f → False) ∧
  (is_keyed_boolean_field f → is_scalar_field f → False) ∧
  (is_keyed_boolean_field f → is_boolean_field f → False) ∧
  (is_keyed_boolean_field f → is_keyed_scalar_field f → False).
Proof.
  pose proof (keyed_kinds_exclusive f).
  unfold is_scalar_field, is_boolean_field, is_keyed_scalar_field, is_keyed_boolean_field,
    is_scalar_record in *.
  naive_solver congruence.
Qed.

(** X1.  The three buckets of [Scalar.get_scalar_probes] are exact: a name
    is in [scalars] when, and only when, the schema has an [INTEGER] field
    of that name that starts with [scalar_parent] and the registry has a
    [scalar/] key that is spelled as this name; the same for [booleans] with
    [BOOLEAN] fields and for [keyed] with the records whose nested value is
    no boolean.  No registered probe of the schema is left out. *)
Theorem scalar_buckets_exact (schema : list SchemaField) (data_keys : list string)
    (r : buckets (gset string)) :
  Scalar.get_scalar_probes schema data_keys = Ok r →
  ∀ n,
    (n ∈ scalars r ↔
       has_field schema is_scalar_field n ∧
       registered "scalar/" Scalar.scalar_probe_name data_keys n) ∧
    (n ∈ booleans r ↔
       has_field schema is_boolean_field n ∧
       registered "scalar/" Scalar.scalar_probe_name data_keys n) ∧
    (n ∈ keyed r ↔
       has_field schema is_keyed_scalar_field n ∧
       registered "scalar/" Scalar.scalar_probe_name data_keys n).
Proof. intros H n. by apply scalar_buckets_elem. Qed.

Lemma scalar_buckets_exact_witness :
  Scalar.get_scalar_probes mixed_scalar_schema mixed_scalar_keys = Ok mixed_scalar_buckets ∧
  ("scalar_parent_a_keyed" ∈ keyed mixed_scalar_buckets ↔
     has_field mixed_scalar_schema is_keyed_scalar_field "scalar_parent_a_keyed" ∧
     registered "scalar/" Scalar.scalar_probe_name mixed_scalar_keys "scalar_parent_a_keyed").
Proof.
  assert (Scalar.get_scalar_probes mixed_scalar_schema mixed_scalar_keys
          = Ok mixed_scalar_buckets) as H by compute_done.
  split; [exact H|].
  exact (proj2 (proj2 (scalar_buckets_exact mixed_scalar_schema mixed_scalar_keys
                         mixed_scalar_buckets H "scalar_parent_a_keyed"))).
Defined.

(** X2.  [Scalar.get_scalar_probes] returns when, and only when, every
    [RECORD] field of the schema that starts with [scalar_parent] has a first
    subfield with a second subfield of its own; otherwise it raises the error
    of the first field that has not, which is [KeyError('fields')] or
    [IndexError].  The registry has no part in it. *)
Theorem scalar_classification_outcome (schema : list SchemaField) (data_keys : list string) :
  ((∃ r, Scalar.get_scalar_probes schema data_keys = Ok r)
   ↔ Forall scalar_record_passes schema) ∧
  (∀ e, Scalar.get_scalar_probes schema data_keys = Raise e
        ↔ first_raise scalar_record_fails scalar_record_passes schema e) ∧
  (∀ e, Scalar.get_scalar_probes schema data_keys = Raise e → is_lookup_error e).
Proof.
  assert (∀ e, Scalar.get_scalar_probes schema data_keys = Raise e
               ↔ first_raise scalar_record_fails scalar_record_passes schema e) as Hraise.
  { intros e. rewrite get_scalar_probes_raise.
    apply (for_each_raise_iff _ _ _ scalar_step_passes scalar_step_fails
             scalar_passes_or_fails). }
  refine (conj _ (conj Hraise _)).
  - rewrite <- (for_each_ok_iff _ _ _ scalar_step_passes scalar_step_fails
                  scalar_passes_or_fails schema (Scalar.mkScalarSets ∅ ∅ ∅ ∅)).
    split.
    + intros [r H]. apply get_scalar_probes_ok in H as (st & H & _). by exists st.
    + intros [st H]. eexists. apply get_scalar_probes_ok. by exists st.
  - intros e H. apply Hraise in H as (before & x & after & _ & _ & _ & Hx).
    by apply (keyed_value_error x).
Qed.

(** X3.  In a schema whose field names are unique, the three buckets of
    [Scalar.get_scalar_probes] share no name: no probe is aggregated both as
    a scalar and as a boolean, or both as a plain and as a keyed scalar. *)
Theorem scalar_buckets_disjoint (schema : list SchemaField) (data_keys : list string)
    (r : buckets (gset string)) :
  unique_names schema →
  Scalar.get_scalar_probes schema data_keys = Ok r →
  buckets_disjoint r.
Proof.
  intros Hu H. unfold buckets_disjoint.
  refine (conj _ (conj _ _)); intros n Hn1 Hn2;
    destruct (scalar_buckets_elem schema data_keys r n H) as (H1 & H2 & H3);
    apply H1 in Hn1 || apply H2 in Hn1; apply H2 in Hn2 || apply H3 in Hn2;
    destruct Hn1 as [Hn1 _]; destruct Hn2 as [Hn2 _];
    destruct (has_field_unique schema _ _ n Hu Hn1 Hn2) as (f & _ & _ & HP & HQ);
    by destruct (scalar_kinds_exclusive f) as (E1 & E2 & E3 & _); eauto.
Qed.

Lemma scalar_buckets_disjoint_witness : buckets_disjoint mixed_scalar_buckets.
Proof.
  apply (scalar_buckets_disjoint mixed_scalar_schema mixed_scalar_keys).
  - unfold unique_names. compute_done.
  - compute_done.
Defined.

(** X4.  A record of the schema whose nested value is a [BOOLEAN] is
    collected by the loop of [Scalar.get_scalar_probes] and then left out:
    with unique field names, its name is in none of the three buckets,
    whatever the registry holds. *)
Theorem keyed_boolean_never_returned (schema : list SchemaField) (data_keys : list string)
    (r : buckets (gset string)) (f : SchemaField) :
  unique_names schema →
  f ∈ schema → is_keyed_boolean_field f →
  Scalar.get_scalar_probes schema data_keys = Ok r →
  ¬ f_name f ∈ scalars r ∧ ¬ f_name f ∈ booleans r ∧ ¬ f_name f ∈ keyed r.
Proof.
  intros Hu Hf Hkb H.
  assert (has_field schema is_keyed_boolean_field (f_name f)) as Hh by by exists f.
  destruct (scalar_buckets_elem schema data_keys r (f_name f) H) as (H1 & H2 & H3).
  destruct (scalar_kinds_exclusive f) as (_ & _ & _ & E4 & E5 & E6).
  refine (conj _ (conj _ _)); intros Hn;
    apply H1 in Hn || apply H2 in Hn || apply H3 in Hn; destruct Hn as [Hn _];
    destruct (has_field_unique schema _ _ (f_name f) Hu Hh Hn) as (g & _ & _ & HP & HQ);
    by destruct (scalar_kinds_exclusive g) as (_ & _ & _ & G4 & G5 & G6); eauto.
Qed.

Lemma keyed_boolean_never_returned_witness :
  ¬ "scalar_parent_a_keyed_flag" ∈ scalars mixed_scalar_buckets ∧
  ¬ "scalar_parent_a_keyed_flag" ∈ booleans mixed_scalar_buckets ∧
  ¬ "scalar_parent_a_keyed_flag" ∈ keyed mixed_scalar_buckets.
Proof.
  apply (keyed_boolean_never_returned mixed_scalar_schema mixed_scalar_keys
           mixed_scalar_buckets (keyed_record "scalar_parent_a_keyed_flag" "BOOLEAN")).
  - unfold unique_names. compute_done.
  - unfold mixed_scalar_schema. do 4 apply list_elem_of_further. apply list_elem_of_here.
  - split; [by split|]. eexists. split; reflexivity.
  - compute_done.
Defined.

Lemma has_field_same schema1 schema2 (P : SchemaField → Prop) n :
  same_fields schema1 schema2 → has_field schema1 P n → has_field schema2 P n.
Proof. intros Hs (f & Hf & H). exists f. split; [by apply Hs|done]. Qed.

Lemma registered_same prefix normalize keys1 keys2 n :
  same_keys keys1 keys2 → registered prefix normalize keys1 n →
  registered prefix normalize keys2 n.
Proof. intros Hs (x & Hx & H). exists x. split; [by apply Hs|done]. Qed.

(** X5.  The classification of the scalars depends on the fields the schema
    holds and on the keys the registry holds, not on their order or on
    repetitions: on two schemas with the same fields and two registries with
    the same keys, [Scalar.get_scalar_probes] returns the same buckets. *)
Theorem scalar_classification_order_independent
    (schema1 schema2 : list SchemaField) (data_keys1 data_keys2 : list string)
    (r : buckets (gset string)) :
  same_fields schema1 schema2 → same_keys data_keys1 data_keys2 →
  Scalar.get_scalar_probes schema1 data_keys1 = Ok r →
  Scalar.get_scalar_probes schema2 data_keys2 = Ok r.
Proof.
  intros Hs Hk H.
  assert (∃ r2, Scalar.get_scalar_probes schema2 data_keys2 = Ok r2) as [r2 H2].
  { assert (Forall scalar_record_passes schema2) as Hp.
    { assert (Forall scalar_record_passes schema1) as Hp1.
      { apply (for_each_ok_iff _ _ _ scalar_step_passes scalar_step_fails
                 scalar_passes_or_fails schema1 (Scalar.mkScalarSets ∅ ∅ ∅ ∅)).
        apply get_scalar_probes_ok in H as (st & H & _). by exists st. }
      rewrite Forall_forall in Hp1 |- *. intros f Hf. by apply Hp1, Hs. }
    apply (for_each_ok_iff _ _ _ scalar_step_passes scalar_step_fails
             scalar_passes_or_fails schema2 (Scalar.mkScalarSets ∅ ∅ ∅ ∅)) in Hp as [st Hst].
    eexists. apply get_scalar_probes_ok. by exists st. }
  rewrite H2. f_equal.
  assert (same_fields schema2 schema1) as Hs' by (intros f; by rewrite (Hs f)).
  assert (same_keys data_keys2 data_keys1) as Hk' by (intros x; by rewrite (Hk x)).
  destruct r as [s b k], r2 as [s2 b2 k2]. f_equal; apply set_eq; intros n;
    destruct (scalar_buckets_elem _ _ _ n H) as (H1 & H1' & H1'');
    destruct (scalar_buckets_elem _ _ _ n H2) as (H3 & H3' & H3''); simpl in *.
  - rewrite H1, H3. split; intros [? ?]; split;
      eauto using has_field_same, registered_same.
  - rewrite H1', H3'. split; intros [? ?]; split;
      eauto using has_field_same, registered_same.
  - rewrite H1'', H3''. split; intros [? ?]; split;
      eauto using has_field_same, registered_same.
Qed.

Lemma scalar_classification_order_independent_witness :
  Scalar.get_scalar_probes (reverse mixed_scalar_schema ++ mixed_scalar_schema)
                           (reverse mixed_scalar_keys)
  = Ok mixed_scalar_buckets.
Proof.
  apply (scalar_classification_order_independent mixed_scalar_schema _ mixed_scalar_keys).
  - intros f. rewrite elem_of_app, elem_of_reverse. tauto.
  - intros x. by rewrite elem_of_reverse.
  - compute_done.
Defined.

End ScalarClassification.

(** ** [Scalar.get_histogram_type] *)

Section HistogramType.

Lemma get_histogram_type_short (keyval_fields : list SchemaField) :
  length keyval_fields ≠ 2 → Scalar.get_histogram_type keyval_fields = Ok None.
Proof.
  intros H. unfold Scalar.get_histogram_type.
  destruct (length keyval_fields =? 2) eqn:E; [by apply Nat.eqb_eq in E|done].
Qed.

(** The three tests on a list of two fields. *)
Lemma get_histogram_type_pair (key value : SchemaField) :
  Scalar.get_histogram_type [key; value] =
  if String.eqb (f_type key) "INTEGER" && String.eqb (f_type value) "INTEGER"
  then Ok (Some "histogram")
  else if String.eqb (f_type key) "STRING" && String.eqb (f_type value) "INTEGER"
  then Ok (Some "string-histogram")
  else if String.eqb (f_type key) "STRING" && String.eqb (f_type value) "RECORD"
  then let! t := keyed_bin_type value in
       Ok (if String.eqb t "INTEGER" then Some "keyed-histogram" else None)
  else Ok None.
Proof.
  unfold Scalar.get_histogram_type, Scalar.type_at_is, keyed_bin_type, index, item_fields.
  cbn [length Nat.eqb and_then bind lookup list_lookup].
  destruct (String.eqb (f_type key) "INTEGER") eqn:E1;
    destruct (String.eqb (f_type value) "INTEGER") eqn:E2;
    destruct (String.eqb (f_type key) "STRING") eqn:E3;
    destruct (String.eqb (f_type value) "RECORD") eqn:E4;
    cbn [andb and_then bind]; try reflexivity.
  - destruct (f_fields value) as [[|inner rest]|]; cbn [bind lookup list_lookup]; try reflexivity.
    destruct (f_fields inner) as [[|inner_key rest']|]; cbn [bind lookup list_lookup];
      try reflexivity.
    by destruct (String.eqb (f_type inner_key) "INTEGER").
  - destruct (f_fields value) as [[|inner rest]|]; cbn [bind lookup list_lookup]; try reflexivity.
    destruct (f_fields inner) as [[|inner_key rest']|]; cbn [bind lookup list_lookup];
      try reflexivity.
    by destruct (String.eqb (f_type inner_key) "INTEGER").
Qed.

Lemma keyed_bin_type_error value e : keyed_bin_type value = Raise e → is_lookup_error e.
Proof.
  unfold keyed_bin_type, item_fields, index, bind, is_lookup_error.
  destruct (f_fields value) as [[|inner rest]|]; simpl; [naive_solver| |naive_solver].
  destruct (f_fields inner) as [[|inner_key rest']|]; simpl; naive_solver.
Qed.

End HistogramType.

Section HistogramTypeOutcome.

#[local] Set Warnings "-clear-no-such-hyp".

Lemma length_two {A : Type} (l : list A) : length l = 2 → ∃ x y, l = [x; y].
Proof. destruct l as [|x [|y [|z l]]]; try done. eauto. Qed.

(** The four kinds of pairs. *)
Lemma get_histogram_type_kinds (key value : SchemaField) :
  (f_type key = "INTEGER" ∧ f_type value = "INTEGER" ∧
   Scalar.get_histogram_type [key; value] = Ok (Some "histogram")) ∨
  (f_type key = "STRING" ∧ f_type value = "INTEGER" ∧
   Scalar.get_histogram_type [key; value] = Ok (Some "string-histogram")) ∨
  (f_type key = "STRING" ∧ f_type value = "RECORD" ∧
   ((∃ e, keyed_bin_type value = Raise e ∧
          Scalar.get_histogram_type [key; value] = Raise e) ∨
    (keyed_bin_type value = Ok "INTEGER" ∧
     Scalar.get_histogram_type [key; value] = Ok (Some "keyed-histogram")) ∨
    (∃ t, keyed_bin_type value = Ok t ∧ t ≠ "INTEGER" ∧
          Scalar.get_histogram_type [key; value] = Ok None))) ∨
  (¬ (f_type key = "INTEGER" ∧ f_type value = "INTEGER") ∧
   ¬ (f_type key = "STRING" ∧ f_type value = "INTEGER") ∧
   ¬ (f_type key = "STRING" ∧ f_type value = "RECORD") ∧
   Scalar.get_histogram_type [key; value] = Ok None).
Proof.
  rewrite get_histogram_type_pair.
  destruct (String.eqb_spec (f_type key) "INTEGER") as [Hk|Hk];
    destruct (String.eqb_spec (f_type value) "INTEGER") as [Hv|Hv];
    destruct (String.eqb_spec (f_type key) "STRING") as [Hk'|Hk'];
    destruct (String.eqb_spec (f_type value) "RECORD") as [Hv'|Hv'];
    cbn [andb]; try congruence; try (by left); try (right; by left);
    try (right; right; right; by intuition congruence).
  right; right; left. split; [done|]. split; [done|].
  destruct (keyed_bin_type value) as [t|e]; cbn [bind].
  - destruct (String.eqb_spec t "INTEGER") as [->|Ht]; [right; by left|].
    right; right. by exists t.
  - left. by exists e.
Qed.

Lemma get_histogram_type_error (keyval_fields : list SchemaField) e :
  Scalar.get_histogram_type keyval_fields = Raise e → is_lookup_error e.
Proof.
  intros H. destruct (decide (length keyval_fields = 2)) as [Hl|Hl];
    [|by rewrite get_histogram_type_short in H].
  apply length_two in Hl as (key & value & ->).
  pose proof (keyed_bin_type_error value) as Herr.
  destruct (get_histogram_type_kinds key value)
    as [(_ & _ & E)|[(_ & _ & E)|[(_ & _ & [(e' & Hb & E)|[(_ & E)|(? & _ & _ & E)]])
                                 |(_ & _ & _ & E)]]];
    rewrite E in H; try done.
  injection H as <-. by apply Herr.
Qed.

(** X6.  What [Scalar.get_histogram_type] does on every list of fields.  It
    gives the tag [histogram] exactly on a pair of two [INTEGER] fields,
    [string-histogram] exactly on a pair of a [STRING] and an [INTEGER],
    [keyed-histogram] exactly on a pair of a [STRING] and a [RECORD] whose
    first field's first field is an [INTEGER].  It raises exactly on a pair
    of a [STRING] and a [RECORD] in which that nested field cannot be read,
    with [KeyError('fields')] or [IndexError]; on a list that is no pair of
    fields it returns [None]. *)
Theorem get_histogram_type_outcome (keyval_fields : list SchemaField) :
  (Scalar.get_histogram_type keyval_fields = Ok (Some "histogram")
   ↔ is_pair_of "INTEGER" "INTEGER" keyval_fields) ∧
  (Scalar.get_histogram_type keyval_fields = Ok (Some "string-histogram")
   ↔ is_pair_of "STRING" "INTEGER" keyval_fields) ∧
  (Scalar.get_histogram_type keyval_fields = Ok (Some "keyed-histogram")
   ↔ is_keyed_pair (Ok "INTEGER") keyval_fields) ∧
  (∀ e, Scalar.get_histogram_type keyval_fields = Raise e
        ↔ is_keyed_pair (Raise e) keyval_fields) ∧
  (∀ e, Scalar.get_histogram_type keyval_fields = Raise e → is_lookup_error e) ∧
  (∀ tag, Scalar.get_histogram_type keyval_fields = Ok (Some tag) →
          tag ∈ ["histogram"; "string-histogram"; "keyed-histogram"]) ∧
  (length keyval_fields ≠ 2 → Scalar.get_histogram_type keyval_fields = Ok None).
Proof.
  destruct (decide (length keyval_fields = 2)) as [Hl|Hl].
  - apply length_two in Hl as (key & value & ->).
    pose proof (keyed_bin_type_error value) as Herr.
    unfold is_pair_of, is_keyed_pair.
    destruct (get_histogram_type_kinds key value)
      as [(Hk & Hv & ->)|[(Hk & Hv & ->)|[(Hk & Hv & H)|(N1 & N2 & N3 & ->)]]].
    + refine (conj _ (conj _ (conj _ (conj _ (conj _ (conj _ _)))))); try done;
        try (intros tag [= <-]; apply list_elem_of_here); naive_solver congruence.
    + refine (conj _ (conj _ (conj _ (conj _ (conj _ (conj _ _)))))); try done;
        try (intros tag [= <-]; apply list_elem_of_further, list_elem_of_here);
        naive_solver congruence.
    + destruct H as [(e & Hb & ->)|[(Hb & ->)|(t & Hb & Ht & ->)]];
        (refine (conj _ (conj _ (conj _ (conj _ (conj _ (conj _ _)))))); try done;
         try (intros tag [= <-]; do 2 apply list_elem_of_further; apply list_elem_of_here);
         naive_solver congruence).
    + refine (conj _ (conj _ (conj _ (conj _ (conj _ (conj _ _)))))); try done;
        naive_solver congruence.
  - rewrite (get_histogram_type_short _ Hl).
    unfold is_pair_of, is_keyed_pair.
    refine (conj _ (conj _ (conj _ (conj _ (conj _ (conj _ _)))))); try done;
      try (split; [done|]; intros (key & value & -> & _); by destruct Hl).
Qed.

End HistogramTypeOutcome.

(** ** The histograms of the scalar dataset *)

Section ScalarHistograms.

Variable t : string.

Lemma histogram_step_passes st f :
  histogram_field_passes f → ∃ st', Scalar.histogram_field_step t st f = Ok st'.
Proof.
  intros Hp. unfold Scalar.histogram_field_step, bind.
  destruct (startswith (f_name f) "histogram") eqn:E; simpl; [|by exists st].
  destruct (Hp E) as [tag ->]. destruct (negb _); eauto.
Qed.

Lemma histogram_step_fails st f e :
  histogram_field_fails f e → Scalar.histogram_field_step t st f = Raise e.
Proof.
  intros [Hp He]. unfold Scalar.histogram_field_step, bind. by rewrite Hp, He.
Qed.

Lemma histogram_passes_or_fails f :
  histogram_field_passes f ∨ ∃ e, histogram_field_fails f e.
Proof.
  unfold histogram_field_passes, histogram_field_fails.
  destruct (startswith (f_name f) "histogram"); [|by left].
  destruct (Scalar.get_histogram_type (Scalar.keyval_fields_of f)) as [tag|e].
  - left. eauto.
  - right. by exists e.
Qed.

(** One turn of the loop either writes the field or leaves the state. *)
Lemma histogram_step_case st f st' :
  Scalar.histogram_field_step t st f = Ok st' →
  (is_histogram_field t f ∧
   st' = ({[ Scalar.histogram_field_name (f_name f) ]} ∪ st.1,
          <[ Scalar.histogram_field_name (f_name f) := f_name f ]> st.2)) ∨
  (¬ is_histogram_field t f ∧ st' = st).
Proof.
  unfold Scalar.histogram_field_step, bind, is_histogram_field.
  destruct (startswith (f_name f) "histogram") eqn:Hp; simpl;
    [|intros [= <-]; right; split; [by intros [? _]|done]].
  destruct (Scalar.get_histogram_type (Scalar.keyval_fields_of f)) as [tag|] eqn:Ht; [|done].
  case_bool_decide as Heq; simpl; intros [= <-].
  - left. by subst tag.
  - right. split; [|done]. intros [_ [= ?]]. by apply Heq.
Qed.

(** A name that the loop has written stays, with its original name, when
    the fields that follow and are compared under this name have the same
    original name. *)
Lemma histogram_loop_holds l st st' k n :
  for_each (Scalar.histogram_field_step t) l st = Ok st' →
  (∀ g, g ∈ l → is_histogram_field t g → Scalar.histogram_field_name (f_name g) = k →
        f_name g = n) →
  k ∈ st.1 ∧ st.2 !! k = Some n → k ∈ st'.1 ∧ st'.2 !! k = Some n.
Proof.
  intros H Hl Hst. revert H.
  apply (for_each_invariant _ (λ st0, k ∈ st0.1 ∧ st0.2 !! k = Some n)); [|done].
  intros st0 x st0' Hx [Hk Hm] E.
  apply histogram_step_case in E as [[Hc ->]|[_ ->]]; [|done]. simpl.
  destruct (decide (Scalar.histogram_field_name (f_name x) = k)) as [Heq|Hne].
  - rewrite Heq, lookup_insert_eq, (Hl x Hx Hc Heq). split; [|done].
    apply elem_of_union_l. by apply elem_of_singleton.
  - rewrite lookup_insert_ne by done. split; [|done]. by apply elem_of_union_r.
Qed.

Lemma original_names_total (M : gmap string string) (l : list string) :
  (∀ k, k ∈ l → is_Some (M !! k)) → ∃ names, Scalar.original_names M l = Ok names.
Proof.
  induction l as [|k l IH]; intros H; [by exists []|].
  cbn [Scalar.original_names].
  destruct (H k (list_elem_of_here _ _)) as [v ->].
  destruct IH as [names ->]; [|by eexists].
  intros k' Hk'. by apply H, list_elem_of_further.
Qed.

Lemma original_names_complete (M : gmap string string) (l names : list string) k n :
  Scalar.original_names M l = Ok names → k ∈ l → M !! k = Some n → n ∈ names.
Proof.
  revert names. induction l as [|k' l IH]; intros names H Hk Hn.
  - by apply elem_of_nil in Hk.
  - cbn [Scalar.original_names] in H.
    destruct (M !! k') as [v|] eqn:Hv; [|done]. unfold bind in H.
    destruct (Scalar.original_names M l) as [names'|]; [|done].
    injection H as <-. apply elem_of_cons in Hk as [->|Hk].
    + replace v with n by congruence. apply list_elem_of_here.
    + apply list_elem_of_further. by apply (IH names').
Qed.

(** [get_histogram_probes] returns when its loop does: the reverse mapping
    has every name the loop has put in the set. *)
Lemma get_histogram_probes_loop schema data_keys :
  (∀ st, for_each (Scalar.histogram_field_step t) schema (∅, ∅) = Ok st →
         ∃ names,
           Scalar.original_names st.2
             (elements (Scalar.histogram_probes_of data_keys ∩ st.1)) = Ok names ∧
           Scalar.get_histogram_probes schema data_keys t = Ok (list_to_set names)) ∧
  (∀ e, for_each (Scalar.histogram_field_step t) schema (∅, ∅) = Raise e ↔
        Scalar.get_histogram_probes schema data_keys t = Raise e).
Proof.
  unfold Scalar.get_histogram_probes. split.
  - intros st H. rewrite H. cbn [bind].
    destruct (original_names_total st.2
                (elements (Scalar.histogram_probes_of data_keys ∩ st.1))) as [names Hn].
    { intros k Hk. apply elem_of_elements, elem_of_intersection in Hk as [_ Hk].
      apply histogram_loop_sound in H as [Hdom _]. by apply Hdom. }
    exists names. by rewrite Hn.
  - intros e. destruct (for_each _ _ _) as [st|e'] eqn:H; cbn [bind].
    + split; [done|].
      destruct (original_names_total st.2
                  (elements (Scalar.histogram_probes_of data_keys ∩ st.1))) as [names Hn].
      { intros k Hk. apply elem_of_elements, elem_of_intersection in Hk as [_ Hk].
        apply histogram_loop_sound in H as [Hdom _]. by apply Hdom. }
      by rewrite Hn.
    + split; intros [= ->]; reflexivity.
Qed.

(** X7.  The histogram path of the scalar generator returns when, and only
    when, [get_histogram_type] returns on every field of the schema whose
    name starts with [histogram]; otherwise it raises the error of the first
    field on which it does not, a [KeyError('fields')] or an [IndexError].
    The look-up in the reverse mapping never fails, and neither the selector
    nor the registry has a part in the outcome. *)
Theorem histogram_classification_outcome (schema : list SchemaField)
    (data_keys : list string) :
  ((∃ X, Scalar.get_histogram_probes schema data_keys t = Ok X)
   ↔ Forall histogram_field_passes schema) ∧
  (∀ e, Scalar.get_histogram_probes schema data_keys t = Raise e
        ↔ first_raise histogram_field_fails histogram_field_passes schema e) ∧
  (∀ e, Scalar.get_histogram_probes schema data_keys t = Raise e → is_lookup_error e).
Proof.
  destruct (get_histogram_probes_loop schema data_keys) as [Hok Hraise].
  assert (∀ e, Scalar.get_histogram_probes schema data_keys t = Raise e
               ↔ first_raise histogram_field_fails histogram_field_passes schema e) as Hr.
  { intros e. rewrite <- Hraise.
    apply (for_each_raise_iff _ _ _ histogram_step_passes histogram_step_fails
             histogram_passes_or_fails). }
  refine (conj _ (conj Hr _)).
  - rewrite <- (for_each_ok_iff _ _ _ histogram_step_passes histogram_step_fails
                  histogram_passes_or_fails schema (∅, ∅)).
    split.
    + intros [X H].
      destruct (for_each (Scalar.histogram_field_step t) schema (∅, ∅)) as [st|e] eqn:E;
        [by exists st|].
      pose proof (proj1 (Hraise e) eq_refl). congruence.
    + intros [st H]. destruct (Hok st H) as (names & _ & Hn). eauto.
  - intros e H. apply Hr in H as (before & x & after & _ & _ & _ & Hx).
    by apply get_histogram_type_error in Hx.
Qed.

(** X8.  When no two fields of the selector's shape are compared with the
    registry under the same name, the histogram path of the scalar generator
    returns exactly the original names of the fields of that shape whose
    compared name the registry holds: the prefix is stripped for the
    comparison and is back in the result, and no registered field is
    lost. *)
Theorem histogram_probes_exact (schema : list SchemaField) (data_keys : list string)
    (X : gset string) :
  no_collision schema t →
  Scalar.get_histogram_probes schema data_keys t = Ok X →
  ∀ n, n ∈ X ↔
       has_field schema (is_histogram_field t) n ∧
       registered "histogram/" Scalar.histogram_probe_name data_keys
                  (Scalar.histogram_field_name n).
Proof.
  intros Hnc H n.
  destruct (get_histogram_probes_loop schema data_keys) as [Hok Hraise].
  destruct (for_each (Scalar.histogram_field_step t) schema (∅, ∅)) as [st|e] eqn:E;
    [|pose proof (proj1 (Hraise e) eq_refl); congruence].
  destruct (Hok st eq_refl) as (names & Hn & Hget).
  assert (X = list_to_set names) as -> by congruence.
  rewrite elem_of_list_to_set. split.
  - intros Hin. destruct (original_names_elem _ _ _ _ Hn Hin) as (k & Hk & Hv).
    apply elem_of_elements, elem_of_intersection in Hk as [Hreg _].
    apply elem_of_registry in Hreg.
    apply histogram_loop_sound in E as [_ Hmap].
    by destruct (Hmap k n Hv) as [-> Hf].
  - intros [(f & Hf & <- & Hc) Hreg].
    apply (original_names_complete _ _ _ (Scalar.histogram_field_name (f_name f)) _ Hn).
    + apply elem_of_elements, elem_of_intersection. split; [by apply elem_of_registry|].
      apply list_elem_of_split in Hf as (before & after & ->).
      rewrite for_each_app in E. unfold bind in E.
      destruct (for_each _ before _) as [st1|] eqn:E1; [|done].
      cbn [for_each] in E. rewrite (histogram_step_candidate t st1 f Hc) in E.
      cbn [bind] in E.
      refine (proj1 (histogram_loop_holds after _ st _ (f_name f) E _ _)).
      * intros g Hg Hgc Heq. symmetry. apply Hnc; try done.
        -- apply elem_of_app. right. apply list_elem_of_here.
        -- apply elem_of_app. right. by apply list_elem_of_further.
      * simpl. rewrite lookup_insert_eq. split; [|done].
        apply elem_of_union_l. by apply elem_of_singleton.
    + apply list_elem_of_split in Hf as (before & after & ->).
      rewrite for_each_app in E. unfold bind in E.
      destruct (for_each _ before _) as [st1|] eqn:E1; [|done].
      cbn [for_each] in E. rewrite (histogram_step_candidate t st1 f Hc) in E.
      cbn [bind] in E.
      refine (proj2 (histogram_loop_holds after _ st _ (f_name f) E _ _)).
      * intros g Hg Hgc Heq. symmetry. apply Hnc; try done.
        -- apply elem_of_app. right. apply list_elem_of_here.
        -- apply elem_of_app. right. by apply list_elem_of_further.
      * simpl. rewrite lookup_insert_eq. split; [|done].
        apply elem_of_union_l. by apply elem_of_singleton.
Qed.

End ScalarHistograms.

Lemma histogram_probes_exact_witness :
  "histogram_parent_gc_ms" ∈ ({[ "histogram_parent_gc_ms" ]} : gset string) ↔
  has_field sample_schema (is_histogram_field "histogram") "histogram_parent_gc_ms" ∧
  registered "histogram/" Scalar.histogram_probe_name sample_keys
             (Scalar.histogram_field_name "histogram_parent_gc_ms").
Proof.
  apply (histogram_probes_exact "histogram" sample_schema sample_keys).
  - intros f g Hf Hg [Hp _] [Hq _] _. revert Hp Hq.
    unfold sample_schema in Hf, Hg.
    repeat (apply elem_of_cons in Hf as [->|Hf]);
      repeat (apply elem_of_cons in Hg as [->|Hg]);
      try (by apply elem_of_nil in Hf); try (by apply elem_of_nil in Hg);
      by vm_compute.
  - compute_done.
Defined.

(** ** The histograms of the histogram dataset *)

Section PayloadHistograms.

Variable t : string.

Lemma payload_step_passes hf f :
  payload_passes f → ∃ hf', Histogram.payload_step t hf f = Ok hf'.
Proof.
  intros Hp. unfold Histogram.payload_step, item_fields, bind.
  destruct (String.eqb_spec (f_name f) "payload") as [Hn|Hn]; simpl; [|by eexists].
  destruct (Hp Hn) as [fields ->]. by eexists.
Qed.

Lemma payload_step_fails hf f e :
  payload_fails f e → Histogram.payload_step t hf f = Raise e.
Proof.
  intros (Hn & Hf & ->). unfold Histogram.payload_step, item_fields, bind.
  by rewrite Hn, Hf.
Qed.

Lemma payload_passes_or_fails f : payload_passes f ∨ ∃ e, payload_fails f e.
Proof.
  unfold payload_passes, payload_fails.
  destruct (f_fields f) as [fields|]; [left; eauto|].
  destruct (String.eqb_spec (f_name f) "payload") as [Hn|Hn]; [|by left].
  right. by eexists.
Qed.

(** The inner loop finds the first field of the name. *)
Lemma find_payload_field_first fields hf group :
  Histogram.find_payload_field t fields hf = Some group →
  (∃ earlier later, fields = earlier ++ group :: later ∧ f_name group = t ∧
                    ∀ g, g ∈ earlier → f_name g ≠ t) ∨
  ((∀ g, g ∈ fields → f_name g ≠ t) ∧ hf = Some group).
Proof.
  induction fields as [|x fields IH]; cbn [Histogram.find_payload_field].
  - intros ->. right. split; [|done]. intros g Hg. by apply elem_of_nil in Hg.
  - destruct (String.eqb_spec (f_name x) t) as [Hx|Hx].
    + intros [= <-]. left. exists [], fields. split; [done|]. split; [done|].
      intros g Hg. by apply elem_of_nil in Hg.
    + intros H. destruct (IH H) as [(earlier & later & -> & Hn & He)|[Hall ->]].
      * left. exists (x :: earlier), later. split; [done|]. split; [done|].
        intros g Hg. apply elem_of_cons in Hg as [->|Hg]; [done|by apply He].
      * right. split; [|done].
        intros g Hg. apply elem_of_cons in Hg as [->|Hg]; [done|by apply Hall].
Qed.

Lemma find_payload_field_none fields hf :
  Histogram.find_payload_field t fields hf = None →
  hf = None ∧ ∀ g, g ∈ fields → f_name g ≠ t.
Proof.
  induction fields as [|x fields IH]; cbn [Histogram.find_payload_field].
  - intros ->. split; [done|]. intros g Hg. by apply elem_of_nil in Hg.
  - destruct (String.eqb_spec (f_name x) t) as [Hx|Hx]; [done|].
    intros H. destruct (IH H) as [-> Hall]. split; [done|].
    intros g Hg. apply elem_of_cons in Hg as [->|Hg]; [done|by apply Hall].
Qed.

(** One turn of the outer loop. *)
Lemma payload_step_case hf f hf' :
  Histogram.payload_step t hf f = Ok hf' →
  (f_name f ≠ "payload" ∧ hf' = hf) ∨
  (∃ fields, f_name f = "payload" ∧ f_fields f = Some fields ∧
             hf' = Histogram.find_payload_field t fields hf).
Proof.
  unfold Histogram.payload_step, item_fields, bind.
  destruct (String.eqb_spec (f_name f) "payload") as [Hn|Hn]; simpl.
  - destruct (f_fields f) as [fields|]; [|done]. intros [= <-]. right. by exists fields.
  - intros [= <-]. by left.
Qed.

Lemma payload_loop_none l hf :
  for_each (Histogram.payload_step t) l hf = Ok None →
  hf = None ∧ ∀ p g, p ∈ l → f_name p = "payload" → g ∈ get_fields p → f_name g ≠ t.
Proof.
  revert hf. induction l as [|x l IH]; intros hf H.
  - injection H as ->. split; [done|]. intros p g Hp. by apply elem_of_nil in Hp.
  - cbn [for_each] in H. unfold bind in H.
    destruct (Histogram.payload_step t hf x) as [hf1|] eqn:E; [|done].
    destruct (IH hf1 H) as [-> Hall].
    apply payload_step_case in E as [[Hn <-]|(fields & Hn & Hf & E)].
    + split; [done|]. intros p g Hp. apply elem_of_cons in Hp as [->|Hp]; [done|].
      by apply Hall.
    + symmetry in E. apply find_payload_field_none in E as [-> Hnone]. split; [done|].
      intros p g Hp. apply elem_of_cons in Hp as [->|Hp]; [|by apply Hall].
      intros _. unfold get_fields. rewrite Hf. apply Hnone.
Qed.

Lemma payload_loop_selects l hf group :
  for_each (Histogram.payload_step t) l hf = Ok (Some group) →
  selects l t group ∨
  (hf = Some group ∧
   ∀ p g, p ∈ l → f_name p = "payload" → g ∈ get_fields p → f_name g ≠ t).
Proof.
  revert hf. induction l as [|x l IH]; intros hf H.
  - injection H as ->. right. split; [done|]. intros p g Hp. by apply elem_of_nil in Hp.
  - cbn [for_each] in H. unfold bind in H.
    destruct (Histogram.payload_step t hf x) as [hf1|] eqn:E; [|done].
    destruct (IH hf1 H)
      as [(before & payload & after & earlier & later & -> & H1 & H2 & H3 & H4 & H5)
         |[-> Hall]].
    + left. by exists (x :: before), payload, after, earlier, later.
    + apply payload_step_case in E as [[Hn <-]|(fields & Hn & Hf & E)].
      * right. split; [done|]. intros p g Hp.
        apply elem_of_cons in Hp as [->|Hp]; [done|by apply Hall].
      * symmetry in E.
        apply find_payload_field_first in E
          as [(earlier & later & -> & Hg & He)|[Hnone ->]].
        -- left. by exists [], x, l, earlier, later.
        -- right. split; [done|]. intros p g Hp.
           apply elem_of_cons in Hp as [->|Hp]; [|by apply Hall].
           intros _. unfold get_fields. rewrite Hf. apply Hnone.
Qed.

Lemma selects_has_group schema group : selects schema t group → has_group schema t.
Proof.
  intros (before & payload & after & earlier & later & -> & H1 & H2 & H3 & _).
  exists payload, group. split; [|split; [done|split; [|done]]].
  - apply elem_of_app. right. apply list_elem_of_here.
  - unfold get_fields. rewrite H2. apply elem_of_app. right. apply list_elem_of_here.
Qed.

(** The three results of the loop. *)
Lemma payload_loop_outcome schema :
  (for_each (Histogram.payload_step t) schema None = Ok None
   ↔ Forall payload_passes schema ∧ ¬ has_group schema t) ∧
  ((∃ group, for_each (Histogram.payload_step t) schema None = Ok (Some group))
   ↔ Forall payload_passes schema ∧ has_group schema t) ∧
  (∀ e, for_each (Histogram.payload_step t) schema None = Raise e
        ↔ e = KeyError "fields" ∧ Exists is_bare_payload schema).
Proof.
  pose proof (for_each_ok_iff _ _ _ payload_step_passes payload_step_fails
                payload_passes_or_fails schema None) as Hok.
  pose proof (for_each_raise_iff _ _ _ payload_step_passes payload_step_fails
                payload_passes_or_fails schema None) as Hraise.
  assert (∀ group, for_each (Histogram.payload_step t) schema None = Ok (Some group) →
                   has_group schema t) as Hsome.
  { intros group H. apply payload_loop_selects in H as [H|[? _]]; [|done].
    by apply selects_has_group in H. }
  assert (for_each (Histogram.payload_step t) schema None = Ok None → ¬ has_group schema t)
    as Hnone.
  { intros H (payload & group & Hp & Hn & Hg & Hgn).
    apply payload_loop_none in H as [_ H]. by apply (H payload group). }
  refine (conj _ (conj _ _)).
  - split.
    + intros H. split; [apply Hok; eauto|by apply Hnone].
    + intros [Hp Hg]. apply Hok in Hp as [[group|] H]; [|done].
      destruct Hg. by apply (Hsome group).
  - split.
    + intros [group H]. split; [apply Hok; eauto|by apply (Hsome group)].
    + intros [Hp Hg]. apply Hok in Hp as [[group|] H]; [by exists group|].
      by apply Hnone in H.
  - intros e. rewrite Hraise. split.
    + intros (before & x & after & -> & _ & Hn & Hf & ->). split; [done|].
      apply Exists_app. right. by constructor.
    + intros [-> Hex].
      destruct (passes_or_first_raise payload_passes payload_fails
                  payload_passes_or_fails schema) as [Hp|[e He]].
      * apply Exists_exists in Hex as (x & Hx & Hn & Hf).
        rewrite Forall_forall in Hp. destruct (Hp x Hx Hn) as [? ?]. congruence.
      * destruct He as (before & x & after & -> & Hb & Hn & Hf & ->).
        by exists before, x, after.
Qed.

Lemma get_histogram_probes_of_loop schema data_keys :
  Histogram.get_histogram_probes schema data_keys t =
  let! histograms_field := for_each (Histogram.payload_step t) schema None in
  Ok ((λ group : SchemaField,
         Histogram.histogram_probes_of data_keys ∩
         foldl (λ acc histogram, {[ f_name histogram ]} ∪ acc) ∅ (get_fields group))
      <$> histograms_field).
Proof.
  unfold Histogram.get_histogram_probes, bind.
  by destruct (for_each _ _ _) as [[group|]|e].
Qed.

(** X9.  The three outcomes of [Histogram.get_histogram_probes].  It raises
    exactly when the schema has a [payload] field without fields, and then
    [KeyError('fields')]; it returns [None], not a set, exactly when every
    [payload] field has fields and none of them has a field named as the
    selector; it returns a set exactly when every [payload] field has fields
    and one of them has a field of that name. *)
Theorem payload_classification_outcome (schema : list SchemaField)
    (data_keys : list string) :
  (∀ e, Histogram.get_histogram_probes schema data_keys t = Raise e
        ↔ e = KeyError "fields" ∧ Exists is_bare_payload schema) ∧
  (Histogram.get_histogram_probes schema data_keys t = Ok None
   ↔ Forall payload_passes schema ∧ ¬ has_group schema t) ∧
  ((∃ X, Histogram.get_histogram_probes schema data_keys t = Ok (Some X))
   ↔ Forall payload_passes schema ∧ has_group schema t).
Proof.
  destruct (payload_loop_outcome schema) as (Hnone & Hsome & Hraise).
  rewrite get_histogram_probes_of_loop. unfold bind.
  refine (conj _ (conj _ _)).
  - intros e. rewrite <- Hraise.
    destruct (for_each _ _ _) as [hf|e']; [done|]. split; intros [= ->]; reflexivity.
  - rewrite <- Hnone. destruct (for_each _ _ _) as [[group|]|e']; done.
  - rewrite <- Hsome. destruct (for_each _ _ _) as [[group|]|e']; simpl.
    + split; eauto.
    + split; intros [? ?]; done.
    + split; intros [? ?]; done.
Qed.

(** X10.  When [Histogram.get_histogram_probes] returns a set, it has read
    one group: the first field named as the selector in the last [payload]
    field of the schema that has one.  The set holds exactly the names of
    the fields of this group that the registry holds, in its spelling
    (prefix stripped, dots as underscores, lower case). *)
Theorem payload_probes_exact (schema : list SchemaField) (data_keys : list string)
    (X : gset string) :
  Histogram.get_histogram_probes schema data_keys t = Ok (Some X) →
  ∃ group, selects schema t group ∧
           ∀ n, n ∈ X ↔
                (∃ histogram, histogram ∈ get_fields group ∧ f_name histogram = n) ∧
                registered "histogram/" Histogram.histogram_probe_name data_keys n.
Proof.
  rewrite get_histogram_probes_of_loop. unfold bind.
  destruct (for_each _ _ _) as [[group|]|e'] eqn:E; try done.
  intros [= <-]. exists group. split.
  - by apply payload_loop_selects in E as [E|[? _]].
  - intros n. unfold Histogram.histogram_probes_of.
    rewrite elem_of_intersection, elem_of_registry, elem_of_histogram_names, elem_of_empty.
    tauto.
Qed.

End PayloadHistograms.

Lemma payload_probes_exact_witness :
  ∃ group, selects two_payloads_schema "histograms" group ∧
           ∀ n, n ∈ ({[ "gc_ms" ]} : gset string) ↔
                (∃ histogram, histogram ∈ get_fields group ∧ f_name histogram = n) ∧
                registered "histogram/" Histogram.histogram_probe_name two_payloads_keys n.
Proof.
  apply (payload_probes_exact "histograms" two_payloads_schema two_payloads_keys).
  compute_done.
Defined.

(** ** The outcome of the drivers *)

Section Drivers.

Variable set_order : gset string → list string.

#[local] Set Warnings "-clear-no-such-hyp".

Lemma histogram_query_none t : histogram_query None t = Raise none_not_iterable.
Proof.
  unfold histogram_query, Histogram.get_histogram_probes_sql_strings.
  by destruct (String.eqb t "keyed_histograms").
Qed.

Lemma histogram_main_valid t schema keys :
  histogram_selector t →
  Histogram.main set_order t schema keys =
  let! histogram_probes := Histogram.get_histogram_probes schema keys t in
  histogram_query (set_order <$> histogram_probes) t.
Proof.
  unfold histogram_selector, Histogram.main, histogram_query. intros ->.
  by destruct (Histogram.get_histogram_probes schema keys t).
Qed.

Lemma histogram_main_invalid t schema keys :
  ¬ histogram_selector t →
  Histogram.main set_order t schema keys = Raise histogram_agg_type_error.
Proof.
  unfold histogram_selector, Histogram.main. intros H.
  by destruct (in_tuple t _).
Qed.

Lemma bare_payload_fails schema :
  Forall payload_passes schema → Exists is_bare_payload schema → False.
Proof.
  intros Hp Hex. apply Exists_exists in Hex as (x & Hx & Hn & Hf).
  rewrite Forall_forall in Hp. destruct (Hp x Hx Hn) as [? ?]. congruence.
Qed.

(** The three outcomes of the classifier, as the driver meets them. *)
Lemma histogram_main_cases t schema keys :
  histogram_selector t →
  (Forall payload_passes schema ∧ has_group schema t ∧
   ∃ out, Histogram.main set_order t schema keys = Ok out) ∨
  (Forall payload_passes schema ∧ ¬ has_group schema t ∧
   Histogram.main set_order t schema keys = Raise none_not_iterable) ∨
  (Exists is_bare_payload schema ∧ ¬ Forall payload_passes schema ∧
   Histogram.main set_order t schema keys = Raise (KeyError "fields")).
Proof.
  intros Hv. rewrite (histogram_main_valid t schema keys Hv).
  rewrite get_histogram_probes_of_loop.
  destruct (payload_loop_outcome t schema) as (Hnone & Hsome & Hraise).
  destruct (for_each (Histogram.payload_step t) schema None) as [[group|]|e] eqn:E;
    cbn [bind fmap option_fmap option_map].
  - left. destruct (proj1 Hsome) as [Hp Hg]; [by exists group|].
    split; [done|]. split; [done|]. apply histogram_query_total.
  - right; left. destruct (proj1 Hnone eq_refl) as [Hp Hg].
    split; [done|]. split; [done|]. apply histogram_query_none.
  - right; right. destruct (proj1 (Hraise e) eq_refl) as [-> Hex].
    split; [done|]. split; [|done].
    intros Hp. apply Exists_exists in Hex as (x & Hx & Hn & Hf).
    rewrite Forall_forall in Hp. destruct (Hp x Hx Hn) as [? ?]. congruence.
Qed.

(** X11.  What a run of the histogram generator does, from its inputs.  It
    prints a query exactly when the selector is [histograms] or
    [keyed_histograms], every [payload] field of the schema has fields and
    one of them has a field named as the selector.  Otherwise it raises and
    prints nothing: [ValueError] for another selector, [KeyError('fields')]
    for a [payload] field without fields, [TypeError] when no [payload]
    field has the selector's group.  The registry and the order in which
    sets are iterated have no part in this. *)
Theorem histogram_main_outcome (t : string) (schema : list SchemaField)
    (data_keys : list string) :
  ((∃ out, Histogram.main set_order t schema data_keys = Ok out)
   ↔ histogram_selector t ∧ Forall payload_passes schema ∧ has_group schema t) ∧
  (Histogram.main set_order t schema data_keys = Raise histogram_agg_type_error
   ↔ ¬ histogram_selector t) ∧
  (Histogram.main set_order t schema data_keys = Raise (KeyError "fields")
   ↔ histogram_selector t ∧ Exists is_bare_payload schema) ∧
  (Histogram.main set_order t schema data_keys = Raise none_not_iterable
   ↔ histogram_selector t ∧ Forall payload_passes schema ∧ ¬ has_group schema t) ∧
  (∀ e, Histogram.main set_order t schema data_keys = Raise e →
        e = histogram_agg_type_error ∨ e = KeyError "fields" ∨ e = none_not_iterable).
Proof.
  pose proof (bare_payload_fails schema) as Hbare.
  destruct (decide (histogram_selector t)) as [Hv|Hv].
  - destruct (histogram_main_cases t schema data_keys Hv)
      as [(Hp & Hg & out & ->)|[(Hp & Hg & ->)|(Hex & Hp & ->)]];
      unfold histogram_agg_type_error, none_not_iterable;
      refine (conj _ (conj _ (conj _ (conj _ _)))); naive_solver.
  - rewrite (histogram_main_invalid t schema data_keys Hv).
    unfold histogram_agg_type_error, none_not_iterable.
    refine (conj _ (conj _ (conj _ (conj _ _)))); naive_solver.
Qed.

Lemma selectors_disjoint t : scalar_selector t → scalar_histogram_selector t → False.
Proof.
  unfold scalar_selector, scalar_histogram_selector, in_tuple. cbn [existsb].
  destruct (String.eqb_spec t "scalar") as [->|_]; [done|].
  destruct (String.eqb_spec t "keyed-scalar") as [->|_]; done.
Qed.

Lemma scalar_main_scalars t schema keys :
  scalar_selector t →
  Scalar.main set_order t schema keys =
  let! scalar_probes := Scalar.get_scalar_probes schema keys in
  scalar_query (mkBuckets (set_order (scalars scalar_probes))
                          (set_order (booleans scalar_probes))
                          (set_order (keyed scalar_probes))) t.
Proof.
  unfold scalar_selector, Scalar.main, scalar_query. intros ->.
  by destruct (Scalar.get_scalar_probes schema keys).
Qed.

Lemma scalar_main_histograms t schema keys :
  scalar_histogram_selector t →
  Scalar.main set_order t schema keys =
  let! histogram_probes := Scalar.get_histogram_probes schema keys t in
  scalar_histogram_query (set_order histogram_probes) t.
Proof.
  intros Hh. unfold Scalar.main, scalar_histogram_query.
  destruct (in_tuple t ["scalar"; "keyed-scalar"]) eqn:Hs;
    [by destruct (selectors_disjoint t)|].
  unfold scalar_histogram_selector in Hh. rewrite Hh.
  by destruct (Scalar.get_histogram_probes schema keys t).
Qed.

Lemma scalar_main_invalid t schema keys :
  ¬ scalar_selector t → ¬ scalar_histogram_selector t →
  Scalar.main set_order t schema keys = Raise scalar_agg_type_error.
Proof.
  unfold scalar_selector, scalar_histogram_selector, Scalar.main. intros H1 H2.
  destruct (in_tuple t ["scalar"; "keyed-scalar"]); [done|].
  by destruct (in_tuple t _).
Qed.

(** X12.  What a run of the scalar generator does, from its inputs.  It
    prints a query exactly when the selector is one of the two scalar
    selectors and every scalar record of the schema can be read, or the
    selector is one of the three histogram selectors and the histogram type
    of every [histogram] field can be read.  For every other selector it
    raises [ValueError]; every other failure is a [KeyError('fields')] or an
    [IndexError] from the schema.  The registry and the order in which sets
    are iterated have no part in this. *)
Theorem scalar_main_outcome (t : string) (schema : list SchemaField)
    (data_keys : list string) :
  ((∃ out, Scalar.main set_order t schema data_keys = Ok out)
   ↔ (scalar_selector t ∧ Forall scalar_record_passes schema) ∨
     (scalar_histogram_selector t ∧ Forall histogram_field_passes schema)) ∧
  (Scalar.main set_order t schema data_keys = Raise scalar_agg_type_error
   ↔ ¬ scalar_selector t ∧ ¬ scalar_histogram_selector t) ∧
  (∀ e, Scalar.main set_order t schema data_keys = Raise e →
        e = scalar_agg_type_error ∨ is_lookup_error e).
Proof.
  pose proof (selectors_disjoint t) as Hd.
  assert (∀ e, is_lookup_error e → e ≠ scalar_agg_type_error) as Hne.
  { by intros e [->| ->]. }
  destruct (decide (scalar_selector t)) as [Hs|Hs];
    [|destruct (decide (scalar_histogram_selector t)) as [Hh|Hh]].
  - rewrite (scalar_main_scalars t schema data_keys Hs).
    pose proof (for_each_ok_iff _ _ _ scalar_step_passes scalar_step_fails
                  scalar_passes_or_fails schema (Scalar.mkScalarSets ∅ ∅ ∅ ∅)) as Hok.
    destruct (Scalar.get_scalar_probes schema data_keys) as [r|e] eqn:E; cbn [bind].
    + destruct (scalar_query_total
                  (mkBuckets (set_order (scalars r)) (set_order (booleans r))
                             (set_order (keyed r))) t) as [out ->].
      apply get_scalar_probes_ok in E as (st & E & _).
      refine (conj _ (conj _ _)); [|naive_solver|done].
      split; [|by eexists]. intros _. left. split; [done|]. apply Hok. by exists st.
    + apply get_scalar_probes_raise in E.
      assert (is_lookup_error e) as He.
      { apply (for_each_raise_iff _ _ _ scalar_step_passes scalar_step_fails
                 scalar_passes_or_fails) in E as (before & x & after & _ & _ & _ & Hx).
        by apply (keyed_value_error x). }
      refine (conj _ (conj _ _)).
      * split; [by intros [? ?]|]. intros [[_ Hp]|[Hh _]]; [|by destruct Hd].
        apply Hok in Hp as [st Hst]. congruence.
      * split; [|tauto]. intros [= ->]. by destruct (Hne _ He).
      * intros e' [= <-]. by right.
  - rewrite (scalar_main_histograms t schema data_keys Hh).
    destruct (get_histogram_probes_loop t schema data_keys) as [Hloop Hraise].
    pose proof (for_each_ok_iff _ _ _ (histogram_step_passes t) (histogram_step_fails t)
                  histogram_passes_or_fails schema (∅, ∅)) as Hok.
    destruct (Scalar.get_histogram_probes schema data_keys t) as [X|e] eqn:E; cbn [bind].
    + destruct (scalar_histogram_query_total (set_order X) t) as [out ->].
      refine (conj _ (conj _ _)); [|naive_solver|done].
      split; [|by eexists]. intros _. right. split; [done|]. apply Hok.
      destruct (for_each (Scalar.histogram_field_step t) schema (∅, ∅)) as [st|e'] eqn:E';
        [by exists st|].
      pose proof (proj1 (Hraise e') eq_refl). congruence.
    + assert (for_each (Scalar.histogram_field_step t) schema (∅, ∅) = Raise e) as E'
          by by apply Hraise.
      assert (is_lookup_error e) as He.
      { apply (for_each_raise_iff _ _ _ (histogram_step_passes t) (histogram_step_fails t)
                 histogram_passes_or_fails) in E' as (before & x & after & _ & _ & _ & Hx).
        by apply get_histogram_type_error in Hx. }
      refine (conj _ (conj _ _)).
      * split; [by intros [? ?]|]. intros [[Hs' _]|[_ Hp]]; [done|].
        apply Hok in Hp as [st Hst]. congruence.
      * split; [|tauto]. intros [= ->]. by destruct (Hne _ He).
      * intros e' [= <-]. by right.
  - rewrite (scalar_main_invalid t schema data_keys Hs Hh).
    refine (conj _ (conj _ _)).
    + split; [by intros [? ?]|]. tauto.
    + done.
    + intros e [= <-]. by left.
Qed.

End Drivers.

(** ** What [textwrap.dedent] keeps *)

Section DedentKeeps.

Implicit Types s w a b : string.

Lemma stands_in_refl w : stands_in w w.
Proof. exists EmptyString, EmptyString. by rewrite app_empty_l, app_empty_r. Qed.

Lemma stands_in_app_r w a s : stands_in w s → stands_in w (a +:+ s).
Proof.
  intros (x & y & ->). exists (a +:+ x), y. by rewrite app_assoc_s.
Qed.

Lemma stands_in_app_l w s b : stands_in w s → stands_in w (s +:+ b).
Proof.
  intros (x & y & ->). exists x, (y +:+ b). by rewrite !app_assoc_s.
Qed.

Lemma stands_in_join w sep (L : list string) x :
  x ∈ L → stands_in w x → stands_in w (join sep L).
Proof.
  intros Hx Hw. induction L as [|y L IH]; [by apply elem_of_nil in Hx|].
  destruct L as [|z L].
  - apply elem_of_cons in Hx as [->|Hx]; [done|by apply elem_of_nil in Hx].
  - change (join sep (y :: z :: L)) with (y +:+ sep +:+ join sep (z :: L)).
    apply elem_of_cons in Hx as [->|Hx].
    + by apply stands_in_app_l.
    + do 2 apply stands_in_app_r. by apply IH.
Qed.

Lemma split_lines_prefix w b :
  one_line w = true → ∃ rest tail, split_lines (w +:+ b) = (w +:+ rest) :: tail.
Proof.
  induction w as [|c w IH]; intros Hw.
  - rewrite app_empty_l. pose proof (split_lines_nonempty b).
    destruct (split_lines b) as [|l ls]; [done|]. by exists l, ls.
  - cbn [one_line] in Hw. apply andb_true_iff in Hw as [Hc Hw].
    destruct (IH Hw) as (rest & tail & E).
    rewrite app_cons. cbn [split_lines]. rewrite E.
    destruct (Ascii.eqb c nl_char); [done|]. by exists rest, tail.
Qed.

(** A text without a newline stands in one line. *)
Lemma split_lines_stands w s :
  one_line w = true → stands_in w s → ∃ line, line ∈ split_lines s ∧ stands_in w line.
Proof.
  intros Hw (a & b & ->). induction a as [|c a IH].
  - rewrite app_empty_l. destruct (split_lines_prefix w b Hw) as (rest & tail & ->).
    exists (w +:+ rest). split; [apply list_elem_of_here|].
    apply stands_in_app_l, stands_in_refl.
  - destruct IH as (line & Hline & Hin). rewrite app_cons. cbn [split_lines].
    destruct (Ascii.eqb c nl_char).
    + exists line. split; [by apply list_elem_of_further|done].
    + destruct (split_lines (a +:+ w +:+ b)) as [|l ls]; [by apply elem_of_nil in Hline|].
      apply elem_of_cons in Hline as [->|Hline].
      * exists (String c l). split; [apply list_elem_of_here|].
        by apply (stands_in_app_r w (String c EmptyString) l).
      * exists line. split; [by apply list_elem_of_further|done].
Qed.

Lemma all_blank_app a b : all_blank (a +:+ b) = all_blank a && all_blank b.
Proof.
  induction a as [|c a IH]; [done|]. rewrite app_cons. cbn [all_blank].
  by rewrite IH, andb_assoc.
Qed.

Lemma blank_line_stands w line :
  all_blank w = false → stands_in w line → blank_line line = line.
Proof.
  intros Hw (a & b & ->). unfold blank_line.
  by rewrite !all_blank_app, Hw, andb_false_r.
Qed.

(** The substitutions of [dedent], on a text whose margin is empty, leave
    every text that lies in one line and is not made of blanks. *)
Lemma dedent_keeps (head body : list string) w :
  find_margin (dedented_lines head) = Some EmptyString →
  head ≠ [] → body ≠ [] →
  one_line w = true → all_blank w = false →
  stands_in w (text_of_lines body) →
  stands_in w (dedent (text_of_lines (head ++ body))).
Proof.
  intros Hm Hh Hb Hw Hnb Hin.
  rewrite dedent_head by done. do 2 apply stands_in_app_r.
  destruct (split_lines_stands w _ Hw Hin) as (line & Hline & Hwl).
  apply (stands_in_join w nl _ line); [|done].
  unfold dedented_lines. unfold text_of_lines in Hline.
  rewrite split_lines_join in Hline by done.
  rewrite <- (blank_line_stands w line Hnb Hwl).
  apply list_elem_of_fmap. by exists line.
Qed.

Lemma one_line_app a b : one_line (a +:+ b) = one_line a && one_line b.
Proof.
  induction a as [|c a IH]; [done|]. rewrite app_cons. cbn [one_line].
  by rewrite IH, andb_assoc.
Qed.

End DedentKeeps.

Section RenderArguments.

(** The arguments [render] gives to the template. *)
Lemma scalar_render_generate_args opts (sql_string : sql_strings) out :
  Scalar.render opts sql_string = Ok out →
  ∃ a q p s u, out = Scalar.generate_sql opts a q p s u ∧
               sql_string !! "probes_string" = Some a ∧
               q = get sql_string "additional_queries" EmptyString.
Proof.
  unfold Scalar.render, bind, item.
  destruct (sql_string !! "probes_string") as [a|]; [|done].
  destruct (sql_string !! "select_clause") as [s|]; [|done].
  intros [= <-]. by eexists a, _, _, s, _.
Qed.

Lemma histogram_render_generate_args opts (sql_string : sql_strings) out :
  Histogram.render opts sql_string = Ok out →
  ∃ q wc s, out = Histogram.generate_sql opts q wc s ∧
            sql_string !! "windowed_clause" = Some wc ∧
            q = get sql_string "additional_queries" EmptyString.
Proof.
  unfold Histogram.render, bind, item.
  destruct (sql_string !! "windowed_clause") as [wc|]; [|done].
  destruct (sql_string !! "select_clause") as [s|]; [|done].
  intros [= <-]. by eexists _, wc, s.
Qed.

End RenderArguments.

(** ** Every probe is in the printed query *)

Section ProbesPrinted.

(** A text that stands in a slot of a line stands in the lines. *)
Lemma stands_in_slot w (L : list string) (i : nat) pre x :
  L !! i = Some (pre +:+ x) → stands_in w x → stands_in w (text_of_lines L).
Proof.
  intros Hi Hw. apply (stands_in_join w nl L (pre +:+ x)).
  - by apply list_elem_of_lookup_2 in Hi.
  - by apply stands_in_app_r.
Qed.

Lemma stands_in_fragments w sep (fragments : list string) :
  w ∈ fragments → stands_in w (join sep fragments).
Proof. intros H. apply (stands_in_join w sep fragments w H), stands_in_refl. Qed.

Lemma scalar_generate_sql_keeps opts a q p s u w :
  one_line w = true → all_blank w = false →
  stands_in w a ∨ stands_in w q →
  stands_in w (Scalar.generate_sql opts a q p s u).
Proof.
  intros Hw Hnb H. unfold Scalar.generate_sql.
  apply dedent_keeps; [by vm_compute|done|done|done|done|].
  destruct H as [H|H].
  - by eapply stands_in_slot with (i := 12); [reflexivity|].
  - by eapply stands_in_slot with (i := 0); [reflexivity|].
Qed.

Lemma histogram_generate_sql_keeps opts q wc s w :
  one_line w = true → all_blank w = false →
  stands_in w q ∨ stands_in w wc →
  stands_in w (Histogram.generate_sql opts q wc s).
Proof.
  intros Hw Hnb H. unfold Histogram.generate_sql.
  apply dedent_keeps; [by vm_compute|done|done|done|done|].
  destruct H as [H|H].
  - by eapply stands_in_slot with (i := 0); [reflexivity|].
  - by eapply stands_in_slot with (i := 4); [reflexivity|].
Qed.

Lemma foldl_append_singleton {A B : Type} (f : A → B) (l : list A) :
  foldl (λ acc x, acc ++ [f x]) [] l = f <$> l.
Proof.
  rewrite (foldl_append_flat_map (λ x, [f x])). simpl.
  induction l as [|x l IH]; [done|]. simpl. by rewrite IH.
Qed.

Lemma elem_of_flat_map {A B : Type} (f : A → list B) (l : list A) y x :
  x ∈ l → y ∈ f x → y ∈ flat_map f l.
Proof.
  intros Hx Hy. apply list_elem_of_In, in_flat_map. exists x.
  by rewrite <- !list_elem_of_In.
Qed.

(** The queries of the scalar generator. *)
Lemma scalar_query_scalars probes t out w :
  t ≠ "keyed-scalar" →
  scalar_query probes t = Ok out →
  one_line w = true → all_blank w = false →
  w ∈ Scalar.scalar_probe_structs probes →
  stands_in w out.
Proof.
  intros Ht H Hw Hnb Hin. unfold scalar_query, Scalar.get_scalar_probes_sql_strings in H.
  destruct (String.eqb_spec t "keyed-scalar") as [|_]; [done|].
  apply scalar_render_generate_args in H as (a & q & p & s & u & -> & Ha & _).
  apply scalar_generate_sql_keeps; [done|done|]. left.
  rewrite lookup_insert_eq in Ha. injection Ha as <-.
  eapply stands_in_slot with (i := 9); [reflexivity|]. by apply stands_in_fragments.
Qed.

Lemma scalar_query_keyed probes out w :
  scalar_query probes "keyed-scalar" = Ok out →
  one_line w = true → all_blank w = false →
  w ∈ Scalar.keyed_scalar_probes_struct (keyed probes) →
  stands_in w out.
Proof.
  intros H Hw Hnb Hin. unfold scalar_query, Scalar.get_scalar_probes_sql_strings in H.
  change (String.eqb "keyed-scalar" "keyed-scalar") with true in H. cbv iota in H.
  apply scalar_render_generate_args in H as (a & q & p & s & u & -> & _ & ->).
  apply scalar_generate_sql_keeps; [done|done|]. right.
  unfold Scalar.get_keyed_scalar_probes_sql_string, get.
  rewrite lookup_insert_ne, lookup_insert_eq by done. cbn [default].
  eapply stands_in_slot with (i := 14); [reflexivity|]. by apply stands_in_fragments.
Qed.

Lemma scalar_histogram_query_keeps probes t out w :
  scalar_histogram_query probes t = Ok out →
  one_line w = true → all_blank w = false →
  w ∈ Scalar.histogram_probe_structs probes →
  stands_in w out.
Proof.
  intros H Hw Hnb Hin.
  unfold scalar_histogram_query, Scalar.get_histogram_probes_sql_strings in H.
  apply scalar_render_generate_args in H as (a & q & p & s & u & -> & Ha & _).
  apply scalar_generate_sql_keeps; [done|done|]. left.
  rewrite lookup_insert_eq in Ha. injection Ha as <-.
  eapply stands_in_slot with (i := 6); [reflexivity|]. by apply stands_in_fragments.
Qed.

(** The queries of the histogram generator. *)
Lemma histogram_query_plain probes t out w :
  t ≠ "keyed_histograms" →
  histogram_query (Some probes) t = Ok out →
  one_line w = true → all_blank w = false →
  w ∈ Histogram.histogram_probe_structs probes →
  stands_in w out.
Proof.
  intros Ht H Hw Hnb Hin.
  unfold histogram_query, Histogram.get_histogram_probes_sql_strings in H.
  destruct (String.eqb_spec t "keyed_histograms") as [|_]; [done|].
  cbn [Histogram.iterate bind] in H.
  apply histogram_render_generate_args in H as (q & wc & s & -> & Hwc & _).
  apply histogram_generate_sql_keeps; [done|done|]. right.
  rewrite lookup_insert_ne, lookup_singleton_eq in Hwc by done. injection Hwc as <-.
  eapply stands_in_slot with (i := 9); [reflexivity|].
  eapply stands_in_slot with (i := 9); [reflexivity|]. by apply stands_in_fragments.
Qed.

Lemma histogram_query_keyed probes out w :
  histogram_query (Some probes) "keyed_histograms" = Ok out →
  one_line w = true → all_blank w = false →
  w ∈ Histogram.keyed_histogram_probes_struct probes →
  stands_in w out.
Proof.
  intros H Hw Hnb Hin.
  unfold histogram_query, Histogram.get_histogram_probes_sql_strings in H.
  change (String.eqb "keyed_histograms" "keyed_histograms") with true in H. cbv iota in H.
  unfold Histogram._get_keyed_histogram_sql in H. cbn [Histogram.iterate bind] in H.
  apply histogram_render_generate_args in H as (q & wc & s & -> & _ & ->).
  apply histogram_generate_sql_keeps; [done|done|]. left.
  unfold get. rewrite lookup_insert_eq. cbn [default].
  eapply stands_in_slot with (i := 14); [reflexivity|]. by apply stands_in_fragments.
Qed.

(** The fragments of a name without a newline lie in one line. *)
Lemma scalar_fragments_one_line n w :
  one_line n = true → w ∈ Scalar.scalar_fragments n ++ Scalar.boolean_fragments n →
  one_line w = true ∧ all_blank w = false.
Proof.
  intros Hn H. unfold Scalar.scalar_fragments, Scalar.boolean_fragments in H.
  cbn [app] in H.
  repeat (apply elem_of_cons in H as [->|H]); try (by apply elem_of_nil in H);
    (split; [by rewrite !one_line_app, Hn|reflexivity]).
Qed.

Lemma other_fragments_one_line n :
  one_line n = true →
  Forall (λ w, one_line w = true ∧ all_blank w = false)
         [ keyed_scalar_fragment n; scalar_histogram_fragment n;
           keyed_histogram_fragment n; histogram_fragment n ].
Proof.
  intros Hn.
  unfold keyed_scalar_fragment, scalar_histogram_fragment, keyed_histogram_fragment,
    histogram_fragment.
  repeat constructor; by rewrite !one_line_app, Hn.
Qed.

(** X13.  Every probe the classification returns is aggregated in the
    query the scalar generator prints.  For a probe whose name has no
    newline: with the selector [scalar], the four fragments (max, avg, min,
    sum) of a probe of the bucket [scalars] and the two fragments (false,
    true) of a probe of the bucket [booleans] stand in the printed text as
    the composer wrote them; with [keyed-scalar], the fragment of a probe of
    the bucket [keyed]; with a histogram selector, the fragment of a probe
    of the returned set.  The template and [textwrap.dedent] change none of
    them. *)
Theorem scalar_main_prints_every_probe (set_order : gset string → list string)
    (t : string) (schema : list SchemaField) (data_keys : list string)
    (out n : string) :
  yields_all set_order → one_line n = true →
  Scalar.main set_order t schema data_keys = Ok out →
  (∀ r, Scalar.get_scalar_probes schema data_keys = Ok r →
     (t = "scalar" →
        (n ∈ scalars r → all_stand_in (Scalar.scalar_fragments n) out) ∧
        (n ∈ booleans r → all_stand_in (Scalar.boolean_fragments n) out)) ∧
     (t = "keyed-scalar" → n ∈ keyed r → stands_in (keyed_scalar_fragment n) out)) ∧
  (∀ X, scalar_histogram_selector t →
        Scalar.get_histogram_probes schema data_keys t = Ok X →
        n ∈ X → stands_in (scalar_histogram_fragment n) out).
Proof.
  intros Hy Hn H. split.
  - intros r Hr. split.
    + intros ->. rewrite (scalar_main_scalars set_order "scalar") in H by done.
      rewrite Hr in H. cbn [bind] in H.
      split; intros Hin w Hw.
      * destruct (scalar_fragments_one_line n w Hn) as [H1 H2];
          [apply elem_of_app; by left|].
        refine (scalar_query_scalars _ "scalar" out w _ H H1 H2 _); [done|].
        rewrite scalar_probe_structs_flat_map. apply elem_of_app. left.
        apply (elem_of_flat_map _ _ _ n); [|done]. by apply Hy.
      * destruct (scalar_fragments_one_line n w Hn) as [H1 H2];
          [apply elem_of_app; by right|].
        refine (scalar_query_scalars _ "scalar" out w _ H H1 H2 _); [done|].
        rewrite scalar_probe_structs_flat_map. apply elem_of_app. right.
        apply (elem_of_flat_map _ _ _ n); [|done]. by apply Hy.
    + intros -> Hin. rewrite (scalar_main_scalars set_order "keyed-scalar") in H by done.
      rewrite Hr in H. cbn [bind] in H.
      pose proof (other_fragments_one_line n Hn) as Hf.
      apply Forall_cons in Hf as [[H1 H2] _].
      refine (scalar_query_keyed _ out _ H H1 H2 _). cbn [keyed].
      unfold Scalar.keyed_scalar_probes_struct.
      rewrite (foldl_append_singleton keyed_scalar_fragment).
      apply list_elem_of_fmap. exists n. split; [done|]. by apply Hy.
  - intros X Ht HX Hin.
    rewrite (scalar_main_histograms set_order t) in H by done.
    rewrite HX in H. cbn [bind] in H.
    pose proof (other_fragments_one_line n Hn) as Hf.
    apply Forall_cons in Hf as [_ Hf]. apply Forall_cons in Hf as [[H1 H2] _].
    refine (scalar_histogram_query_keeps _ t out _ H H1 H2 _).
    unfold Scalar.histogram_probe_structs.
    rewrite (foldl_append_singleton scalar_histogram_fragment).
    apply list_elem_of_fmap. exists n. split; [done|]. by apply Hy.
Qed.

Lemma scalar_main_prints_every_probe_witness :
  ∃ out,
    Scalar.main elements "scalar" mixed_scalar_schema mixed_scalar_keys = Ok out ∧
    all_stand_in (Scalar.scalar_fragments "scalar_parent_a_count") out ∧
    all_stand_in (Scalar.boolean_fragments "scalar_parent_a_flag") out.
Proof.
  eexists. split; [vm_compute; reflexivity|].
  assert (yields_all elements) as Hy by (intros X x; apply elem_of_elements).
  split.
  - refine (proj1 (proj1 (proj1 (scalar_main_prints_every_probe elements "scalar"
              mixed_scalar_schema mixed_scalar_keys _ "scalar_parent_a_count"
              Hy eq_refl _) mixed_scalar_buckets _) eq_refl) _);
      [vm_compute; reflexivity|compute_done|compute_done].
  - refine (proj2 (proj1 (proj1 (scalar_main_prints_every_probe elements "scalar"
              mixed_scalar_schema mixed_scalar_keys _ "scalar_parent_a_flag"
              Hy eq_refl _) mixed_scalar_buckets _) eq_refl) _);
      [vm_compute; reflexivity|compute_done|compute_done].
Defined.

(** X14.  Every probe the classification returns is aggregated in the
    query the histogram generator prints.  For a probe whose name has no
    newline, the fragment the composer writes for it stands in the printed
    text unchanged: with the selector [histograms] the two aggregates over
    [payload.histograms], with [keyed_histograms] the reference to
    [payload.keyed_histograms]. *)
Theorem histogram_main_prints_every_probe (set_order : gset string → list string)
    (t : string) (schema : list SchemaField) (data_keys : list string)
    (out n : string) (X : gset string) :
  yields_all set_order → one_line n = true →
  Histogram.main set_order t schema data_keys = Ok out →
  Histogram.get_histogram_probes schema data_keys t = Ok (Some X) →
  n ∈ X →
  (t = "histograms" → stands_in (histogram_fragment n) out) ∧
  (t = "keyed_histograms" → stands_in (keyed_histogram_fragment n) out).
Proof.
  intros Hy Hn H HX Hin.
  pose proof (other_fragments_one_line n Hn) as Hf.
  apply Forall_cons in Hf as [_ Hf]. apply Forall_cons in Hf as [_ Hf].
  apply Forall_cons in Hf as [[K1 K2] Hf]. apply Forall_cons in Hf as [[P1 P2] _].
  split; intros ->.
  - rewrite (histogram_main_valid set_order "histograms") in H by done.
    rewrite HX in H. cbn [bind fmap option_fmap option_map] in H.
    refine (histogram_query_plain _ "histograms" out _ _ H P1 P2 _); [done|].
    unfold Histogram.histogram_probe_structs.
    rewrite (foldl_append_singleton histogram_fragment).
    apply list_elem_of_fmap. exists n. split; [done|]. by apply Hy.
  - rewrite (histogram_main_valid set_order "keyed_histograms") in H by done.
    rewrite HX in H. cbn [bind fmap option_fmap option_map] in H.
    refine (histogram_query_keyed _ out _ H K1 K2 _).
    unfold Histogram.keyed_histogram_probes_struct.
    rewrite (foldl_append_singleton keyed_histogram_fragment).
    apply list_elem_of_fmap. exists n. split; [done|]. by apply Hy.
Qed.

Lemma histogram_main_prints_every_probe_witness :
  ∃ out,
    Histogram.main elements "histograms" two_payloads_schema two_payloads_keys = Ok out ∧
    stands_in (histogram_fragment "gc_ms") out.
Proof.
  eexists. split; [vm_compute; reflexivity|].
  assert (yields_all elements) as Hy by (intros X x; apply elem_of_elements).
  refine (proj1 (histogram_main_prints_every_probe elements "histograms"
            two_payloads_schema two_payloads_keys _ "gc_ms" {[ "gc_ms" ]}
            Hy eq_refl _ _ _) eq_refl);
    [vm_compute; reflexivity|compute_done|compute_done].
Defined.

End ProbesPrinted.

(** ** The compared name of a histogram field *)

Section FieldName.

Lemma contains_false_find_from s w k : contains s w = false → find_from w s k = None.
Proof.
  unfold contains, str_find. destruct (find_from w s 0) eqn:E; [done|]. intros _.
  by apply (find_from_none_shift w s 0 k).
Qed.

Lemma find_from_none_contains s w k : find_from w s k = None → contains s w = false.
Proof.
  intros H. unfold contains, str_find. by rewrite (find_from_none_shift w s k 0 H).
Qed.

(** The prefix of one process holds no occurrence of the other's, and none
    runs from it into the rest of the name. *)
Lemma parent_prefix_clear s :
  contains s "histogram_content_" = false →
  contains ("histogram_parent_" +:+ s) "histogram_content_" = false.
Proof.
  intros H. apply (find_from_none_contains _ _ 0).
  simpl.
  by apply contains_false_find_from.
Qed.

(** X15.  The name under which a histogram field of the scalar dataset is
    compared with the registry is the field's name without its process
    prefix: for a rest that holds neither prefix, [histogram_parent_] and
    [histogram_content_] before it are both stripped, so the parent and the
    content field of one probe are compared under the same name. *)
Theorem histogram_field_name_strips_prefix (s : string) :
  contains s "histogram_content_" = false →
  contains s "histogram_parent_" = false →
  Scalar.histogram_field_name ("histogram_parent_" +:+ s) = s ∧
  Scalar.histogram_field_name ("histogram_content_" +:+ s) = s ∧
  Scalar.histogram_field_name s = s.
Proof.
  intros Hc Hp. unfold Scalar.histogram_field_name, replace.
  refine (conj _ (conj _ _)).
  - rewrite (replace_scan_absent _ _ _ _ (parent_prefix_clear s Hc)).
    rewrite replace_scan_prefix, app_empty_l. by apply replace_scan_absent.
  - rewrite replace_scan_prefix, app_empty_l.
    rewrite (replace_scan_absent _ _ _ _ Hc). by apply replace_scan_absent.
  - rewrite (replace_scan_absent _ _ _ _ Hc). by apply replace_scan_absent.
Qed.

Lemma histogram_field_name_strips_prefix_witness :
  Scalar.histogram_field_name ("histogram_parent_" +:+ "gc_ms") = "gc_ms" ∧
  Scalar.histogram_field_name ("histogram_content_" +:+ "gc_ms") = "gc_ms" ∧
  Scalar.histogram_field_name "gc_ms" = "gc_ms".
Proof. apply (histogram_field_name_strips_prefix "gc_ms"); reflexivity. Defined.

End FieldName.

(** ** The order of the fragments in the composers' output *)

Section FragmentLists.

Lemma app_inj_length a a' b b' :
  String.length a = String.length a' → a +:+ b = a' +:+ b' → a = a'.
Proof.
  revert a'. induction a as [|c a IH]; intros [|c' a'] Hl H; try done.
  rewrite !app_cons in H. injection H as -> H. f_equal. apply IH; [|done].
  simpl in Hl. lia.
Qed.

Lemma cons_inv {A : Type} (x y : A) (l k : list A) : x :: l = y :: k → x = y ∧ l = k.
Proof. by intros [= -> ->]. Qed.

Lemma fmap_eq_inj {A B : Type} (f : A → B) (l1 l2 : list A) :
  (∀ x y, f x = f y → x = y) → f <$> l1 = f <$> l2 → l1 = l2.
Proof.
  intros Hf. revert l2. induction l1 as [|x l1 IH]; intros [|y l2] H; try done.
  cbn [fmap list_fmap] in H. apply cons_inv in H as [Hx H].
  f_equal; [by apply Hf|by apply IH].
Qed.

(** A fragment names its probe. *)
Lemma scalar_fragment_inj x y :
  Scalar.scalar_fragments x !! 0 = Scalar.scalar_fragments y !! 0 → x = y.
Proof.
  cbn [Scalar.scalar_fragments lookup list_lookup]. intros [= H].
  assert (String.length x = String.length y) as Hl.
  { apply (f_equal String.length) in H. rewrite !length_app_s in H. simpl in H. lia. }
  apply app_inv_head_s in H. by apply app_inj_length in H.
Qed.

Lemma boolean_fragment_inj x y :
  Scalar.boolean_fragments x !! 0 = Scalar.boolean_fragments y !! 0 → x = y.
Proof.
  cbn [Scalar.boolean_fragments lookup list_lookup]. intros [= H].
  assert (String.length x = String.length y) as Hl.
  { apply (f_equal String.length) in H. rewrite !length_app_s in H. simpl in H. lia. }
  apply app_inv_head_s in H. by apply app_inj_length in H.
Qed.

Lemma keyed_scalar_fragment_inj x y :
  keyed_scalar_fragment x = keyed_scalar_fragment y → x = y.
Proof.
  unfold keyed_scalar_fragment. intros H.
  assert (String.length x = String.length y) as Hl.
  { apply (f_equal String.length) in H. rewrite !length_app_s in H. simpl in H. lia. }
  apply app_inv_head_s in H. by apply app_inj_length in H.
Qed.

Lemma scalar_histogram_fragment_inj x y :
  scalar_histogram_fragment x = scalar_histogram_fragment y → x = y.
Proof.
  unfold scalar_histogram_fragment. intros H.
  assert (String.length x = String.length y) as Hl.
  { apply (f_equal String.length) in H. rewrite !length_app_s in H. simpl in H. lia. }
  apply app_inv_head_s in H. by apply app_inj_length in H.
Qed.

Lemma keyed_histogram_fragment_inj x y :
  keyed_histogram_fragment x = keyed_histogram_fragment y → x = y.
Proof.
  unfold keyed_histogram_fragment. intros H.
  assert (String.length x = String.length y) as Hl.
  { apply (f_equal String.length) in H. rewrite !length_app_s in H. simpl in H. lia. }
  apply app_inv_head_s in H. by apply app_inj_length in H.
Qed.

Lemma histogram_fragment_inj x y :
  histogram_fragment x = histogram_fragment y → x = y.
Proof.
  unfold histogram_fragment. intros H.
  assert (String.length x = String.length y) as Hl.
  { apply (f_equal String.length) in H. rewrite !length_app_s in H. simpl in H. lia. }
  apply app_inv_head_s in H. by apply app_inj_length in H.
Qed.

Lemma scalar_fragments_flat_map_inj l1 l2 :
  flat_map Scalar.scalar_fragments l1 = flat_map Scalar.scalar_fragments l2 → l1 = l2.
Proof.
  revert l2. induction l1 as [|x l1 IH]; intros [|y l2] H; try done.
  cbn [flat_map] in H.
  assert (x = y) as ->.
  { apply scalar_fragment_inj. by apply (f_equal (λ l, l !! 0)) in H. }
  f_equal. apply IH. by apply app_inv_head in H.
Qed.

Lemma boolean_fragments_flat_map_inj l1 l2 :
  flat_map Scalar.boolean_fragments l1 = flat_map Scalar.boolean_fragments l2 → l1 = l2.
Proof.
  revert l2. induction l1 as [|x l1 IH]; intros [|y l2] H; try done.
  cbn [flat_map] in H.
  assert (x = y) as ->.
  { apply boolean_fragment_inj. by apply (f_equal (λ l, l !! 0)) in H. }
  f_equal. apply IH. by apply app_inv_head in H.
Qed.

(** The loops that append one fragment for each probe. *)
Lemma probe_structs_fmap (l : list string) :
  Scalar.keyed_scalar_probes_struct l = keyed_scalar_fragment <$> l ∧
  Scalar.histogram_probe_structs l = scalar_histogram_fragment <$> l ∧
  Histogram.histogram_probe_structs l = histogram_fragment <$> l ∧
  Histogram.keyed_histogram_probes_struct l = keyed_histogram_fragment <$> l.
Proof.
  unfold Scalar.keyed_scalar_probes_struct, Scalar.histogram_probe_structs,
    Histogram.histogram_probe_structs, Histogram.keyed_histogram_probes_struct.
  by rewrite (foldl_append_singleton keyed_scalar_fragment),
    (foldl_append_singleton scalar_histogram_fragment),
    (foldl_append_singleton histogram_fragment),
    (foldl_append_singleton keyed_histogram_fragment).
Qed.

End FragmentLists.

Section Slots.

Lemma join_middle sep (A B : list string) x :
  A ≠ [] → B ≠ [] →
  join sep (A ++ x :: B) = (join sep A +:+ sep) +:+ x +:+ (sep +:+ join sep B).
Proof.
  intros HA HB. rewrite join_app by done.
  destruct B as [|y B]; [done|].
  change (join sep (x :: y :: B)) with (x +:+ sep +:+ join sep (y :: B)).
  by rewrite !app_assoc_s.
Qed.

(** The text of a list of lines around the slot of one line. *)
Lemma text_of_lines_slot (L : list string) (i : nat) pre x :
  L !! i = Some (pre +:+ x) → take i L ≠ [] → drop (S i) L ≠ [] →
  text_of_lines L
  = (text_of_lines (take i L) +:+ nl +:+ pre) +:+ x +:+ (nl +:+ text_of_lines (drop (S i) L)).
Proof.
  intros Hi Ht Hd. unfold text_of_lines.
  rewrite <- (take_drop_middle L i _ Hi) at 1.
  rewrite join_middle by done. by rewrite !app_assoc_s.
Qed.

End Slots.

Section ComposerSlots.

Lemma slot_in_slot b1 b2 x a2 a1 :
  b1 +:+ (b2 +:+ x +:+ a2) +:+ a1 = (b1 +:+ b2) +:+ x +:+ (a2 +:+ a1).
Proof. by rewrite !app_assoc_s. Qed.

Lemma scalar_probes_slot :
  ∃ before after, ∀ probes t,
    t ≠ "keyed-scalar" →
    slot_holds (Scalar.get_scalar_probes_sql_strings probes t) "probes_string"
      before (join Scalar.fragment_separator (Scalar.scalar_probe_structs probes)) after.
Proof.
  eexists. eexists. intros probes t Ht.
  unfold slot_holds, Scalar.get_scalar_probes_sql_strings.
  destruct (String.eqb_spec t "keyed-scalar") as [|_]; [done|].
  rewrite lookup_insert_eq. f_equal.
  erewrite text_of_lines_slot with (i := 9); [|reflexivity|done|done].
  cbn [firstn skipn]. reflexivity.
Qed.

Lemma keyed_scalar_probes_slot :
  ∃ before after, ∀ probes,
    slot_holds (Scalar.get_keyed_scalar_probes_sql_string probes) "additional_queries"
      before (join Scalar.fragment_separator (Scalar.keyed_scalar_probes_struct probes)) after.
Proof.
  eexists. eexists. intros probes.
  unfold slot_holds, Scalar.get_keyed_scalar_probes_sql_string.
  rewrite lookup_insert_ne, lookup_insert_eq by done. f_equal.
  erewrite text_of_lines_slot with (i := 14); [|reflexivity|done|done].
  cbn [firstn skipn]. reflexivity.
Qed.

Lemma scalar_histogram_probes_slot t :
  ∃ before after, ∀ probes,
    slot_holds (Scalar.get_histogram_probes_sql_strings probes t) "probes_string"
      before (join Scalar.fragment_separator (Scalar.histogram_probe_structs probes)) after.
Proof.
  eexists. eexists. intros probes.
  unfold slot_holds, Scalar.get_histogram_probes_sql_strings.
  rewrite lookup_insert_eq. f_equal.
  erewrite text_of_lines_slot with (i := 6); [|reflexivity|done|done].
  cbn [firstn skipn]. reflexivity.
Qed.

Lemma histogram_probes_slot :
  ∃ before after, ∀ probes t,
    t ≠ "keyed_histograms" →
    ∃ d, Histogram.get_histogram_probes_sql_strings (Some probes) t = Ok d ∧
         slot_holds d "windowed_clause"
           before (join Histogram.fragment_separator
                     (Histogram.histogram_probe_structs probes)) after.
Proof.
  eexists. eexists. intros probes t Ht.
  unfold slot_holds, Histogram.get_histogram_probes_sql_strings.
  destruct (String.eqb_spec t "keyed_histograms") as [|_]; [done|].
  cbn [Histogram.iterate bind]. eexists. split; [reflexivity|].
  rewrite lookup_insert_ne, lookup_singleton_eq by done. f_equal.
  erewrite text_of_lines_slot with (i := 9); [|reflexivity|done|done].
  cbn [firstn skipn].
  match goal with
  | |- context [text_of_lines ?L] =>
      match L with
      | context [join] =>
          erewrite (text_of_lines_slot L 9); [|reflexivity|done|done]
      end
  end.
  cbn [firstn skipn]. rewrite slot_in_slot. reflexivity.
Qed.

Lemma keyed_histogram_probes_slot :
  ∃ before after, ∀ probes,
    ∃ d, Histogram._get_keyed_histogram_sql (Some probes) = Ok d ∧
         slot_holds d "additional_queries"
           before (join Histogram.fragment_separator
                     (Histogram.keyed_histogram_probes_struct probes)) after.
Proof.
  eexists. eexists. intros probes.
  unfold slot_holds, Histogram._get_keyed_histogram_sql.
  cbn [Histogram.iterate bind]. eexists. split; [reflexivity|].
  rewrite lookup_insert_eq. f_equal.
  erewrite text_of_lines_slot with (i := 14); [|reflexivity|done|done].
  cbn [firstn skipn]. reflexivity.
Qed.

End ComposerSlots.

Section IterationOrder.

Lemma shows_the_order_fmap (f : string → string) (structs : list string → list string) l1 l2 :
  (∀ l, structs l = f <$> l) → (∀ x y, f x = f y → x = y) →
  l1 ≡ₚ l2 → shows_the_order structs l1 l2.
Proof.
  intros Hs Hf Hp. unfold shows_the_order. rewrite !Hs. split; [by apply fmap_Permutation|].
  split; [by apply fmap_eq_inj|by intros ->].
Qed.

End IterationOrder.

(** C2, amended.  The output of a composer is a function of the sequence in
    which the probe set is iterated.  The fragment list of every composer is
    the image of that sequence: four fragments for each scalar and then two
    for each boolean, one for each keyed scalar, histogram or keyed
    histogram, in the order of the iteration, none left out or repeated.
    The slot the composer fills is a fixed text around these fragments,
    joined by the separator in that order, so two calls that iterate in the
    same order return the same text.  Nothing sorts the probes: two
    iterations of one probe set give the same fragments, and the same list
    of fragments only when they are the same iteration. *)
Theorem composition_follows_iteration_order (X : gset string) (l1 l2 : list string) :
  iterates X l1 → iterates X l2 →
  ((∀ probes,
      Scalar.scalar_probe_structs probes
      = flat_map Scalar.scalar_fragments (scalars probes)
        ++ flat_map Scalar.boolean_fragments (booleans probes)) ∧
   (∀ l, Scalar.keyed_scalar_probes_struct l = keyed_scalar_fragment <$> l) ∧
   (∀ l, Scalar.histogram_probe_structs l = scalar_histogram_fragment <$> l) ∧
   (∀ l, Histogram.histogram_probe_structs l = histogram_fragment <$> l) ∧
   (∀ l, Histogram.keyed_histogram_probes_struct l = keyed_histogram_fragment <$> l)) ∧
  ((∃ before after, ∀ probes t,
      t ≠ "keyed-scalar" →
      slot_holds (Scalar.get_scalar_probes_sql_strings probes t) "probes_string"
        before (join Scalar.fragment_separator (Scalar.scalar_probe_structs probes)) after) ∧
   (∃ before after, ∀ probes,
      slot_holds (Scalar.get_keyed_scalar_probes_sql_string probes) "additional_queries"
        before (join Scalar.fragment_separator (Scalar.keyed_scalar_probes_struct probes))
        after) ∧
   (∀ t, ∃ before after, ∀ probes,
      slot_holds (Scalar.get_histogram_probes_sql_strings probes t) "probes_string"
        before (join Scalar.fragment_separator (Scalar.histogram_probe_structs probes))
        after) ∧
   (∃ before after, ∀ probes t,
      t ≠ "keyed_histograms" →
      ∃ d, Histogram.get_histogram_probes_sql_strings (Some probes) t = Ok d ∧
           slot_holds d "windowed_clause"
             before (join Histogram.fragment_separator
                       (Histogram.histogram_probe_structs probes)) after) ∧
   (∃ before after, ∀ probes,
      ∃ d, Histogram._get_keyed_histogram_sql (Some probes) = Ok d ∧
           slot_holds d "additional_queries"
             before (join Histogram.fragment_separator
                       (Histogram.keyed_histogram_probes_struct probes)) after)) ∧
  (shows_the_order (λ l, Scalar.scalar_probe_structs (mkBuckets l [] [])) l1 l2 ∧
   shows_the_order (λ l, Scalar.scalar_probe_structs (mkBuckets [] l [])) l1 l2 ∧
   shows_the_order Scalar.keyed_scalar_probes_struct l1 l2 ∧
   shows_the_order Scalar.histogram_probe_structs l1 l2 ∧
   shows_the_order Histogram.histogram_probe_structs l1 l2 ∧
   shows_the_order Histogram.keyed_histogram_probes_struct l1 l2).
Proof.
  intros H1 H2. pose proof (iterates_permutation X l1 l2 H1 H2) as Hp.
  refine (conj _ (conj _ _)).
  - split; [apply scalar_probe_structs_flat_map|].
    refine (conj _ (conj _ (conj _ _))); intros l;
      destruct (probe_structs_fmap l) as (E1 & E2 & E3 & E4); done.
  - refine (conj scalar_probes_slot (conj keyed_scalar_probes_slot
             (conj scalar_histogram_probes_slot
                (conj histogram_probes_slot keyed_histogram_probes_slot)))).
  - refine (conj _ (conj _ (conj _ (conj _ (conj _ _))))).
    + unfold shows_the_order. rewrite !scalar_probe_structs_flat_map.
      cbn [scalars booleans flat_map]. rewrite !app_nil_r.
      split; [by apply Permutation_flat_map|].
      split; [apply scalar_fragments_flat_map_inj|by intros ->].
    + unfold shows_the_order. rewrite !scalar_probe_structs_flat_map.
      cbn [scalars booleans flat_map app].
      split; [by apply Permutation_flat_map|].
      split; [apply boolean_fragments_flat_map_inj|by intros ->].
    + apply (shows_the_order_fmap keyed_scalar_fragment); [|apply keyed_scalar_fragment_inj|done].
      intros l. apply (probe_structs_fmap l).
    + apply (shows_the_order_fmap scalar_histogram_fragment);
        [|apply scalar_histogram_fragment_inj|done].
      intros l. apply (probe_structs_fmap l).
    + apply (shows_the_order_fmap histogram_fragment); [|apply histogram_fragment_inj|done].
      intros l. apply (probe_structs_fmap l).
    + apply (shows_the_order_fmap keyed_histogram_fragment);
        [|apply keyed_histogram_fragment_inj|done].
      intros l. apply (probe_structs_fmap l).
Qed.

Lemma composition_follows_iteration_order_witness :
  shows_the_order Histogram.keyed_histogram_probes_struct ["a"; "b"] ["b"; "a"] ∧
  shows_the_order (λ l, Scalar.scalar_probe_structs (mkBuckets l [] [])) ["a"; "b"] ["b"; "a"].
Proof.
  assert (iterates (list_to_set ["a"; "b"]) ["a"; "b"]) as H1
    by (apply iterates_list_to_set; [compute_done|done]).
  assert (iterates (list_to_set ["a"; "b"]) ["b"; "a"]) as H2
    by (apply iterates_list_to_set; [compute_done|apply Permutation_swap]).
  pose proof (proj2 (proj2 (composition_follows_iteration_order _ _ _ H1 H2))) as H.
  split; [apply H|apply H].
Defined.
